(** * ImageDiffiT: a shallow embedding of [image_diffit.py]

    The development follows the Python module class by class:
    [Tokenizer], [Head], [DiffiTResBlock], [DiffiTSequential] and
    [ImageDiffiT].  Python integers are [Z]; a tensor is a shape together
    with an index function; exceptions are values of an error monad; the
    attributes that the module assigns to an [ImageDiffiT] instance live in
    a dictionary keyed by attribute name.

    The numeric kernels of the PyTorch and timm layers (convolution, group
    normalisation, attention, ...) are not part of the module: they are the
    fields of the class [Backend], and every statement below holds for all
    backends.  What the layers do to shapes, and when they raise, is
    modelled explicitly. *)

From Stdlib Require Import ZArith QArith.
From Stdlib Require Import Floats.PrimFloat.
From stdpp Require Import base gmap strings list.

Local Open Scope Z_scope.

(** ** Exceptions and the error monad *)

Inductive exn : Type :=
| AssertionError (msg : string)
| TypeError (msg : string)
| AttributeError (name : string)
| RuntimeError (msg : string)
| ValueError (msg : string)
| IndexError (msg : string)
| ZeroDivisionError.

Inductive result (A : Type) : Type :=
| Ok (a : A)
| Raise (e : exn).

Arguments Ok {A} a.
Arguments Raise {A} e.

#[global] Instance result_ret : MRet result := fun A a => Ok a.

#[global] Instance result_bind : MBind result := fun A B f m =>
  match m with
  | Ok a => f a
  | Raise e => Raise e
  end.

#[global] Instance result_fmap : FMap result := fun A B f m =>
  match m with
  | Ok a => Ok (f a)
  | Raise e => Raise e
  end.

Definition is_ok {A} (r : result A) : bool :=
  match r with Ok _ => true | Raise _ => false end.

(** An [assert] without a message. *)
Definition no_message : string := EmptyString.

(** Python's [assert cond, msg]. *)
Definition py_assert (cond : bool) (msg : string) : result unit :=
  if cond then Ok tt else Raise (AssertionError msg).

(** ** Tensors

    [shape] is [x.shape]; [data] gives the entry at a multi-index.  Entries
    outside the shape are never read by the operations below. *)

Record Tensor (A : Type) : Type := mkTensor {
  shape : list Z;
  data : list Z → A
}.

Arguments mkTensor {A} shape data.
Arguments shape {A} t.
Arguments data {A} t idx.

Definition numel (s : list Z) : Z := foldr Z.mul 1 s.

Definition in_range (s idx : list Z) : Prop :=
  Forall2 (fun d i => 0 ≤ i < d) s idx.

(** Two tensors are equal when they have the same shape and the same
    entries inside it. *)
Definition tensor_eq {A} (a b : Tensor A) : Prop :=
  shape a = shape b ∧ ∀ idx, in_range (shape a) idx → data a idx = data b idx.

(** Row-major offset of a multi-index, and its inverse. *)
Fixpoint ravel (s idx : list Z) : Z :=
  match s, idx with
  | _ :: s', i :: idx' => i * numel s' + ravel s' idx'
  | _, _ => 0
  end.

Fixpoint unravel (s : list Z) (off : Z) : list Z :=
  match s with
  | [] => []
  | _ :: s' => off `div` numel s' :: unravel s' (off `mod` numel s')
  end.

(** [x.reshape(shape=...)]: one dimension may be [-1] and is then inferred;
    the number of elements has to agree. *)
Definition infer_shape (n : Z) (s : list Z) : result (list Z) :=
  let known := numel (filter (fun d => d ≠ -1) s) in
  match length (filter (fun d => d = -1) s) with
  | O =>
      if forallb (fun d => 0 <=? d) s && (numel s =? n) then Ok s
      else Raise (RuntimeError "shape is invalid for input size")
  | S O =>
      if forallb (fun d => -1 <=? d) s && negb (known =? 0)
         && (n `mod` known =? 0)
      then Ok ((fun d => if d =? -1 then n `div` known else d) <$> s)
      else Raise (RuntimeError "shape is invalid for input size")
  | _ => Raise (RuntimeError "only one dimension can be inferred")
  end.

Definition reshape {A} (x : Tensor A) (s : list Z) : result (Tensor A) :=
  s' ← infer_shape (numel (shape x)) s;
  Ok (mkTensor s' (fun idx => data x (unravel (shape x) (ravel s' idx)))).

(** [torch.einsum('nhwpqc->nchpwq', x)]: a permutation of six axes. *)
Definition einsum_nhwpqc_nchpwq {A} (x : Tensor A) : result (Tensor A) :=
  match shape x with
  | [n; h; w; p; q; c] =>
      Ok (mkTensor [n; c; h; p; w; q]
            (fun idx =>
               match idx with
               | [n'; c'; h'; p'; w'; q'] => data x [n'; h'; w'; p'; q'; c']
               | _ => data x idx
               end))
  | _ => Raise (RuntimeError "einsum: operand has the wrong number of dimensions")
  end.

(** Broadcasting of two shapes, aligned at the last dimension. *)
Fixpoint broadcast_rev (a b : list Z) : option (list Z) :=
  match a, b with
  | [], _ => Some b
  | _, [] => Some a
  | x :: a', y :: b' =>
      if x =? y then cons x <$> broadcast_rev a' b'
      else if x =? 1 then cons y <$> broadcast_rev a' b'
      else if y =? 1 then cons x <$> broadcast_rev a' b'
      else None
  end.

Definition broadcast_shapes (a b : list Z) : option (list Z) :=
  reverse <$> broadcast_rev (reverse a) (reverse b).

(** The index read from an operand of shape [s] for the result index
    [idx]: leading result dimensions are dropped and dimensions of size one
    are read at zero. *)
Definition broadcast_index (s idx : list Z) : list Z :=
  zip_with (fun d i => if d =? 1 then 0 else i) s
           (drop (length idx - length s)%nat idx).

Definition tensor_binop {A} (f : A → A → A) (a b : Tensor A) : result (Tensor A) :=
  match broadcast_shapes (shape a) (shape b) with
  | Some s =>
      Ok (mkTensor s (fun idx =>
            f (data a (broadcast_index (shape a) idx))
              (data b (broadcast_index (shape b) idx))))
  | None => Raise (RuntimeError "the sizes of the tensors must match")
  end.

Definition tensor_map {A} (f : A → A) (a : Tensor A) : Tensor A :=
  mkTensor (shape a) (fun idx => f (data a idx)).

(** [torch.cat([a, b], dim=d)] for [d] inside the rank: all other
    dimensions have to agree. *)
Definition shift_index (d : nat) (k : Z) (idx : list Z) : list Z :=
  alter (fun i => i + k) d idx.

Definition torch_cat {A} (d : nat) (a b : Tensor A) : result (Tensor A) :=
  match shape a !! d, shape b !! d with
  | Some na, Some nb =>
      if bool_decide (<[d := 0]> (shape a) = <[d := 0]> (shape b)) then
        Ok (mkTensor (<[d := na + nb]> (shape a))
              (fun idx =>
                 match idx !! d with
                 | Some i => if i <? na then data a idx
                             else data b (shift_index d (- na) idx)
                 | None => data a idx
                 end))
      else Raise (RuntimeError "sizes of tensors must match except in the cat dimension")
  | _, _ => Raise (IndexError "dimension out of range")
  end.

(** Basic slicing [x[:, lo:hi]] and [x[:, lo:]] on dimension 1, bounds
    clipped as Python does for non-negative bounds. *)
Definition narrow {A} (d : nat) (lo len : Z) (x : Tensor A) : Tensor A :=
  mkTensor (<[d := len]> (shape x)) (fun idx => data x (shift_index d lo idx)).

Definition slice_dim1_to {A} (hi : Z) (x : Tensor A) : result (Tensor A) :=
  match shape x !! 1%nat with
  | Some c => Ok (narrow 1 0 (Z.min hi c) x)
  | None => Raise (IndexError "too many indices for tensor")
  end.

Definition slice_dim1_from {A} (lo : Z) (x : Tensor A) : result (Tensor A) :=
  match shape x !! 1%nat with
  | Some c => Ok (narrow 1 (Z.min lo c) (c - Z.min lo c) x)
  | None => Raise (IndexError "too many indices for tensor")
  end.

(** [x.shape[0]]. *)
Definition tensor_size0 {A} (x : Tensor A) : result Z :=
  match shape x with
  | n :: _ => Ok n
  | [] => Raise (IndexError "tuple index out of range")
  end.

(** [len(x)]. *)
Definition tensor_len {A} (x : Tensor A) : result Z :=
  match shape x with
  | n :: _ => Ok n
  | [] => Raise (TypeError "len() of a 0-d tensor")
  end.

(** [torch.split(x, k, dim=0)]: consecutive chunks of [k] rows, the last
    one possibly shorter; [k = 0] is accepted for an empty dimension only
    and gives one chunk. *)
Definition torch_split0 {A} (x : Tensor A) (k : Z) : result (list (Tensor A)) :=
  match shape x with
  | n :: _ =>
      if k <? 0 then Raise (RuntimeError "split expects split_size be non-negative")
      else if k =? 0 then
        if n =? 0 then Ok [x]
        else Raise (RuntimeError "split_size can only be 0 if dimension size is 0")
      else
        let chunks := Z.max ((n + k - 1) `div` k) 1 in
        Ok ((fun j => narrow 0 (j * k) (Z.min k (n - j * k)) x) <$> seqZ 0 chunks)
  | [] => Raise (RuntimeError "split expects at least a 1-dimensional tensor")
  end.

(** [a, b = values]. *)
Definition unpack2 {A} (l : list A) : result (A * A) :=
  match l with
  | [a; b] => Ok (a, b)
  | [] | [_] => Raise (ValueError "not enough values to unpack")
  | _ => Raise (ValueError "too many values to unpack")
  end.

(** [torch.full((n,), v)]. *)
Definition torch_full1 {A} (n : Z) (v : A) : Tensor A :=
  mkTensor [n] (fun _ => v).

(** ** Modules under construction

    Constructing a layer draws fresh parameters.  A constructor is therefore
    a computation over a counter of parameter sets that may raise; the
    number a layer receives identifies its weights. *)

Definition ctor (A : Type) : Type := nat → result (A * nat).

#[global] Instance ctor_ret : MRet ctor := fun A a n => Ok (a, n).

#[global] Instance ctor_bind : MBind ctor := fun A B f m n =>
  match m n with
  | Ok (a, n') => f a n'
  | Raise e => Raise e
  end.

#[global] Instance ctor_fmap : FMap ctor := fun A B f m n =>
  match m n with
  | Ok (a, n') => Ok (f a, n')
  | Raise e => Raise e
  end.

Definition lift {A} (r : result A) : ctor A := fun n =>
  match r with
  | Ok a => Ok (a, n)
  | Raise e => Raise e
  end.

Definition fresh_weights : ctor nat := fun n => Ok (n, S n).

(** [[f() for _ in range(n)]]. *)
Fixpoint repeat_ctor {A} (n : nat) (m : ctor A) : ctor (list A) :=
  match n with
  | O => mret []
  | S n' => a ← m; l ← repeat_ctor n' m; mret (a :: l)
  end.

(** ** Layers of PyTorch and timm

    A layer is its hyperparameters and the number of its parameter set. *)

Record Conv2d : Type := mkConv2d {
  conv_in_channels : Z;
  conv_out_channels : Z;
  conv_kernel_size : Z;
  conv_stride : Z;
  conv_padding : Z;
  conv_weights : nat
}.

Record ConvTranspose2d : Type := mkConvTranspose2d {
  convT_in_channels : Z;
  convT_out_channels : Z;
  convT_kernel_size : Z;
  convT_stride : Z;
  convT_padding : Z;
  convT_weights : nat
}.

Record GroupNorm : Type := mkGroupNorm {
  gn_num_groups : Z;
  gn_num_channels : Z;
  gn_weights : nat
}.

(** [timm.layers.PatchEmbed]: [proj] is the convolution of kernel and
    stride [patch_size]. *)
Record PatchEmbed : Type := mkPatchEmbed {
  pe_img_size : Z;
  pe_patch_size : Z;
  pe_num_patches : Z;
  pe_proj : Conv2d
}.

(** ** Collaborators defined elsewhere in the repository *)

(** Modelled from the spec: [DiffTBlock] of the repository's [diffit]
    module, the Conditioned Token Mixer, "an opaque transformer operator
    that mixes patch tokens using a shared conditioning vector". *)
Record DiffTBlock : Type := mkDiffTBlock {
  dt_hidden_size : Z;
  dt_num_heads : Z;
  dt_weights : nat
}.

(** Modelled from the spec: [FinalLayer] of the repository's [diffit]
    module, the Output Projection Layer, which "maps mixed tokens back to
    per-patch pixel values". *)
Record FinalLayer : Type := mkFinalLayer {
  fl_hidden_size : Z;
  fl_patch_size : Z;
  fl_out_channels : Z;
  fl_weights : nat
}.

(** Modelled from the spec: [TimestepEmbedder] of the repository's [diffit]
    module, which "maps a scalar step to a fixed-size vector". *)
Record TimestepEmbedder : Type := mkTimestepEmbedder {
  te_hidden_size : Z;
  te_weights : nat
}.

(** Modelled from the spec: [LabelEmbedder] of the repository's
    [utils.embedders] module, which "maps a class index, with optional
    dropout to a no-class token, to a fixed-size vector".  [le_training] is
    the training flag of the module. *)
Record LabelEmbedder : Type := mkLabelEmbedder {
  le_num_classes : Z;
  le_hidden_size : Z;
  le_dropout_prob : Q;
  le_training : bool;
  le_weights : nat
}.

(** ** The classes of [image_diffit.py] *)

Record Tokenizer : Type := mkTokenizer {
  tok_conv2d : Conv2d
}.

Record Head : Type := mkHead {
  head_groupNorm : GroupNorm;
  head_conv2d : Conv2d
}.

(** The attributes [__init__] assigns; [swish] has no parameter, and
    [pos_embed] is determined by [num_patches] and the hidden size. *)
Record DiffiTResBlock : Type := mkDiffiTResBlock {
  channels : Z;
  groupNorm : GroupNorm;
  conv2d : Conv2d;
  diffit : DiffTBlock;
  x_embedder : PatchEmbed;
  patch_size : Z;
  num_patches : Z;
  pos_embed_hidden : Z;
  final : FinalLayer
}.

Record DiffiTSequential : Type := mkDiffiTSequential {
  blocks : list DiffiTResBlock
}.

(** Python values that reach a constructor argument or an attribute of an
    [ImageDiffiT] instance. *)
Inductive pyval : Type :=
| VInt (z : Z)
| VTokenizer (m : Tokenizer)
| VHead (m : Head)
| VResBlock (m : DiffiTResBlock)
| VSequential (m : DiffiTSequential)
| VConv2d (m : Conv2d)
| VConvTranspose2d (m : ConvTranspose2d)
| VTimestepEmbedder (m : TimestepEmbedder)
| VLabelEmbedder (m : LabelEmbedder).

Definition as_int (v : pyval) : result Z :=
  match v with
  | VInt z => Ok z
  | _ => Raise (TypeError "an integer is required")
  end.

(** [a % b] and [a // b]: defined on integers, the sign of the result
    follows the divisor, and a zero divisor raises. *)
Definition py_mod (a b : pyval) : result Z :=
  match a, b with
  | VInt x, VInt y => if y =? 0 then Raise ZeroDivisionError else Ok (x `mod` y)
  | _, _ => Raise (TypeError "unsupported operand type(s) for %")
  end.

Definition py_floordiv (a b : pyval) : result Z :=
  match a, b with
  | VInt x, VInt y => if y =? 0 then Raise ZeroDivisionError else Ok (x `div` y)
  | _, _ => Raise (TypeError "unsupported operand type(s) for //")
  end.

(** *** Library constructors *)

(** [nn.Conv2d(in_channels, out_channels, kernel_size, stride, padding)]
    allocates a weight of shape (out, in, k, k). *)
Definition Conv2d_init (cin cout k s p : Z) : ctor Conv2d :=
  if (cin <? 0) || (cout <? 0) || (k <? 0)
  then lift (Raise (RuntimeError "Trying to create tensor with negative dimension"))
  else w ← fresh_weights; mret (mkConv2d cin cout k s p w).

(** [nn.ConvTranspose2d(in_channels, out_channels, kernel_size, stride,
    padding)]. *)
Definition ConvTranspose2d_init (cin cout k s p : Z) : ctor ConvTranspose2d :=
  if (cin <? 0) || (cout <? 0) || (k <? 0)
  then lift (Raise (RuntimeError "Trying to create tensor with negative dimension"))
  else w ← fresh_weights; mret (mkConvTranspose2d cin cout k s p w).

(** [nn.GroupNorm(num_groups, num_channels)] checks the divisibility
    itself. *)
Definition GroupNorm_init (num_groups num_channels : Z) : ctor GroupNorm :=
  if num_groups =? 0 then lift (Raise ZeroDivisionError)
  else if negb (num_channels `mod` num_groups =? 0)
  then lift (Raise (ValueError "num_channels must be divisible by num_groups"))
  else if num_channels <? 0
  then lift (Raise (RuntimeError "Trying to create tensor with negative dimension"))
  else w ← fresh_weights; mret (mkGroupNorm num_groups num_channels w).

(** [timm.layers.PatchEmbed(img_size, patch_size, in_chans, embed_dim,
    bias=True)]: the grid has [img_size // patch_size] patches a side and
    the projection is a convolution of kernel and stride [patch_size]. *)
Definition PatchEmbed_init (img_size patch_size : pyval) (in_chans embed_dim : Z)
  : ctor PatchEmbed :=
  grid ← lift (py_floordiv img_size patch_size);
  img ← lift (as_int img_size);
  p ← lift (as_int patch_size);
  proj ← Conv2d_init in_chans embed_dim p p 0;
  mret (mkPatchEmbed img p (grid * grid) proj).

(** *** Constructors of the collaborators *)

(** Modelled from the spec: [DiffTBlock] of the repository's [diffit]
    module, the Conditioned Token Mixer; the spec gives its construction no
    failure of its own. *)
Definition DiffTBlock_init (hidden_size num_heads : Z) : ctor DiffTBlock :=
  w ← fresh_weights; mret (mkDiffTBlock hidden_size num_heads w).

(** Modelled from the spec: [FinalLayer] of the repository's [diffit]
    module, the Output Projection Layer. *)
Definition FinalLayer_init (hidden_size patch_size out_channels : Z) : ctor FinalLayer :=
  w ← fresh_weights; mret (mkFinalLayer hidden_size patch_size out_channels w).

(** Modelled from the spec: [TimestepEmbedder] of the repository's [diffit]
    module. *)
Definition TimestepEmbedder_init (hidden_size : Z) : ctor TimestepEmbedder :=
  w ← fresh_weights; mret (mkTimestepEmbedder hidden_size w).

(** Modelled from the spec: [LabelEmbedder] of the repository's
    [utils.embedders] module.  A module is in training mode when it has
    just been built. *)
Definition LabelEmbedder_init (num_classes hidden_size : Z) (dropout_prob : Q)
  : ctor LabelEmbedder :=
  w ← fresh_weights; mret (mkLabelEmbedder num_classes hidden_size dropout_prob true w).

(** ** Calling a constructor

    Python binds positional arguments in order, keyword arguments by name,
    and falls back on the defaults of the signature. *)

Definition bind_arg (pos : nat) (name : string) (default : option pyval)
    (args : list pyval) (kwargs : gmap string pyval) : result pyval :=
  match args !! pos, kwargs !! name with
  | Some _, Some _ => Raise (TypeError "got multiple values for argument")
  | Some v, None => Ok v
  | None, Some v => Ok v
  | None, None =>
      match default with
      | Some v => Ok v
      | None => Raise (TypeError "missing a required positional argument")
      end
  end.

Definition check_call (names : list string) (args : list pyval)
    (kwargs : gmap string pyval) : result unit :=
  if (length names <? length args)%nat
  then Raise (TypeError "too many positional arguments")
  else if forallb (fun kv => bool_decide (kv.1 ∈ names)) (map_to_list kwargs)
  then Ok tt
  else Raise (TypeError "got an unexpected keyword argument").

(** ** [Tokenizer.__init__] and [Head.__init__] *)

Definition Tokenizer_init (in_channels out_channels : Z) : ctor Tokenizer :=
  cv ← Conv2d_init in_channels out_channels 3 1 1;
  mret (mkTokenizer cv).

Definition Head_init (in_channels out_channels num_groups : Z) : ctor Head :=
  r ← lift (py_mod (VInt in_channels) (VInt num_groups));
  _ ← lift (py_assert (r =? 0) "in_channels must be divisible by num_groups");
  gn ← GroupNorm_init num_groups in_channels;
  cv ← Conv2d_init in_channels out_channels 3 1 1;
  mret (mkHead gn cv).

(** [Head()]: every parameter takes its default. *)
Definition Head_default : ctor Head := Head_init 128 3 8.

(** ** [DiffiTResBlock.__init__] *)

(** [initialize_weights]: the linear layers and the patch projection are
    filled with fresh values and the positional table with the sinusoidal
    one, of the same shape.  The step that can raise is the view of the
    projection weight, of shape (hidden_size, channels, p, p), as a matrix
    with [w.shape[0]] rows: [w.view([w.shape[0], -1])]. *)
Definition DiffiTResBlock_initialize_weights (x_embedder : PatchEmbed) : result unit :=
  let w := pe_proj x_embedder in
  let w_shape := [conv_out_channels w; conv_in_channels w;
                  conv_kernel_size w; conv_kernel_size w] in
  _ ← infer_shape (numel w_shape) [conv_out_channels w; -1];
  Ok tt.

(** [__init__], statement by statement.  Sizes are unbounded integers, as
    Python's are; the limit that PyTorch puts on the number of entries of a
    tensor (a 64-bit count) is not part of the model. *)
Definition DiffiTResBlock_init
    (img_size num_heads patch_size hidden_size channels num_groups : pyval)
  : ctor DiffiTResBlock :=
  r1 ← lift (py_mod hidden_size num_heads);
  _ ← lift (py_assert (r1 =? 0) "hidden_size must be divisible by num_heads");
  r2 ← lift (py_mod channels num_groups);
  _ ← lift (py_assert (r2 =? 0) "patch_size must be divisible by num_groups");
  hs ← lift (as_int hidden_size);
  nh ← lift (as_int num_heads);
  ch ← lift (as_int channels);
  ng ← lift (as_int num_groups);
  gn ← GroupNorm_init ng ch;
  cv ← Conv2d_init ch ch 3 1 1;
  dt ← DiffTBlock_init hs nh;
  pe ← PatchEmbed_init img_size patch_size ch hs;
  fl ← FinalLayer_init hs (pe_patch_size pe) ch;
  _ ← lift (DiffiTResBlock_initialize_weights pe);
  mret (mkDiffiTResBlock ch gn cv dt pe (pe_patch_size pe) (pe_num_patches pe) hs fl).

(** A call of [DiffiTResBlock] with positional arguments [args] and keyword
    arguments [kwargs], against the signature
    [(img_size, num_heads=16, patch_size=2, hidden_size=1152, channels=128,
    num_groups=8)]. *)
Definition DiffiTResBlock_params : list string :=
  ["img_size"; "num_heads"; "patch_size"; "hidden_size"; "channels"; "num_groups"]%string.

Definition DiffiTResBlock_new (args : list pyval) (kwargs : gmap string pyval)
  : ctor DiffiTResBlock :=
  _ ← lift (check_call DiffiTResBlock_params args kwargs);
  img_size ← lift (bind_arg 0 "img_size" None args kwargs);
  num_heads ← lift (bind_arg 1 "num_heads" (Some (VInt 16)) args kwargs);
  patch_size ← lift (bind_arg 2 "patch_size" (Some (VInt 2)) args kwargs);
  hidden_size ← lift (bind_arg 3 "hidden_size" (Some (VInt 1152)) args kwargs);
  channels ← lift (bind_arg 4 "channels" (Some (VInt 128)) args kwargs);
  num_groups ← lift (bind_arg 5 "num_groups" (Some (VInt 8)) args kwargs);
  DiffiTResBlock_init img_size num_heads patch_size hidden_size channels num_groups.

(** ** [DiffiTSequential]

    [__init__(self, *blocks)] stores the blocks it is given, in order; the
    docstring types them as [DiffiTResBlock]s. *)

Definition DiffiTSequential_init (bs : list DiffiTResBlock) : DiffiTSequential :=
  mkDiffiTSequential bs.

(** [all_equals(n, **kwargs)] as the source has it: the [n] blocks are
    built, then handed as positional arguments to [DiffiTResBlock]. *)
Definition all_equals (n : Z) (kwargs : gmap string pyval) : ctor DiffiTResBlock :=
  bs ← repeat_ctor (Z.to_nat n) (DiffiTResBlock_new [] kwargs);
  DiffiTResBlock_new (VResBlock <$> bs) ∅.

(** [all_equals] as its docstring describes it: "Returns an instance of
    DiffiTSequential having n blocks with same input parameters". *)
Definition all_equals_documented (n : Z) (kwargs : gmap string pyval)
  : ctor DiffiTSequential :=
  bs ← repeat_ctor (Z.to_nat n) (DiffiTResBlock_new [] kwargs);
  mret (DiffiTSequential_init bs).

(** ** [ImageDiffiT.__init__] *)

Record ImageDiffiT_args : Type := mkArgs {
  arg_img_size : Z;
  arg_l1 : Z;
  arg_l2 : Z;
  arg_l3 : Z;
  arg_l4 : Z;
  arg_patch_size : Z;
  arg_num_classes : Z;
  arg_class_dropout_prob : Q;
  arg_hidden_size : Z;
  arg_channels : Z;
  arg_hidden_channels : Z;
  arg_num_heads : Z;
  arg_num_groups : Z
}.

(** [ImageDiffiT(img_size)]: the defaults of the signature. *)
Definition default_args (img_size : Z) : ImageDiffiT_args :=
  mkArgs img_size 4 4 4 4 2 1000 (1 # 10) 1152 3 128 16 8.

Definition get_block_params (a : ImageDiffiT_args) (block_groups block_img_size : Z)
  : gmap string pyval :=
  <["num_heads" := VInt (arg_num_heads a)]>
  (<["patch_size" := VInt (arg_patch_size a)]>
  (<["img_size" := VInt block_img_size]>
  (<["hidden_size" := VInt (arg_hidden_size a)]>
  (<["channels" := VInt (arg_hidden_channels a)]>
  (<["num_groups" := VInt block_groups]> ∅))))).

Section init.
(** The stack factory is [DiffiTSequential.all_equals]; the constructor is
    written over it so that the factory of the source and the factory of
    the docstring can both be put in its place. *)
Variable factory : Z → gmap string pyval → ctor pyval.

Definition ImageDiffiT_init_with (a : ImageDiffiT_args) : ctor (gmap string pyval) :=
  let hc := arg_hidden_channels a in
  let img := arg_img_size a in
  let ng := arg_num_groups a in
  r1 ← lift (py_mod (VInt (arg_hidden_size a)) (VInt (arg_num_heads a)));
  _ ← lift (py_assert (r1 =? 0) "hidden_size must be divisible by num_heads");
  r2 ← lift (py_mod (VInt hc) (VInt ng));
  _ ← lift (py_assert (r2 =? 0) "hidden_channels must be divisible by num_groups");
  let self : gmap string pyval := <["num_classes" := VInt (arg_num_classes a)]> ∅ in
  tok ← Tokenizer_init (arg_channels a) hc;
  let self := <["tokenizer" := VTokenizer tok]> self in
  te ← TimestepEmbedder_init (arg_hidden_size a);
  let self := <["t_embedder" := VTimestepEmbedder te]> self in
  le ← LabelEmbedder_init (arg_num_classes a) (arg_hidden_size a)
         (arg_class_dropout_prob a);
  let self := <["y_embedder" := VLabelEmbedder le]> self in
  s ← factory (arg_l1 a) (get_block_params a 1 img);
  let self := <["resBlock1" := s]> self in
  d ← Conv2d_init hc hc 3 2 1;
  let self := <["downsample_1" := VConv2d d]> self in
  s ← factory (arg_l2 a) (get_block_params a ng (img `div` 2));
  let self := <["resBlock2" := s]> self in
  d ← Conv2d_init hc hc 3 2 1;
  let self := <["downsample_2" := VConv2d d]> self in
  s ← factory (arg_l3 a) (get_block_params a ng (img `div` 4));
  let self := <["resBlock2" := s]> self in
  d ← Conv2d_init hc hc 3 2 1;
  let self := <["downsample_3" := VConv2d d]> self in
  s ← factory (arg_l4 a) (get_block_params a ng (img `div` 8));
  let self := <["resBlock2" := s]> self in
  u ← ConvTranspose2d_init hc hc 4 2 1;
  let self := <["upsample_1" := VConvTranspose2d u]> self in
  s ← factory (arg_l3 a) (get_block_params a ng (img `div` 4));
  let self := <["resBlock3up" := s]> self in
  u ← ConvTranspose2d_init hc hc 4 2 1;
  let self := <["upsample_2" := VConvTranspose2d u]> self in
  s ← factory (arg_l2 a) (get_block_params a ng (img `div` 2));
  let self := <["resBlock2up" := s]> self in
  u ← ConvTranspose2d_init hc hc 4 2 1;
  let self := <["upsample_3" := VConvTranspose2d u]> self in
  s ← factory (arg_l1 a) (get_block_params a 1 img);
  let self := <["resBlock1Up" := s]> self in
  h ← Head_default;
  let self := <["head" := VHead h]> self in
  (* initialize_weights() fills the linear layers and the two embedders;
     the spec gives the embedders no failure of their own *)
  mret self.
End init.

(** The constructor of the source. *)
Definition ImageDiffiT_init : ImageDiffiT_args → ctor (gmap string pyval) :=
  ImageDiffiT_init_with (fun n kwargs => VResBlock <$> all_equals n kwargs).

(** The constructor with the factory of the docstring. *)
Definition ImageDiffiT_init_documented : ImageDiffiT_args → ctor (gmap string pyval) :=
  ImageDiffiT_init_with (fun n kwargs => VSequential <$> all_equals_documented n kwargs).

(** ** The numeric backend

    The values computed by the library layers and by the collaborators, as
    functions of the layer (hence of its weights) and of its input.  The
    arithmetic of tensor entries is part of the backend too. *)

Class Backend (R : Type) : Type := {
  radd : R → R → R;
  rsub : R → R → R;
  rmul : R → R → R;
  silu_kernel : R → R;
  conv2d_kernel : Conv2d → Tensor R → list Z → R;
  conv_transpose2d_kernel : ConvTranspose2d → Tensor R → list Z → R;
  group_norm_kernel : GroupNorm → Tensor R → list Z → R;
  diffit_kernel : DiffTBlock → Tensor R → Tensor R → list Z → R;
  final_kernel : FinalLayer → Tensor R → list Z → R;
  sincos_pos_embed : Z → Z → list Z → R;
  timestep_kernel : TimestepEmbedder → Tensor Z → list Z → R;
  label_kernel : LabelEmbedder → Tensor Z → list Z → R
}.

(** The state of the random number generator: the uniform draw made for
    each position of a batch. *)
Definition rng : Type := Z → Q.

Section forward.
Context {R : Type} `{Backend R}.

Definition tensor_add : Tensor R → Tensor R → result (Tensor R) := tensor_binop radd.
Definition tensor_sub : Tensor R → Tensor R → result (Tensor R) := tensor_binop rsub.
(** [scalar * tensor]. *)
Definition tensor_scale (w : R) : Tensor R → Tensor R := tensor_map (rmul w).

(** *** Library layers *)

Definition conv_out_size (size k s p : Z) : Z := (size + 2 * p - k) `div` s + 1.

(** [nn.Conv2d.forward] on a batched or an unbatched input, for a layer
    with at least one channel.  A layer built with no channel is rejected by
    PyTorch when it is called; that check is not part of the model, and the
    theorems that conclude that a convolution returns assume positive
    channel counts. *)
Definition Conv2d_forward (m : Conv2d) (x : Tensor R) : result (Tensor R) :=
  let k := conv_kernel_size m in
  let s := conv_stride m in
  let p := conv_padding m in
  let check (c h w : Z) : result unit :=
    if negb (c =? conv_in_channels m)
    then Raise (RuntimeError "input has the wrong number of channels")
    else if (s <=? 0) || (p <? 0) || (k <=? 0)
    then Raise (RuntimeError "non-positive stride or kernel, or negative padding")
    else if (h + 2 * p <? k) || (w + 2 * p <? k)
    then Raise (RuntimeError "Kernel size can't be greater than actual input size")
    else Ok tt in
  match shape x with
  | [n; c; h; w] =>
      _ ← check c h w;
      Ok (mkTensor [n; conv_out_channels m; conv_out_size h k s p; conv_out_size w k s p]
            (conv2d_kernel m x))
  | [c; h; w] =>
      _ ← check c h w;
      Ok (mkTensor [conv_out_channels m; conv_out_size h k s p; conv_out_size w k s p]
            (conv2d_kernel m x))
  | _ => Raise (RuntimeError "Expected 3D (unbatched) or 4D (batched) input to conv2d")
  end.

Definition convT_out_size (size k s p : Z) : Z := (size - 1) * s - 2 * p + k.

(** [nn.ConvTranspose2d.forward]. *)
Definition ConvTranspose2d_forward (m : ConvTranspose2d) (x : Tensor R)
  : result (Tensor R) :=
  let k := convT_kernel_size m in
  let s := convT_stride m in
  let p := convT_padding m in
  let check (c h w : Z) : result unit :=
    if negb (c =? convT_in_channels m)
    then Raise (RuntimeError "input has the wrong number of channels")
    else if (s <=? 0) || (p <? 0) || (k <=? 0)
    then Raise (RuntimeError "non-positive stride or kernel, or negative padding")
    else if (h <=? 0) || (w <=? 0)
            || (convT_out_size h k s p <=? 0) || (convT_out_size w k s p <=? 0)
    then Raise (RuntimeError "the input or the output size is too small")
    else Ok tt in
  match shape x with
  | [n; c; h; w] =>
      _ ← check c h w;
      Ok (mkTensor [n; convT_out_channels m; convT_out_size h k s p; convT_out_size w k s p]
            (conv_transpose2d_kernel m x))
  | [c; h; w] =>
      _ ← check c h w;
      Ok (mkTensor [convT_out_channels m; convT_out_size h k s p; convT_out_size w k s p]
            (conv_transpose2d_kernel m x))
  | _ => Raise (RuntimeError "Expected 3D (unbatched) or 4D (batched) input to conv_transpose2d")
  end.

(** [torch.nn.functional._verify_batch_size]: the product of the entries
    of [size] other than the second must not be one. *)
Definition verify_batch_size (size : list Z) : result unit :=
  match size with
  | s0 :: _ :: rest =>
      if numel (s0 :: rest) =? 1
      then Raise (ValueError "Expected more than 1 value per channel when training")
      else Ok tt
  | _ => Ok tt
  end.

(** [nn.GroupNorm.forward], that is [torch.nn.functional.group_norm]: a
    group has to hold more than one value, which is checked on
    [[N * C // num_groups, num_groups, *spatial]]; the second dimension is
    the channel dimension and has to be the one the layer was built for.
    The number of groups is taken positive: the constructor excludes zero,
    and the rejection of a negative one by PyTorch is not part of the
    model. *)
Definition GroupNorm_forward (m : GroupNorm) (x : Tensor R) : result (Tensor R) :=
  match shape x with
  | n :: c :: rest =>
      q ← py_floordiv (VInt (n * c)) (VInt (gn_num_groups m));
      _ ← verify_batch_size (q :: gn_num_groups m :: rest);
      if c =? gn_num_channels m
      then Ok (mkTensor (shape x) (group_norm_kernel m x))
      else Raise (RuntimeError "Expected weight to be a vector of size equal to the number of channels in input")
  | _ => Raise (RuntimeError "Expected at least 2 dimensions for input tensor")
  end.

(** [nn.SiLU.forward]. *)
Definition SiLU_forward (x : Tensor R) : Tensor R := tensor_map silu_kernel x.

(** [timm.layers.PatchEmbed.forward]: the input size is checked against
    [img_size], the projection is applied, and the grid is flattened into
    the token dimension ([flatten(2).transpose(1, 2)]). *)
Definition PatchEmbed_forward (m : PatchEmbed) (x : Tensor R) : result (Tensor R) :=
  match shape x with
  | [_; _; h; w] =>
      _ ← py_assert (h =? pe_img_size m) "Input height doesn't match model";
      _ ← py_assert (w =? pe_img_size m) "Input width doesn't match model";
      y ← Conv2d_forward (pe_proj m) x;
      match shape y with
      | [n; e; gh; gw] =>
          Ok (mkTensor [n; gh * gw; e]
                (fun idx =>
                   match idx with
                   | [b; t; j] => data y [b; j; t `div` gw; t `mod` gw]
                   | _ => data y idx
                   end))
      | _ => Raise (RuntimeError "flatten: dimension out of range")
      end
  | _ => Raise (ValueError "not enough or too many values to unpack (expected 4)")
  end.

(** *** Collaborators *)

(** Modelled from the spec: the Conditioned Token Mixer, "function
    (tokens (batch, num_patches, hidden_size), c (batch, hidden_size)) →
    tokens (same shape)"; any other pair of shapes is a shape mismatch. *)
Definition DiffTBlock_forward (m : DiffTBlock) (x c : Tensor R) : result (Tensor R) :=
  match shape x, shape c with
  | [n; t; h], [n'; h'] =>
      if (n =? n') && (h =? dt_hidden_size m) && (h' =? dt_hidden_size m)
      then Ok (mkTensor [n; t; h] (diffit_kernel m x c))
      else Raise (RuntimeError "shape mismatch in the token mixer")
  | _, _ => Raise (RuntimeError "shape mismatch in the token mixer")
  end.

(** Modelled from the spec: the Output Projection Layer, which maps
    mixed tokens to "per-patch pixel values of shape (batch, num_patches,
    p²·channels)". *)
Definition FinalLayer_forward (m : FinalLayer) (x : Tensor R) : result (Tensor R) :=
  match shape x with
  | [n; t; h] =>
      if h =? fl_hidden_size m
      then Ok (mkTensor [n; t; fl_patch_size m * fl_patch_size m * fl_out_channels m]
                 (final_kernel m x))
      else Raise (RuntimeError "shape mismatch in the output projection")
  | _ => Raise (RuntimeError "shape mismatch in the output projection")
  end.

(** Modelled from the spec: the Timestep Embedder, "function t (batch,)
    → vector (batch, hidden_size), deterministic given its internal
    weights". *)
Definition TimestepEmbedder_forward (m : TimestepEmbedder) (t : Tensor Z)
  : result (Tensor R) :=
  match shape t with
  | [n] => Ok (mkTensor [n; te_hidden_size m] (timestep_kernel m t))
  | _ => Raise (RuntimeError "shape mismatch in the timestep embedder")
  end.

(** Modelled from the spec: the Label Embedder, "function (y (batch,)
    int, training_flag) → vector (batch, hidden_size); during training may
    stochastically remap entries of y to the Null Label Token according to
    a configured dropout probability".  A label outside [0, num_classes]
    is the spec's ValueDomainError. *)
Definition dropout_active (m : LabelEmbedder) : bool :=
  le_training m && negb (Qle_bool (le_dropout_prob m) 0).

Definition token_drop (m : LabelEmbedder) (g : rng) (y : Tensor Z) : Tensor Z :=
  mkTensor (shape y)
    (fun idx =>
       match idx with
       | [i] => if negb (Qle_bool (le_dropout_prob m) (g i))
                then le_num_classes m else data y idx
       | _ => data y idx
       end).

Definition LabelEmbedder_forward (m : LabelEmbedder) (g : rng) (y : Tensor Z)
  : result (Tensor R) :=
  match shape y with
  | [n] =>
      let labels := if dropout_active m then token_drop m g y else y in
      if forallb (fun i => (0 <=? data labels [i]) && (data labels [i] <=? le_num_classes m))
                 (seqZ 0 n)
      then Ok (mkTensor [n; le_hidden_size m] (label_kernel m labels))
      else Raise (IndexError "label outside [0, num_classes]")
  | _ => Raise (RuntimeError "shape mismatch in the label embedder")
  end.

(** *** [Tokenizer.forward] and [Head.forward] *)

Definition Tokenizer_forward (m : Tokenizer) (x : Tensor R) : result (Tensor R) :=
  Conv2d_forward (tok_conv2d m) x.

Definition Head_forward (m : Head) (x : Tensor R) : result (Tensor R) :=
  x ← GroupNorm_forward (head_groupNorm m) x;
  Conv2d_forward (head_conv2d m) x.

(** *** [DiffiTResBlock] *)

(** The frozen positional table, filled at construction by
    [get_2d_sincos_pos_embed(hidden_size, int(num_patches ** 0.5))].

    Modelled from the spec: the Sinusoidal Position Table Generator, a
    "pure function (hidden_size, grid_side) → array (grid_side²,
    hidden_size)"; its values are the backend's. *)
Definition pos_embed (b : DiffiTResBlock) : Tensor R :=
  mkTensor [1; num_patches b; pos_embed_hidden b]
    (fun idx => sincos_pos_embed (pos_embed_hidden b) (Z.sqrt (num_patches b)) (tail idx)).

(** [unpatchify]: [int(x.shape[1] ** 0.5)] is the integer square root (the
    float square root is exact on the sizes a tensor can have). *)
Definition unpatchify (self : DiffiTResBlock) (x : Tensor R) : result (Tensor R) :=
  let c := channels self in
  let p := pe_patch_size (x_embedder self) in
  match shape x with
  | n :: t :: _ =>
      let h := Z.sqrt t in
      let w := h in
      _ ← py_assert (h * w =? t) no_message;
      x ← reshape x [n; h; w; p; p; c];
      x ← einsum_nhwpqc_nchpwq x;
      match shape x with
      | n' :: _ => reshape x [n'; c; h * p; h * p]
      | [] => Raise (IndexError "tuple index out of range")
      end
  | _ => Raise (IndexError "tuple index out of range")
  end.

(** [forward], line by line.  The first statement rebinds [x] to
    [conv2d(swish(groupNorm(x)))]. *)
Definition block_conv (self : DiffiTResBlock) (x : Tensor R) : result (Tensor R) :=
  x ← GroupNorm_forward (groupNorm self) x;
  Conv2d_forward (conv2d self) (SiLU_forward x).

(** [final(diffit(x_embedder(x) + pos_embed, c))]: the projected mixed
    tokens. *)
Definition block_tokens (self : DiffiTResBlock) (x c : Tensor R) : result (Tensor R) :=
  e ← PatchEmbed_forward (x_embedder self) x;
  x_patched ← tensor_add e (pos_embed self);
  m ← DiffTBlock_forward (diffit self) x_patched c;
  FinalLayer_forward (final self) m.

Definition DiffiTResBlock_forward (self : DiffiTResBlock) (x c : Tensor R)
  : result (Tensor R) :=
  x ← block_conv self x;
  f ← block_tokens self x c;
  u ← unpatchify self f;
  tensor_add u x.

(** *** [DiffiTSequential.forward] *)

Fixpoint forward_blocks (bs : list DiffiTResBlock) (x c : Tensor R)
  : result (Tensor R) :=
  match bs with
  | [] => Ok x
  | block :: bs' =>
      x ← DiffiTResBlock_forward block x c;
      forward_blocks bs' x c
  end.

Definition DiffiTSequential_forward (self : DiffiTSequential) (x c : Tensor R)
  : result (Tensor R) :=
  forward_blocks (blocks self) x c.
End forward.

(** ** [ImageDiffiT]: attribute access and calls *)

(** [self.name], for the names that the module itself assigns by
    [self.name = value]: the sub-modules, which [nn.Module] registers, and
    the plain values, which go to the instance dictionary.  The lookup
    raises when nothing was assigned under the name.  The attributes that
    [nn.Module] keeps for its own bookkeeping ([_modules], [_parameters],
    [training], ...) are not keys of the map. *)
Definition getattr (self : gmap string pyval) (name : string) : result pyval :=
  match self !! name with
  | Some v => Ok v
  | None => Raise (AttributeError name)
  end.

(** The values that are modules.  Under a name that holds a sub-module,
    [nn.Module.__setattr__] accepts a module and raises a [TypeError] on
    any other object. *)
Definition is_module (v : pyval) : bool :=
  match v with
  | VInt _ => false
  | _ => true
  end.

Section unet.
Context {R : Type} `{Backend R}.

(** [module(x)] for the modules whose [forward] takes a feature map. *)
Definition call_x (v : pyval) (x : Tensor R) : result (Tensor R) :=
  match v with
  | VTokenizer m => Tokenizer_forward m x
  | VHead m => Head_forward m x
  | VConv2d m => Conv2d_forward m x
  | VConvTranspose2d m => ConvTranspose2d_forward m x
  | VResBlock _ | VSequential _ =>
      Raise (TypeError "forward() missing 1 required positional argument: 'c'")
  | VTimestepEmbedder _ | VLabelEmbedder _ =>
      Raise (TypeError "the embedders take a batch of integers")
  | VInt _ => Raise (TypeError "'int' object is not callable")
  end.

(** [module(x, c)]: [DiffiTResBlock] and [DiffiTSequential] both have a
    [forward(x, c)]. *)
Definition call_xc (v : pyval) (x c : Tensor R) : result (Tensor R) :=
  match v with
  | VResBlock m => DiffiTResBlock_forward m x c
  | VSequential m => DiffiTSequential_forward m x c
  | VInt _ => Raise (TypeError "'int' object is not callable")
  | _ => Raise (TypeError "forward() takes 2 positional arguments but 3 were given")
  end.

(** [module(t)] and [module(y)] on a batch of integers. *)
Definition call_int (g : rng) (v : pyval) (t : Tensor Z) : result (Tensor R) :=
  match v with
  | VTimestepEmbedder m => TimestepEmbedder_forward m t
  | VLabelEmbedder m => LabelEmbedder_forward m g t
  | VInt _ => Raise (TypeError "'int' object is not callable")
  | VResBlock _ | VSequential _ =>
      Raise (TypeError "forward() missing 1 required positional argument: 'c'")
  | _ => Raise (RuntimeError "expected a floating point feature map")
  end.

(** *** [ImageDiffiT.forward] *)

Definition forward (self : gmap string pyval) (g : rng)
    (x : Tensor R) (t y : Tensor Z) : result (Tensor R) :=
  m ← getattr self "t_embedder"; xt ← call_int g m t;
  m ← getattr self "y_embedder"; xl ← call_int g m y;
  c ← tensor_add xt xl;
  m ← getattr self "tokenizer"; x1 ← call_x m x;
  m ← getattr self "resBlock1"; x1 ← call_xc m x1 c;
  m ← getattr self "downsample_1"; x2 ← call_x m x1;
  m ← getattr self "resBlock2"; x2 ← call_xc m x2 c;
  m ← getattr self "downsample_2"; x3 ← call_x m x2;
  m ← getattr self "resBlock3"; x3 ← call_xc m x3 c;
  m ← getattr self "downsample_3"; x4 ← call_x m x3;
  m ← getattr self "resBlock4"; x4 ← call_xc m x4 c;
  m ← getattr self "upsample_1"; u ← call_x m x4; x3 ← tensor_add x3 u;
  m ← getattr self "resBlock3up"; x3 ← call_xc m x3 c;
  m ← getattr self "upsample_2"; u ← call_x m x3; x2 ← tensor_add x2 u;
  m ← getattr self "resBlock2"; x2 ← call_xc m x2 c;
  m ← getattr self "upsample_3"; u ← call_x m x2; x1 ← tensor_add x1 u;
  m ← getattr self "resBlock1Up"; x1 ← call_xc m x1 c;
  m ← getattr self "head"; call_x m x1.

(** *** [ImageDiffiT.forward_with_cfg] *)

(** The batch handed to the model: [x] and [t] doubled, the labels
    followed by as many null labels [self.num_classes]. *)
Definition cfg_inputs (self : gmap string pyval) (x : Tensor R) (t y : Tensor Z)
  : result (Tensor R * Tensor Z * Tensor Z) :=
  combined ← torch_cat 0 x x;
  combined_times ← torch_cat 0 t t;
  n ← tensor_size0 x;
  v ← getattr self "num_classes";
  num_classes ← as_int v;
  let null_labels := torch_full1 n num_classes in
  combined_labels ← torch_cat 0 y null_labels;
  Ok (combined, combined_times, combined_labels).

(** What is done with the output of the model. *)
Definition cfg_combine (cfg_scale : R) (model_out : Tensor R) : result (Tensor R) :=
  eps ← slice_dim1_to 3 model_out;
  rest ← slice_dim1_from 3 model_out;
  n ← tensor_len eps;
  chunks ← torch_split0 eps (n `div` 2);
  '(cond_eps, uncond_eps) ← unpack2 chunks;
  d ← tensor_sub cond_eps uncond_eps;
  half_eps ← tensor_add uncond_eps (tensor_scale cfg_scale d);
  eps ← torch_cat 0 half_eps half_eps;
  torch_cat 1 eps rest.

(** [self.forward] is looked up on the instance when the call is made, so
    the method is a parameter of the guidance procedure. *)
Definition forward_with_cfg_via
    (model : Tensor R → Tensor Z → Tensor Z → result (Tensor R))
    (self : gmap string pyval) (x : Tensor R) (t y : Tensor Z) (cfg_scale : R)
  : result (Tensor R) :=
  '(combined, combined_times, combined_labels) ← cfg_inputs self x t y;
  model_out ← model combined combined_times combined_labels;
  cfg_combine cfg_scale model_out.

Definition forward_with_cfg (self : gmap string pyval) (g : rng)
    (x : Tensor R) (t y : Tensor Z) (cfg_scale : R) : result (Tensor R) :=
  forward_with_cfg_via (forward self g) self x t y cfg_scale.

(** *** Whole programs: build the model, then call it

    [init] is the constructor used, [ImageDiffiT_init] in the source. *)

Definition run_forward (init : ImageDiffiT_args → ctor (gmap string pyval))
    (a : ImageDiffiT_args) (g : rng) (x : Tensor R) (t y : Tensor Z)
  : result (Tensor R) :=
  '(self, _) ← init a 0%nat;
  forward self g x t y.

Definition run_forward_with_cfg (init : ImageDiffiT_args → ctor (gmap string pyval))
    (a : ImageDiffiT_args) (g : rng) (x : Tensor R) (t y : Tensor Z) (cfg_scale : R)
  : result (Tensor R) :=
  '(self, _) ← init a 0%nat;
  forward_with_cfg self g x t y cfg_scale.
End unet.

(** ** The test at the end of the module

    [main] prints, builds modules and may raise.  A script therefore
    carries what has been printed so far and the counter of parameter sets;
    both survive an exception. *)

(** What [print] writes: a line of text, or a label followed by a shape. *)
Inductive printed : Type :=
| Line (text : string)
| Labelled (label : string) (size : list Z).

Definition script (A : Type) : Type :=
  list printed * nat → list printed * nat * result A.

#[global] Instance script_ret : MRet script := fun A a st => (st, Ok a).

#[global] Instance script_bind : MBind script := fun A B f m st =>
  match m st with
  | (st', Ok a) => f a st'
  | (st', Raise e) => (st', Raise e)
  end.

Definition print (p : printed) : script unit := fun st =>
  ((st.1 ++ [p], st.2), Ok tt).

(** A constructor call inside a script. *)
Definition construct {A} (m : ctor A) : script A := fun st =>
  match m st.2 with
  | Ok (a, w) => ((st.1, w), Ok a)
  | Raise e => (st, Raise e)
  end.

(** An expression that may raise. *)
Definition eval {A} (r : result A) : script A := fun st => (st, r).

(** ["-" * 30]. *)
Definition dashes : string := "------------------------------".

Section test.
Context {R : Type} `{Backend R}.

(** [draw k] holds the entries of the [k]-th tensor drawn by [torch.randn]
    or [torch.rand], [draw_int k] those of the [k]-th tensor drawn by
    [torch.randint]; the shapes are those [main] asks for. *)
Definition main (testing : bool) (draw : nat → list Z → R)
    (draw_int : nat → list Z → Z) (g : rng) : script unit :=
  if negb testing then mret tt else
  _ ← print (Line "Testing Tokenizer");
  let tok_input := mkTensor [5; 3; 64; 64] (draw 0%nat) in
  tokenizer ← construct (Tokenizer_init 3 126);
  _ ← print (Labelled "Input shape: " (shape tok_input));
  o ← eval (Tokenizer_forward tokenizer tok_input);
  _ ← print (Labelled "Output shape: " (shape o));
  _ ← print (Line dashes);
  _ ← print (Line "Testing Head");
  let head_input := mkTensor [5; 128; 64; 64] (draw 1%nat) in
  head ← construct (Head_init 128 3 8);
  _ ← print (Labelled "Input shape: " (shape head_input));
  o ← eval (Head_forward head head_input);
  _ ← print (Labelled "Output shape: " (shape o));
  _ ← print (Line dashes);
  let times_tensor := mkTensor [5] (draw_int 0%nat) in
  let label_tensor := mkTensor [5] (draw_int 1%nat) in
  _ ← print (Line "Testing Image Diffit ");
  let diffit_input := mkTensor [5; 3; 64; 64] (draw 2%nat) in
  diffit ← construct (ImageDiffiT_init (default_args 64));
  _ ← print (Labelled "Input shape: " (shape diffit_input));
  o ← eval (forward diffit g diffit_input times_tensor label_tensor);
  print (Labelled "Output shape: " (shape o)).

(** [if __name__ == '__main__': main()]: [testing] takes its default. *)
Definition run_module : (nat → list Z → R) → (nat → list Z → Z) → rng → script unit :=
  main false.
End test.

(** ** A backend and inputs to compute with

    Integer entries with exact arithmetic; the kernels are simple functions
    of the layer's weights and of the input at the position. *)

#[global] Instance Zbackend : Backend Z := {|
  radd := Z.add;
  rsub := Z.sub;
  rmul := Z.mul;
  silu_kernel := fun v => v;
  conv2d_kernel := fun m x idx => Z.of_nat (conv_weights m) + data x idx;
  conv_transpose2d_kernel := fun m x idx => Z.of_nat (convT_weights m) + data x idx;
  group_norm_kernel := fun m x idx => data x idx;
  diffit_kernel := fun m x c idx => data x idx + data c (take 1 idx ++ drop 2 idx);
  final_kernel := fun m x idx => Z.of_nat (fl_weights m) + data x idx;
  sincos_pos_embed := fun h g idx => foldr Z.add 0 idx;
  timestep_kernel := fun m t idx => data t (take 1 idx);
  label_kernel := fun m y idx => data y (take 1 idx)
|}.

(** Entries in IEEE 754 binary64, the arithmetic of [torch.float64]
    tensors: every operation rounds to nearest.  The guidance arithmetic
    goes through no layer, so the kernels of this backend pass the entry at
    the position on. *)
Definition float_backend : Backend float := {|
  radd := PrimFloat.add;
  rsub := PrimFloat.sub;
  rmul := PrimFloat.mul;
  silu_kernel := fun v => v;
  conv2d_kernel := fun m x idx => data x idx;
  conv_transpose2d_kernel := fun m x idx => data x idx;
  group_norm_kernel := fun m x idx => data x idx;
  diffit_kernel := fun m x c idx => data x idx;
  final_kernel := fun m x idx => data x idx;
  sincos_pos_embed := fun h g idx => 0%float;
  timestep_kernel := fun m t idx => 0%float;
  label_kernel := fun m y idx => 0%float
|}.

(** A model output for a doubled batch of one, three channels and a single
    pixel: the conditional prediction is 1.0 and the unconditional one
    -1e17, in every channel. *)
Definition cancelling_output : Tensor float :=
  mkTensor [2; 3; 1; 1]
    (fun idx => match idx with 0 :: _ => 1%float | _ => (-1e17)%float end).

(** A tensor whose entry at an index is the row-major offset of the
    index. *)
Definition arange (s : list Z) : Tensor Z := mkTensor s (ravel s).

Definition const_tensor (s : list Z) (v : Z) : Tensor Z := mkTensor s (fun _ => v).

(** The entries of a tensor in row-major order. *)
Definition to_list {A} (x : Tensor A) : list A :=
  (fun off => data x (unravel (shape x) off)) <$> seqZ 0 (numel (shape x)).

Definition no_draws : rng := fun _ => 1%Q.

Definition kwargs_of (img_size num_heads patch_size hidden_size channels num_groups : Z)
  : gmap string pyval :=
  <["img_size" := VInt img_size]>
  (<["num_heads" := VInt num_heads]>
  (<["patch_size" := VInt patch_size]>
  (<["hidden_size" := VInt hidden_size]>
  (<["channels" := VInt channels]>
  (<["num_groups" := VInt num_groups]> ∅))))).

(** A block for 4×4 feature maps of 2 channels, patches of side 2 and
    tokens of width 4. *)
Definition small_block : DiffiTResBlock :=
  let gn := mkGroupNorm 1 2 0 in
  let cv := mkConv2d 2 2 3 1 1 1 in
  let dt := mkDiffTBlock 4 2 2 in
  let pe := mkPatchEmbed 4 2 4 (mkConv2d 2 4 2 2 0 3) in
  let fl := mkFinalLayer 4 2 2 4 in
  mkDiffiTResBlock 2 gn cv dt pe 2 4 4 fl.

(** The same block built for 5×5 feature maps: the grid has [5 // 2 = 2]
    patches a side. *)
Definition odd_block : DiffiTResBlock :=
  let gn := mkGroupNorm 1 2 0 in
  let cv := mkConv2d 2 2 3 1 1 1 in
  let dt := mkDiffTBlock 4 2 2 in
  let pe := mkPatchEmbed 5 2 4 (mkConv2d 2 4 2 2 0 3) in
  let fl := mkFinalLayer 4 2 2 4 in
  mkDiffiTResBlock 2 gn cv dt pe 2 4 4 fl.

(** The block that [DiffiTResBlock] builds from integer arguments,
    written out (lemma [DiffiTResBlock_init_valid]); [w] is the first
    parameter set it draws. *)
Definition block_of (img nh p hs ch ng : Z) (w : nat) : DiffiTResBlock :=
  mkDiffiTResBlock ch (mkGroupNorm ng ch w) (mkConv2d ch ch 3 1 1 (S w))
    (mkDiffTBlock hs nh (S (S w)))
    (mkPatchEmbed img p (img `div` p * (img `div` p)) (mkConv2d ch hs p p 0 (S (S (S w)))))
    p (img `div` p * (img `div` p)) hs (mkFinalLayer hs p ch (S (S (S (S w))))).

(** A block for 1×1 feature maps of 8 channels in 8 groups, as at the
    bottom level of a network for 8×8 images. *)
Definition single_value_block : DiffiTResBlock := block_of 1 2 1 4 8 8 0.

(** A valid block configuration: positive sizes, the two divisibility
    invariants of the constructor, and a feature map that divides evenly
    into patches. *)
Definition valid_block_config (img nh p hs ch ng : Z) : Prop :=
  0 < img ∧ 0 < p ∧ img `mod` p = 0 ∧ 0 < hs ∧ 0 < nh ∧ hs `mod` nh = 0
  ∧ 0 < ch ∧ 0 < ng ∧ ch `mod` ng = 0.

(** ** Predicates on instances *)

(** The invariant of the class [DiffiTResBlock] that the argument on
    channels uses: normalisation and convolution are built for [channels]
    feature maps. *)
Definition block_ok (b : DiffiTResBlock) : bool :=
  (gn_num_channels (groupNorm b) =? channels b)
  && (conv_out_channels (conv2d b) =? channels b)
  && (0 <=? channels b).

Definition module_ok (v : pyval) : bool :=
  match v with
  | VResBlock b => block_ok b
  | VSequential s => forallb block_ok (blocks s)
  | _ => true
  end.

(** Every block stored in the instance keeps the invariant of its class. *)
Definition modules_ok (self : gmap string pyval) : bool :=
  forallb (fun kv => module_ok kv.2) (map_to_list self).

(** A tensor shape of rank 4 with [c] channels. *)
Definition chan4 (c : Z) (s : list Z) : Prop := ∃ n h w, s = [n; c; h; w].

(** An instance is wired for [hc] hidden channels when its tokenizer and its
    resolution transitions produce [hc] channels, its stacks keep the
    invariant of their class, and its head is [Head()]. *)
Definition wired (hc : Z) (self : gmap string pyval) : Prop :=
  (∃ tok, self !! "tokenizer" = Some (VTokenizer tok)
          ∧ conv_out_channels (tok_conv2d tok) = hc)
  ∧ (∀ name, name ∈ ["downsample_1"; "downsample_2"; "downsample_3"] →
       ∃ d, self !! name = Some (VConv2d d) ∧ conv_out_channels d = hc)
  ∧ (∀ name, name ∈ ["upsample_1"; "upsample_2"; "upsample_3"] →
       ∃ u, self !! name = Some (VConvTranspose2d u) ∧ convT_out_channels u = hc)
  ∧ (∀ name v, name ∈ ["resBlock1"; "resBlock2"; "resBlock3"; "resBlock4";
                        "resBlock3up"; "resBlock1Up"] →
       self !! name = Some v → module_ok v = true)
  ∧ (∃ wg wc, self !! "head"
              = Some (VHead (mkHead (mkGroupNorm 8 128 wg) (mkConv2d 128 3 3 1 1 wc)))).

(** ** An instance on which [forward] returns

    [__init__] with the factory of the docstring, label dropout switched
    off and an empty fourth stack (the one left under [resBlock2]), completed
    by hand with the two attributes [__init__] does not assign. *)
Definition example_args : ImageDiffiT_args :=
  mkArgs 16 1 1 1 0 2 10 0 4 3 128 2 8.

Definition example_self : gmap string pyval :=
  match ImageDiffiT_init_documented example_args 0%nat with
  | Ok (self, _) => self
  | Raise _ => ∅
  end.

Definition example_level3 : pyval :=
  VSequential (DiffiTSequential_init [block_of 4 2 2 4 128 8 200]).

Definition example_level4 : pyval :=
  VSequential (DiffiTSequential_init [block_of 2 2 2 4 128 8 300]).

Definition example_completed : gmap string pyval :=
  <["resBlock3" := example_level3]> (<["resBlock4" := example_level4]> example_self).

(** The inputs of the test at the end of the source: a batch of five 64×64
    images, with their timesteps and labels. *)
Definition test_x : Tensor Z := arange [5; 3; 64; 64].
Definition test_t : Tensor Z := const_tensor [5] 7.
Definition test_y : Tensor Z := const_tensor [5] 3.


(** Group normalisation over [ng] groups has more than one value a group on
    a batch of [B] maps of [ch] channels and size [img]×[img]. *)
Definition normalisable (B ch ng img : Z) : Prop :=
  (B * ch) `div` ng * (img * img) ≠ 1.

(** * Verification *)

#[local] Arguments broadcast_shapes : simpl never.
#[local] Arguments infer_shape : simpl never.
#[local] Arguments conv_out_size : simpl never.
#[local] Arguments convT_out_size : simpl never.
#[local] Arguments numel : simpl never.

(** ** The monads *)

Lemma ctor_bind_inv {A B} (m : ctor A) (f : A → ctor B) w r :
  (m ≫= f) w = Ok r → ∃ a w', m w = Ok (a, w') ∧ f a w' = Ok r.
Proof.
  unfold mbind, ctor_bind. destruct (m w) as [[a w']|e]; [eauto | discriminate].
Qed.

Lemma ctor_fmap_inv {A B} (g : A → B) (m : ctor A) w b w' :
  (g <$> m) w = Ok (b, w') → ∃ a, m w = Ok (a, w') ∧ b = g a.
Proof.
  unfold fmap, ctor_fmap. destruct (m w) as [[a w'']|e]; [|discriminate].
  intros [= <- <-]. eauto.
Qed.

Lemma result_bind_inv {A B} (m : result A) (f : A → result B) r :
  m ≫= f = Ok r → ∃ a, m = Ok a ∧ f a = Ok r.
Proof. destruct m; simpl; [eauto | discriminate]. Qed.

Lemma is_ok_inv {A} (r : result A) : is_ok r = true → ∃ a, r = Ok a.
Proof. destruct r; [eauto | discriminate]. Qed.

Lemma not_ok_inv {A} (r : result A) : (∀ a, r ≠ Ok a) → is_ok r = false.
Proof. destruct r as [a|e]; [intros Hn; by destruct (Hn a) | reflexivity]. Qed.

(** Peel the binds of a constructor, or of a call, that returned. *)
Ltac inv_ctor H :=
  repeat (apply ctor_bind_inv in H;
          let a := fresh "a" in let w := fresh "w" in let E := fresh "E" in
          destruct H as (a & w & E & H); cbv beta zeta in H).

Ltac inv_result H :=
  repeat (apply result_bind_inv in H;
          let a := fresh "a" in let E := fresh "E" in
          destruct H as (a & E & H); cbv beta zeta in H).

(** Decide the integer tests of the goal from the hypotheses. *)
Ltac zb :=
  repeat match goal with
  | |- context [?a =? ?b] =>
      first [ rewrite (proj2 (Z.eqb_eq a b)) by lia | rewrite (proj2 (Z.eqb_neq a b)) by lia ]
  | |- context [?a <? ?b] =>
      first [ rewrite (proj2 (Z.ltb_lt a b)) by lia | rewrite (proj2 (Z.ltb_ge a b)) by lia ]
  | |- context [?a <=? ?b] =>
      first [ rewrite (proj2 (Z.leb_le a b)) by lia | rewrite (proj2 (Z.leb_gt a b)) by lia ]
  end.

(** Run a constructor whose tests the hypotheses decide. *)
Ltac run_ctor :=
  repeat (progress (unfold mbind, ctor_bind, mret, ctor_ret, lift, fresh_weights,
                      py_mod, py_floordiv, py_assert, as_int, GroupNorm_init, Conv2d_init,
                      ConvTranspose2d_init, PatchEmbed_init, DiffTBlock_init, FinalLayer_init,
                      TimestepEmbedder_init, LabelEmbedder_init;
                    cbv beta iota; zb; cbn [negb orb andb])).

(** ** Shapes *)

Lemma broadcast_rev_same l : broadcast_rev l l = Some l.
Proof. induction l as [|d l IH]; [reflexivity|]. simpl. rewrite Z.eqb_refl, IH. reflexivity. Qed.

Lemma broadcast_shapes_same s : broadcast_shapes s s = Some s.
Proof. unfold broadcast_shapes. rewrite broadcast_rev_same. simpl. by rewrite reverse_involutive. Qed.

Lemma broadcast_shapes_batch B T D : broadcast_shapes [B; T; D] [1; T; D] = Some [B; T; D].
Proof.
  unfold broadcast_shapes. cbn. rewrite !Z.eqb_refl. cbn.
  destruct (B =? 1) eqn:E; [apply Z.eqb_eq in E; subst|]; reflexivity.
Qed.

Lemma broadcast_index_same s idx : in_range s idx → broadcast_index s idx = idx.
Proof.
  intros Hr. unfold broadcast_index.
  rewrite (Forall2_length _ _ _ Hr), Nat.sub_diag, drop_0.
  induction Hr as [|d i s idx Hd _ IH]; [reflexivity|].
  cbn. rewrite IH. destruct (Z.eqb_spec d 1); [f_equal; lia | reflexivity].
Qed.

Lemma infer_shape_nonneg n s :
  Forall (fun d => 0 ≤ d) s → numel s = n → infer_shape n s = Ok s.
Proof.
  intros Hs Hn. unfold infer_shape.
  assert (Hf : filter (fun d => d = -1) s = []).
  { clear Hn. induction Hs as [|d s Hd _ IH]; [reflexivity|].
    rewrite filter_cons_False by lia. exact IH. }
  rewrite Hf. cbn [length].
  assert (Hb : forallb (fun d => 0 <=? d) s = true).
  { apply forallb_forall. intros d Hd. apply Z.leb_le.
    rewrite Forall_forall in Hs. apply Hs. by apply list_elem_of_In. }
  rewrite Hb, Hn, Z.eqb_refl. reflexivity.
Qed.

Lemma conv_out_size_same size : conv_out_size size 3 1 1 = size.
Proof. unfold conv_out_size. rewrite Z.div_1_r. lia. Qed.

Lemma conv_out_size_patch size p :
  0 < p ≤ size → conv_out_size size p p 0 = size `div` p.
Proof.
  intros Hp. unfold conv_out_size.
  replace (size + 2 * 0 - p) with (size + (-1) * p) by lia.
  rewrite Z.div_add by lia. lia.
Qed.

Lemma divide_le_mul img p : 0 < p → 0 < img → img `mod` p = 0 → p ≤ img ∧ img `div` p * p = img.
Proof.
  intros Hp Hi Hm. apply Z.mod_divide in Hm; [|lia]. destruct Hm as [q ->].
  assert (0 < q) by nia.
  rewrite Z.div_mul by lia. split; [nia | reflexivity].
Qed.

Lemma split_in_two (B : Z) : 0 < B → Z.max ((2 * B + B - 1) `div` B) 1 = 2.
Proof.
  intros HB. replace (2 * B + B - 1) with (2 * B + (B - 1)) by lia.
  rewrite Z.div_add_l by lia. rewrite Z.div_small by lia. lia.
Qed.

(** ** Tensor operations *)

Lemma in_range_4 a b c d idx :
  in_range [a; b; c; d] idx →
  ∃ i j k l, idx = [i; j; k; l] ∧ 0 ≤ i < a ∧ 0 ≤ j < b ∧ 0 ≤ k < c ∧ 0 ≤ l < d.
Proof.
  unfold in_range. intros Hr.
  apply Forall2_cons_inv_l in Hr. destruct Hr as (i & r1 & Hi & Hr & ->).
  apply Forall2_cons_inv_l in Hr. destruct Hr as (j & r2 & Hj & Hr & ->).
  apply Forall2_cons_inv_l in Hr. destruct Hr as (k & r3 & Hk & Hr & ->).
  apply Forall2_cons_inv_l in Hr. destruct Hr as (l & r4 & Hl & Hr & ->).
  apply Forall2_nil_inv_l in Hr. subst. by exists i, j, k, l.
Qed.

Lemma tensor_binop_same {A} (f : A → A → A) (a b : Tensor A) :
  shape a = shape b →
  ∃ out, tensor_binop f a b = Ok out ∧ shape out = shape a ∧
         ∀ idx, in_range (shape a) idx → data out idx = f (data a idx) (data b idx).
Proof.
  intros E. unfold tensor_binop. rewrite <- E, broadcast_shapes_same.
  eexists; split; [reflexivity|]. split; [reflexivity|].
  intros idx Hr. cbn [data]. by rewrite broadcast_index_same.
Qed.

Lemma reshape_nonneg {A} (x : Tensor A) s :
  Forall (fun d => 0 ≤ d) s → numel s = numel (shape x) →
  ∃ y, reshape x s = Ok y ∧ shape y = s.
Proof.
  intros Hs Hn. unfold reshape. rewrite (infer_shape_nonneg _ s Hs Hn).
  eexists; split; reflexivity.
Qed.

Lemma torch_split0_halves {A} (x : Tensor A) (B : Z) (s : list Z) :
  0 < B → shape x = 2 * B :: s →
  torch_split0 x ((2 * B) `div` 2) = Ok [narrow 0 0 B x; narrow 0 B B x].
Proof.
  intros HB Hx. unfold torch_split0. rewrite Hx.
  replace ((2 * B) `div` 2) with B by (rewrite Z.mul_comm, Z.div_mul; lia).
  zb. rewrite split_in_two by lia.
  change (seqZ 0 2) with [0; 1]. cbn [fmap list_fmap].
  repeat f_equal; lia.
Qed.

Lemma torch_cat0_spec {A} (a b : Tensor A) (n n' : Z) (s : list Z) :
  shape a = n :: s → shape b = n' :: s →
  torch_cat 0 a b =
    Ok (mkTensor (n + n' :: s)
          (fun idx => match idx !! 0%nat with
                      | Some i => if i <? n then data a idx
                                  else data b (shift_index 0 (- n) idx)
                      | None => data a idx
                      end)).
Proof.
  intros Ha Hb. unfold torch_cat. rewrite Ha, Hb. cbn.
  rewrite bool_decide_eq_true_2 by reflexivity. reflexivity.
Qed.

Lemma torch_cat1_spec {A} (a b : Tensor A) (n c c' : Z) (s : list Z) :
  shape a = n :: c :: s → shape b = n :: c' :: s →
  torch_cat 1 a b =
    Ok (mkTensor (n :: c + c' :: s)
          (fun idx => match idx !! 1%nat with
                      | Some i => if i <? c then data a idx
                                  else data b (shift_index 1 (- c) idx)
                      | None => data a idx
                      end)).
Proof.
  intros Ha Hb. unfold torch_cat. rewrite Ha, Hb. cbn.
  rewrite bool_decide_eq_true_2 by reflexivity. reflexivity.
Qed.

(** ** Constructors *)

Lemma check_call_empty_kwargs names args :
  check_call names args ∅ =
    if (length names <? length args)%nat
    then Raise (TypeError "too many positional arguments") else Ok tt.
Proof. unfold check_call. rewrite map_to_list_empty. reflexivity. Qed.

Lemma bind_arg_positional pos name default (args : list pyval) v :
  args !! pos = Some v → bind_arg pos name default args ∅ = Ok v.
Proof. intros E. unfold bind_arg. rewrite E, lookup_empty. reflexivity. Qed.

Lemma py_mod_module_r a m :
  py_mod a (VResBlock m) = Raise (TypeError "unsupported operand type(s) for %").
Proof. destruct a; reflexivity. Qed.

(** A [DiffiTResBlock] cannot be built from blocks: with none the image
    size is missing, with one the patch grid divides a module by an integer,
    with two or more the first assertion takes a remainder by a module, and
    there are at most six parameters. *)
Lemma DiffiTResBlock_new_of_blocks (bs : list DiffiTResBlock) w :
  is_ok (DiffiTResBlock_new (VResBlock <$> bs) ∅ w) = false.
Proof.
  unfold DiffiTResBlock_new.
  rewrite check_call_empty_kwargs.
  destruct bs as [|b1 [|b2 bs]].
  - reflexivity.
  - reflexivity.
  - destruct (_ <? _)%nat; [reflexivity|].
    cbn [fmap list_fmap].
    unfold mbind at 1. unfold ctor_bind. cbn [lift].
    unfold mbind at 1. unfold ctor_bind.
    rewrite (bind_arg_positional 0 _ _ _ (VResBlock b1)) by reflexivity. cbn [lift].
    unfold mbind at 1. unfold ctor_bind.
    rewrite (bind_arg_positional 1 _ _ _ (VResBlock b2)) by reflexivity. cbn [lift].
    repeat (unfold mbind at 1; unfold ctor_bind;
            match goal with
            | |- context [lift ?r w] => destruct r; cbn [lift]; [|reflexivity]
            end).
    unfold DiffiTResBlock_init.
    unfold mbind at 1; unfold ctor_bind. rewrite py_mod_module_r. reflexivity.
Qed.

Lemma all_equals_raises (n : Z) (kwargs : gmap string pyval) (w : nat) :
  ∀ r, all_equals n kwargs w ≠ Ok r.
Proof.
  intros r Hr. unfold all_equals in Hr.
  apply ctor_bind_inv in Hr. destruct Hr as (bs & w' & _ & Hr).
  pose proof (DiffiTResBlock_new_of_blocks bs w') as Hn.
  rewrite Hr in Hn. discriminate.
Qed.

Lemma check_call_kwargs_of img nh p hs ch ng :
  check_call DiffiTResBlock_params [] (kwargs_of img nh p hs ch ng) = Ok tt.
Proof. vm_compute. reflexivity. Qed.

Lemma DiffiTResBlock_new_kwargs img nh p hs ch ng w :
  DiffiTResBlock_new [] (kwargs_of img nh p hs ch ng) w =
  DiffiTResBlock_init (VInt img) (VInt nh) (VInt p) (VInt hs) (VInt ch) (VInt ng) w.
Proof. unfold DiffiTResBlock_new. rewrite check_call_kwargs_of. reflexivity. Qed.

Lemma infer_shape_rows rows n :
  0 < rows → infer_shape (rows * n) [rows; -1] = Ok [rows; n].
Proof.
  intros Hr. unfold infer_shape.
  assert (F1 : filter (fun d => d = -1) [rows; -1] = [-1])
    by (rewrite filter_cons_False by lia; reflexivity).
  assert (F2 : filter (fun d => d ≠ -1) [rows; -1] = [rows])
    by (rewrite filter_cons_True by lia; reflexivity).
  rewrite F1, F2. cbn [length forallb].
  unfold numel. cbn [foldr]. rewrite Z.mul_1_r.
  rewrite (Z.mul_comm rows n), Z.mod_mul, Z.div_mul by lia.
  zb. cbn. zb. reflexivity.
Qed.

Lemma DiffiTResBlock_initialize_weights_ok img p np ch hs wid :
  0 < hs →
  DiffiTResBlock_initialize_weights (mkPatchEmbed img p np (mkConv2d ch hs p p 0 wid)) = Ok tt.
Proof.
  intros Hh. unfold DiffiTResBlock_initialize_weights. cbn [pe_proj conv_out_channels
    conv_in_channels conv_kernel_size].
  unfold numel at 1. cbn [foldr]. by rewrite infer_shape_rows.
Qed.

Lemma DiffiTResBlock_init_valid img nh p hs ch ng w :
  nh ≠ 0 → hs `mod` nh = 0 → ng ≠ 0 → ch `mod` ng = 0 → 0 ≤ ch → 0 < hs → 0 < p →
  DiffiTResBlock_init (VInt img) (VInt nh) (VInt p) (VInt hs) (VInt ch) (VInt ng) w
  = Ok (block_of img nh p hs ch ng w, S (S (S (S (S w))))).
Proof.
  intros Hnh Hhs Hng Hch Hc0 Hh0 Hp.
  unfold DiffiTResBlock_init. run_ctor.
  rewrite DiffiTResBlock_initialize_weights_ok by lia. reflexivity.
Qed.

Lemma DiffiTResBlock_new_valid img nh p hs ch ng w :
  valid_block_config img nh p hs ch ng →
  DiffiTResBlock_new [] (kwargs_of img nh p hs ch ng) w
  = Ok (block_of img nh p hs ch ng w, S (S (S (S (S w))))).
Proof.
  intros (Hi & Hp & Hd & Hh & Hn & Hhn & Hc & Hg & Hcg).
  rewrite DiffiTResBlock_new_kwargs. apply DiffiTResBlock_init_valid; lia.
Qed.

(** The two assertions of [DiffiTResBlock.__init__] come first. *)
Lemma DiffiTResBlock_init_hidden_not_divisible img nh p hs ch ng w :
  nh ≠ 0 → hs `mod` nh ≠ 0 →
  DiffiTResBlock_init (VInt img) (VInt nh) (VInt p) (VInt hs) (VInt ch) (VInt ng) w
  = Raise (AssertionError "hidden_size must be divisible by num_heads").
Proof. intros Hnh Hhs. unfold DiffiTResBlock_init. run_ctor. reflexivity. Qed.

Lemma DiffiTResBlock_init_channels_not_divisible img nh p hs ch ng w :
  nh ≠ 0 → hs `mod` nh = 0 → ng ≠ 0 → ch `mod` ng ≠ 0 →
  DiffiTResBlock_init (VInt img) (VInt nh) (VInt p) (VInt hs) (VInt ch) (VInt ng) w
  = Raise (AssertionError "patch_size must be divisible by num_groups").
Proof. intros Hnh Hhs Hng Hch. unfold DiffiTResBlock_init. run_ctor. reflexivity. Qed.

Lemma DiffiTResBlock_init_zero_divisor img nh p hs ch ng w :
  nh = 0 ∨ (nh ≠ 0 ∧ hs `mod` nh = 0 ∧ ng = 0) →
  DiffiTResBlock_init (VInt img) (VInt nh) (VInt p) (VInt hs) (VInt ch) (VInt ng) w
  = Raise ZeroDivisionError.
Proof.
  intros [Hnh | (Hnh & Hhs & Hng)]; unfold DiffiTResBlock_init; run_ctor; reflexivity.
Qed.

Example DiffiTResBlock_init_100_7 w :
  DiffiTResBlock_new [] (kwargs_of 64 7 2 100 128 8) w
  = Raise (AssertionError "hidden_size must be divisible by num_heads").
Proof. reflexivity. Qed.

Example DiffiTResBlock_init_128_8 w :
  DiffiTResBlock_new [] (kwargs_of 64 8 2 128 128 8) w
  = Ok (block_of 64 8 2 128 128 8 w, S (S (S (S (S w))))).
Proof. reflexivity. Qed.

Lemma Conv2d_init_inv cin cout k s p w m w' :
  Conv2d_init cin cout k s p w = Ok (m, w') → m = mkConv2d cin cout k s p w.
Proof.
  unfold Conv2d_init. destruct (_ || _); [discriminate|].
  cbn. by intros [= <- <-].
Qed.

Lemma ConvTranspose2d_init_inv cin cout k s p w m w' :
  ConvTranspose2d_init cin cout k s p w = Ok (m, w') → m = mkConvTranspose2d cin cout k s p w.
Proof.
  unfold ConvTranspose2d_init. destruct (_ || _); [discriminate|].
  cbn. by intros [= <- <-].
Qed.

Lemma Head_default_inv w h w' :
  Head_default w = Ok (h, w') →
  h = mkHead (mkGroupNorm 8 128 w) (mkConv2d 128 3 3 1 1 (S w)).
Proof. cbn. by intros [= <- <-]. Qed.

(** What [ImageDiffiT.__init__] has assigned when it returns, whatever the
    stack factory: [resBlock2] has been assigned three times, [resBlock3]
    and [resBlock4] never, and the head is [Head()]. *)
Lemma ImageDiffiT_init_with_inv factory a w self w' :
  ImageDiffiT_init_with factory a w = Ok (self, w') →
  ∃ tok te le s1 d1 s2 d2 s3 d3 s4 u1 s3u u2 s2u u3 s1u wh,
    let hc := arg_hidden_channels a in
    conv_out_channels (tok_conv2d tok) = hc
    ∧ (conv_out_channels d1 = hc ∧ conv_out_channels d2 = hc ∧ conv_out_channels d3 = hc)
    ∧ (convT_out_channels u1 = hc ∧ convT_out_channels u2 = hc ∧ convT_out_channels u3 = hc)
    ∧ self =
      <["head" := VHead (mkHead (mkGroupNorm 8 128 wh) (mkConv2d 128 3 3 1 1 (S wh)))]>
      (<["resBlock1Up" := s1u]> (<["upsample_3" := VConvTranspose2d u3]>
      (<["resBlock2up" := s2u]> (<["upsample_2" := VConvTranspose2d u2]>
      (<["resBlock3up" := s3u]> (<["upsample_1" := VConvTranspose2d u1]>
      (<["resBlock2" := s4]> (<["downsample_3" := VConv2d d3]>
      (<["resBlock2" := s3]> (<["downsample_2" := VConv2d d2]>
      (<["resBlock2" := s2]> (<["downsample_1" := VConv2d d1]>
      (<["resBlock1" := s1]> (<["y_embedder" := VLabelEmbedder le]>
      (<["t_embedder" := VTimestepEmbedder te]> (<["tokenizer" := VTokenizer tok]>
      (<["num_classes" := VInt (arg_num_classes a)]> ∅))))))))))))))))).
Proof.
  intros Hi. unfold ImageDiffiT_init_with in Hi. cbv zeta in Hi.
  inv_ctor Hi.
  injection Hi as <- <-.
  repeat match goal with
  | E : Conv2d_init _ _ _ _ _ _ = Ok _ |- _ => apply Conv2d_init_inv in E; subst
  | E : ConvTranspose2d_init _ _ _ _ _ _ = Ok _ |- _ =>
      apply ConvTranspose2d_init_inv in E; subst
  | E : Head_default _ = Ok _ |- _ => apply Head_default_inv in E; subst
  end.
  unfold Tokenizer_init in *.
  match goal with
  | E : (_ ≫= _) _ = Ok _ |- _ =>
      apply ctor_bind_inv in E; destruct E as (cv & wc & Ec & E);
      apply Conv2d_init_inv in Ec; injection E as <- <-; subst
  end.
  repeat eexists; reflexivity.
Qed.

Lemma ImageDiffiT_init_raises a w : ∀ r, ImageDiffiT_init a w ≠ Ok r.
Proof.
  intros r Hi. unfold ImageDiffiT_init, ImageDiffiT_init_with in Hi. cbv zeta in Hi.
  do 8 (apply ctor_bind_inv in Hi;
        let a := fresh "a" in let w := fresh "w" in let E := fresh "E" in
        destruct Hi as (a & w & E & Hi); cbv beta zeta in Hi).
  match goal with
  | E : (VResBlock <$> all_equals _ _) _ = Ok _ |- _ =>
      apply ctor_fmap_inv in E; destruct E as (b' & E & _);
      exact (all_equals_raises _ _ _ _ E)
  end.
Qed.

(** With both divisibility invariants in place and every other argument at
    its default, the constructor of the network raises. *)
Example ImageDiffiT_init_128_8 w :
  ImageDiffiT_init (mkArgs 64 4 4 4 4 2 1000 (1 # 10) 128 3 128 8 8) w
  = Raise (TypeError "unsupported operand type(s) for %").
Proof. vm_compute. reflexivity. Qed.

(** C6 (the code departs from the claim).  The claim has the construction
    of the network succeed when [hidden_size] is divisible by [num_heads]
    and [hidden_channels] by [num_groups].  With [hidden_size = 128],
    [num_heads = 8] and every other argument at its default both invariants
    hold, and [ImageDiffiT.__init__] raises a [TypeError]: [all_equals]
    hands the four blocks of the first level to [DiffiTResBlock] as
    positional arguments, and the first assertion takes the remainder of one
    block by another. *)
Theorem ImageDiffiT_init_divisible_raises (w : nat) :
  let a := mkArgs 64 4 4 4 4 2 1000 (1 # 10) 128 3 128 8 8 in
  arg_hidden_size a `mod` arg_num_heads a = 0
  ∧ arg_hidden_channels a `mod` arg_num_groups a = 0
  ∧ ImageDiffiT_init a w = Raise (TypeError "unsupported operand type(s) for %").
Proof. split; [reflexivity | split; [reflexivity | apply ImageDiffiT_init_128_8]]. Qed.

(** C2 (the code departs from the claim).  [all_equals] returns no
    container of blocks: for every [n] and every keyword arguments it
    raises, because the blocks it has built are passed to [DiffiTResBlock]
    instead of [DiffiTSequential]. *)
Theorem all_equals_never_returns (n : Z) (kwargs : gmap string pyval) (w : nat) :
  is_ok (all_equals n kwargs w) = false.
Proof. apply not_ok_inv. apply all_equals_raises. Qed.

(** The factory of the docstring does what the claim says: [n] blocks, each
    built from the same keyword arguments. *)
Lemma repeat_ctor_inv {A} (m : ctor A) n w l w' :
  repeat_ctor n m w = Ok (l, w') →
  length l = n ∧ Forall (fun a => ∃ w1 w2, m w1 = Ok (a, w2)) l.
Proof.
  revert w l w'. induction n as [|n IH]; intros w l w' Hr.
  - injection Hr as <- <-. split; [reflexivity | constructor].
  - cbn [repeat_ctor] in Hr.
    apply ctor_bind_inv in Hr. destruct Hr as (a & w1 & Ea & Hr).
    apply ctor_bind_inv in Hr. destruct Hr as (l' & w2 & El & Hr).
    injection Hr as <- <-. destruct (IH _ _ _ El) as [Hlen Hall].
    split; [cbn; by rewrite Hlen | constructor; eauto].
Qed.

Lemma all_equals_documented_blocks n kwargs w s w' :
  all_equals_documented n kwargs w = Ok (s, w') →
  length (blocks s) = Z.to_nat n
  ∧ Forall (fun b => ∃ w1 w2, DiffiTResBlock_new [] kwargs w1 = Ok (b, w2)) (blocks s).
Proof.
  intros Hs. unfold all_equals_documented in Hs.
  apply ctor_bind_inv in Hs. destruct Hs as (bs & w1 & Ebs & Hs).
  injection Hs as <- <-. exact (repeat_ctor_inv _ _ _ _ _ Ebs).
Qed.

(** ** [DiffiTResBlock] *)

Section block.
Context {R : Type} {BE : Backend R}.

Lemma block_conv_shape img nh p hs ch ng w B (x : Tensor R) :
  0 < img → ng ≠ 0 → normalisable B ch ng img →
  shape x = [B; ch; img; img] →
  ∃ x', block_conv (block_of img nh p hs ch ng w) x = Ok x' ∧ shape x' = [B; ch; img; img].
Proof.
  intros Hi Hng Hnd Hx. unfold normalisable in Hnd.
  unfold block_conv, GroupNorm_forward. rewrite Hx.
  cbn [block_of groupNorm gn_num_groups gn_num_channels py_floordiv]. zb.
  cbn [mbind result_bind]. unfold verify_batch_size, numel. cbn [foldr].
  rewrite Z.mul_1_r. zb. cbn [mbind result_bind].
  unfold Conv2d_forward. cbn. rewrite ?Hx. cbn. zb. cbn.
  eexists; split; [reflexivity|]. cbn. by rewrite !conv_out_size_same.
Qed.

Lemma block_tokens_shape img nh p hs ch ng w B (x c : Tensor R) :
  0 < p ≤ img →
  shape x = [B; ch; img; img] → shape c = [B; hs] →
  ∃ f, block_tokens (block_of img nh p hs ch ng w) x c = Ok f
       ∧ shape f = [B; img `div` p * (img `div` p); p * p * ch].
Proof.
  intros Hp Hx Hcs.
  pose proof (conv_out_size_patch img p Hp) as Hg1.
  unfold block_tokens, PatchEmbed_forward. rewrite Hx. cbn.
  rewrite Z.eqb_refl. cbn.
  unfold Conv2d_forward. cbn. rewrite ?Hx. cbn. zb. cbn.
  rewrite Hg1.
  unfold tensor_add, tensor_binop. cbn. rewrite broadcast_shapes_batch. cbn.
  unfold DiffTBlock_forward. cbn. rewrite Hcs. cbn. rewrite !Z.eqb_refl. cbn.
  unfold FinalLayer_forward. cbn. rewrite Z.eqb_refl.
  eexists; split; reflexivity.
Qed.

(** [unpatchify] on a token tensor whose last dimension is p²·c: the
    assertion fails unless the number of tokens is a square, and nothing
    else is checked. *)
Lemma unpatchify_cases (self : DiffiTResBlock) (x : Tensor R) (B T : Z) :
  let p := pe_patch_size (x_embedder self) in
  let c := channels self in
  0 ≤ p → 0 ≤ c → 0 ≤ B → 0 ≤ T →
  shape x = [B; T; p * p * c] →
  (Z.sqrt T * Z.sqrt T ≠ T → unpatchify self x = Raise (AssertionError no_message)) ∧
  (Z.sqrt T * Z.sqrt T = T →
     ∃ imgs, unpatchify self x = Ok imgs
             ∧ shape imgs = [B; c; Z.sqrt T * p; Z.sqrt T * p]).
Proof.
  intros p c Hp Hc HB HT Hx.
  pose proof (Z.sqrt_nonneg T) as Hh.
  unfold unpatchify. rewrite Hx. fold p. fold c.
  split; intros Hsq.
  - unfold py_assert. rewrite (proj2 (Z.eqb_neq _ _) Hsq). reflexivity.
  - unfold py_assert. rewrite (proj2 (Z.eqb_eq _ _) Hsq). cbn [mbind result_bind].
    destruct (reshape_nonneg x [B; Z.sqrt T; Z.sqrt T; p; p; c]) as (y & -> & Hy).
    { repeat constructor; lia. }
    { rewrite Hx. unfold numel. cbn [foldr]. rewrite <- Hsq at 3. ring. }
    cbn [mbind result_bind]. unfold einsum_nhwpqc_nchpwq. rewrite Hy.
    cbn [mbind result_bind shape].
    apply reshape_nonneg.
    + repeat constructor; nia.
    + cbn [shape]. unfold numel. cbn [foldr]. ring.
Qed.

(** C7 (amended).  Given tokens of shape (batch, num_patches, p²·channels),
    [unpatchify] fails, on its assertion, exactly when [num_patches] is not
    a perfect square.  Otherwise it returns a tensor of shape (batch,
    channels, h·p, h·p) with h the square root of [num_patches], whatever
    the size H×W of the feature map the tokens came from: the result has
    shape (batch, channels, H, W) if and only if h·p = H = W. *)
Theorem unpatchify_checks_square_only
    (self : DiffiTResBlock) (x : Tensor R) (B T H W : Z) :
  let p := pe_patch_size (x_embedder self) in
  let c := channels self in
  0 ≤ p → 0 ≤ c → 0 ≤ B → 0 ≤ T →
  shape x = [B; T; p * p * c] →
  (Z.sqrt T * Z.sqrt T ≠ T → unpatchify self x = Raise (AssertionError no_message))
  ∧ (Z.sqrt T * Z.sqrt T = T →
       ∃ imgs, unpatchify self x = Ok imgs
               ∧ shape imgs = [B; c; Z.sqrt T * p; Z.sqrt T * p]
               ∧ (shape imgs = [B; c; H; W] ↔ Z.sqrt T * p = H ∧ Z.sqrt T * p = W)).
Proof.
  intros p c Hp Hc HB HT Hx.
  destruct (unpatchify_cases self x B T Hp Hc HB HT Hx) as [Hfail Hok].
  split; [exact Hfail|]. intros Hsq.
  destruct (Hok Hsq) as (imgs & E & Hs).
  exists imgs. split; [exact E|]. split; [exact Hs|].
  rewrite Hs. split.
  - intros [= E1 E2]. split; assumption.
  - intros [E1 E2]. repeat f_equal; assumption.
Qed.

(** C3 (amended).  For every block the constructor builds from a valid
    configuration and every input [x] of shape (B, channels, H, W), B ≥ 1,
    on which group normalisation has more than one value a group, with
    conditioning [c] of shape (B, hidden_size), [forward] returns a tensor
    of the shape of [x]; it is the sum of the unpatchified projected mixed
    tokens [u] and of [x' = conv2d(swish(groupNorm(x)))], the tensor after
    the convolution, not of the input. *)
Theorem DiffiTResBlock_forward_shape
    img nh p hs ch ng w self w' B (x c : Tensor R) :
  valid_block_config img nh p hs ch ng →
  DiffiTResBlock_new [] (kwargs_of img nh p hs ch ng) w = Ok (self, w') →
  0 < B → normalisable B ch ng img →
  shape x = [B; ch; img; img] → shape c = [B; hs] →
  ∃ x' f u out,
    block_conv self x = Ok x'
    ∧ block_tokens self x' c = Ok f
    ∧ unpatchify self f = Ok u
    ∧ DiffiTResBlock_forward self x c = Ok out
    ∧ shape out = shape x
    ∧ ∀ idx, in_range (shape x) idx → data out idx = radd (data u idx) (data x' idx).
Proof.
  intros Hv Hnew HB Hnd Hx Hc.
  rewrite (DiffiTResBlock_new_valid _ _ _ _ _ _ _ Hv) in Hnew.
  injection Hnew as <- <-.
  destruct Hv as (Hi & Hp & Hd & Hh & Hn & Hhn & Hch & Hg & Hcg).
  destruct (divide_le_mul img p Hp Hi Hd) as [Hle Hgp].
  destruct (block_conv_shape img nh p hs ch ng w B x Hi ltac:(lia) Hnd Hx)
    as (x' & Ex' & Hx').
  destruct (block_tokens_shape img nh p hs ch ng w B x' c (conj Hp Hle) Hx' Hc)
    as (f & Ef & Hf).
  set (g := img `div` p) in *.
  assert (Hg0 : 0 ≤ g) by (apply Z.div_pos; lia).
  destruct (unpatchify_cases (block_of img nh p hs ch ng w) f B (g * g))
    as [_ Hu]; cbn [block_of x_embedder pe_patch_size channels]; try lia; [exact Hf|].
  assert (Hsq : Z.sqrt (g * g) = g) by (apply Z.sqrt_square; lia).
  rewrite Hsq in Hu.
  destruct (Hu eq_refl) as (u & Eu & Hus).
  cbn [block_of channels x_embedder pe_patch_size] in Hus.
  rewrite Hgp in Hus.
  destruct (tensor_binop_same radd u x') as (out & Eo & Hos & Hod); [congruence|].
  exists x', f, u, out.
  repeat split; try assumption.
  - unfold DiffiTResBlock_forward. rewrite Ex'. cbn [mbind result_bind].
    rewrite Ef. cbn [mbind result_bind]. rewrite Eu. exact Eo.
  - congruence.
  - intros idx Hr. apply Hod. congruence.
Qed.

(** When the patches do not tile the feature map, the tokens reconstruct
    a smaller map; [unpatchify] returns it, and the residual addition
    raises. *)
Lemma DiffiTResBlock_forward_size_disagreement img nh p hs ch ng w B (x c : Tensor R) :
  0 < p ≤ img → img `mod` p ≠ 0 → 0 ≤ ch → 0 ≤ B → ng ≠ 0 →
  shape x = [B; ch; img; img] → shape c = [B; hs] →
  let self := block_of img nh p hs ch ng w in
  (∃ x' f u,
     block_conv self x = Ok x' ∧ shape x' = [B; ch; img; img]
     ∧ block_tokens self x' c = Ok f
     ∧ unpatchify self f = Ok u
     ∧ shape u = [B; ch; img `div` p * p; img `div` p * p]
     ∧ img `div` p * p < img)
  ∧ DiffiTResBlock_forward self x c
    = Raise (RuntimeError "the sizes of the tensors must match").
Proof.
  intros Hp Hm Hch HB Hng Hx Hc self.
  assert (Hp1 : p ≠ 1) by (intros ->; by rewrite Z.mod_1_r in Hm).
  assert (Hip : img ≠ p) by (intros ->; by rewrite Z_mod_same_full in Hm).
  assert (Hnd : normalisable B ch ng img).
  { unfold normalisable. generalize ((B * ch) `div` ng). intros k.
    assert (9 ≤ img * img) by nia.
    destruct (Z_le_gt_dec k 0); nia. }
  destruct (block_conv_shape img nh p hs ch ng w B x ltac:(lia) Hng Hnd Hx)
    as (x' & Ex' & Hx').
  destruct (block_tokens_shape img nh p hs ch ng w B x' c Hp Hx' Hc) as (f & Ef & Hf).
  set (g := img `div` p) in *.
  assert (Hg : 0 < g) by (apply Z.div_str_pos; lia).
  assert (Hlt : g * p < img).
  { pose proof (Z.div_mod img p ltac:(lia)) as Hdm.
    pose proof (Z.mod_pos_bound img p ltac:(lia)) as Hb. fold g in Hdm. nia. }
  destruct (unpatchify_cases self f B (g * g))
    as [_ Hu]; cbn [self block_of x_embedder pe_patch_size channels]; try nia; [exact Hf|].
  assert (Hsq : Z.sqrt (g * g) = g) by (apply Z.sqrt_square; lia).
  rewrite Hsq in Hu.
  destruct (Hu eq_refl) as (u & Eu & Hus).
  cbn [self block_of channels x_embedder pe_patch_size] in Hus.
  split.
  - exists x', f, u. repeat split; assumption.
  - subst self. unfold DiffiTResBlock_forward. rewrite Ex'. cbn [mbind result_bind].
    rewrite Ef. cbn [mbind result_bind]. rewrite Eu. cbn [mbind result_bind].
    unfold tensor_add, tensor_binop. rewrite Hus, Hx'.
    unfold broadcast_shapes. cbn.
    assert (g * p ≠ 1) by nia.
    zb. reflexivity.
Qed.

(** ** [DiffiTSequential] *)

(** The loop of [forward] applies the blocks in order, each to the output
    of the one before and to the same [c]. *)
Lemma forward_blocks_app bs1 bs2 (x c : Tensor R) :
  forward_blocks (bs1 ++ bs2) x c = forward_blocks bs1 x c ≫= fun x' => forward_blocks bs2 x' c.
Proof.
  revert x. induction bs1 as [|b bs1 IH]; intros x; [reflexivity|].
  cbn [app forward_blocks]. destruct (DiffiTResBlock_forward b x c); [apply IH | reflexivity].
Qed.

(** C10.  A [DiffiTSequential] built from no block is the identity on the
    feature map: [forward(x, c)] returns [x], for every [x] and [c]. *)
Theorem DiffiTSequential_empty_forward (x c : Tensor R) :
  DiffiTSequential_forward (DiffiTSequential_init []) x c = Ok x.
Proof. reflexivity. Qed.
End block.

(** ** Classifier-free guidance *)

Section guidance.
Context {R : Type} {BE : Backend R}.

(** The index arithmetic of [forward_with_cfg] after the model call, on a
    model output of shape (2B, C, H, W). *)
Lemma cfg_combine_pointwise (cfg_scale : R) (model_out : Tensor R) (B C H W : Z) :
  0 < B → 0 ≤ C →
  shape model_out = [2 * B; C; H; W] →
  ∃ out,
    cfg_combine cfg_scale model_out = Ok out
    ∧ shape out = [2 * B; C; H; W]
    ∧ (∀ n c h w, 0 ≤ n < 2 * B → 0 ≤ c < C → 0 ≤ h < H → 0 ≤ w < W →
         data out [n; c; h; w] =
           if c <? 3 then
             let n0 := if n <? B then n else n - B in
             let cond_eps := data model_out [n0; c; h; w] in
             let uncond_eps := data model_out [n0 + B; c; h; w] in
             radd uncond_eps (rmul cfg_scale (rsub cond_eps uncond_eps))
           else data model_out [n; c; h; w]).
Proof.
  intros HB HC Hm.
  unfold cfg_combine, slice_dim1_to, slice_dim1_from. rewrite Hm.
  cbn [lookup list_lookup mbind result_bind].
  set (c3 := 3 `min` C).
  set (eps := narrow 1 0 c3 model_out).
  set (rest := narrow 1 c3 (C - c3) model_out).
  assert (He : shape eps = [2 * B; c3; H; W]) by (unfold eps; cbn; by rewrite Hm).
  assert (Hr : shape rest = [2 * B; C - c3; H; W]) by (unfold rest; cbn; by rewrite Hm).
  unfold tensor_len. rewrite He. cbn [mbind result_bind].
  rewrite (torch_split0_halves eps B _ HB He). cbn [mbind result_bind unpack2].
  set (cond_eps := narrow 0 0 B eps).
  set (uncond_eps := narrow 0 B B eps).
  assert (Hc : shape cond_eps = [B; c3; H; W])
    by (unfold cond_eps, narrow; cbn [shape]; by rewrite He).
  assert (Hu : shape uncond_eps = [B; c3; H; W])
    by (unfold uncond_eps, narrow; cbn [shape]; by rewrite He).
  destruct (tensor_binop_same rsub cond_eps uncond_eps) as (d & Ed & Hds & Hdd);
    [congruence|].
  unfold tensor_sub. rewrite Ed. cbn [mbind result_bind].
  destruct (tensor_binop_same radd uncond_eps (tensor_scale cfg_scale d))
    as (half & Eh & Hhs & Hhd);
    [unfold tensor_scale, tensor_map; cbn [shape]; congruence|].
  unfold tensor_add. rewrite Eh. cbn [mbind result_bind].
  rewrite (torch_cat0_spec half half B B [c3; H; W]) by congruence.
  cbn [mbind result_bind].
  erewrite (torch_cat1_spec _ rest (B + B) c3 (C - c3) [H; W]);
    [|reflexivity|rewrite Hr; f_equal; lia].
  eexists. split; [reflexivity|]. split; [cbn; repeat f_equal; lia|].
  intros n c h w Hn Hcr Hh Hw. cbn [data lookup list_lookup].
  assert (Hhalf : ∀ n0, 0 ≤ n0 < B → c < c3 →
            data half [n0; c; h; w] =
            radd (data model_out [n0 + B; c; h; w])
              (rmul cfg_scale (rsub (data model_out [n0; c; h; w])
                                    (data model_out [n0 + B; c; h; w])))).
  { intros n0 Hn0 Hc3. rewrite Hhd by (rewrite Hu; repeat constructor; lia).
    cbn [tensor_scale tensor_map data].
    rewrite Hdd by (rewrite Hc; repeat constructor; lia).
    unfold uncond_eps, cond_eps, eps, narrow, shift_index. cbn.
    repeat f_equal; lia. }
  destruct (Z.ltb_spec c 3) as [Hlt|Hge].
  - rewrite (proj2 (Z.ltb_lt c c3)) by lia.
    destruct (Z.ltb_spec n B).
    + apply Hhalf; lia.
    + unfold shift_index. cbn. rewrite Hhalf by lia. repeat f_equal; lia.
  - rewrite (proj2 (Z.ltb_ge c c3)) by lia.
    unfold rest, narrow, shift_index. cbn. repeat f_equal; lia.
Qed.

(** What the model is called on: [x] and [t] twice over, and the labels
    followed by [B] null labels [num_classes]. *)
Lemma cfg_inputs_spec (self : gmap string pyval) (x : Tensor R) (t y : Tensor Z)
    (B nc : Z) (s : list Z) :
  shape x = B :: s → shape t = [B] → shape y = [B] →
  self !! "num_classes" = Some (VInt nc) →
  ∃ cx ct cy,
    cfg_inputs self x t y = Ok (cx, ct, cy)
    ∧ shape cx = 2 * B :: s ∧ shape ct = [2 * B] ∧ shape cy = [2 * B]
    ∧ (∀ n r, 0 ≤ n < B →
         data cx (n :: r) = data x (n :: r) ∧ data cx (n + B :: r) = data x (n :: r))
    ∧ (∀ n, 0 ≤ n < B →
         data ct [n] = data t [n] ∧ data ct [n + B] = data t [n]
         ∧ data cy [n] = data y [n] ∧ data cy [n + B] = nc).
Proof.
  intros Hx Ht Hy Hnc. unfold cfg_inputs.
  rewrite (torch_cat0_spec x x B B s Hx Hx). cbn [mbind result_bind].
  rewrite (torch_cat0_spec t t B B [] Ht Ht). cbn [mbind result_bind].
  unfold tensor_size0, getattr. rewrite Hx, Hnc. cbn [mbind result_bind as_int].
  rewrite (torch_cat0_spec y (torch_full1 B nc) B B [] Hy eq_refl).
  cbn [mbind result_bind].
  do 3 eexists. split; [reflexivity|]. cbn [shape].
  repeat split; try (f_equal; lia).
  all: cbn [data lookup list_lookup]; zb; try reflexivity.
  all: unfold shift_index; cbn; repeat f_equal; lia.
Qed.

(** Relative to a model that returns a tensor of the shape of its input,
    the guidance procedure returns the doubled batch. *)
Lemma forward_with_cfg_via_shape model (self : gmap string pyval)
    (x : Tensor R) (t y : Tensor Z) (cfg_scale : R) (B C H W nc : Z) :
  0 < B → 0 ≤ C →
  shape x = [B; C; H; W] → shape t = [B] → shape y = [B] →
  self !! "num_classes" = Some (VInt nc) →
  (∀ cx ct cy, shape cx = [2 * B; C; H; W] →
     ∃ m, model cx ct cy = Ok m ∧ shape m = [2 * B; C; H; W]) →
  ∃ out, forward_with_cfg_via model self x t y cfg_scale = Ok out
         ∧ shape out = [2 * B; C; H; W].
Proof.
  intros HB HC Hx Ht Hy Hnc Hmodel.
  destruct (cfg_inputs_spec self x t y B nc _ Hx Ht Hy Hnc)
    as (cx & ct & cy & E & Hcx & _).
  destruct (Hmodel cx ct cy Hcx) as (m & Em & Hm).
  destruct (cfg_combine_pointwise cfg_scale m B C H W HB HC Hm) as (out & Eo & Ho & _).
  exists out. split; [|exact Ho].
  unfold forward_with_cfg_via. rewrite E. cbn [mbind result_bind].
  rewrite Em. exact Eo.
Qed.
End guidance.

(** C5 (amended).  On a model output of shape (2B, C, H, W), in the
    arithmetic of any backend, the first three channels of the result are
    [uncond_eps + w · (cond_eps − uncond_eps)], where [cond_eps] is read in
    the first half of the batch and [uncond_eps] in the second; both halves
    of the result hold this same combination, and the channels from the
    fourth on are those of the model output.  With [w = 1] the first half
    of the result is the conditional prediction when the arithmetic is
    exact, as it is on integer entries.  In floating point it need not be:
    see [cfg_combine_weight_one_rounds]. *)
Theorem cfg_combine_interpolates {R : Type} {BE : Backend R}
    (cfg_scale : R) (model_out : Tensor R) (ints : Tensor Z) (B C H W : Z) :
  0 < B → 0 ≤ C →
  (shape model_out = [2 * B; C; H; W] →
   ∃ out,
     cfg_combine cfg_scale model_out = Ok out
     ∧ shape out = [2 * B; C; H; W]
     ∧ (∀ n c h w, 0 ≤ n < B → 0 ≤ c < C → 0 ≤ h < H → 0 ≤ w < W →
          let cond_eps := data model_out [n; c; h; w] in
          let uncond_eps := data model_out [n + B; c; h; w] in
          let half_eps := radd uncond_eps (rmul cfg_scale (rsub cond_eps uncond_eps)) in
          (c < 3 → data out [n; c; h; w] = half_eps ∧ data out [n + B; c; h; w] = half_eps)
          ∧ (3 ≤ c → data out [n; c; h; w] = cond_eps
                     ∧ data out [n + B; c; h; w] = uncond_eps)))
  ∧ (shape ints = [2 * B; C; H; W] →
     ∃ out,
       cfg_combine 1 ints = Ok out
       ∧ tensor_eq (narrow 0 0 B out) (narrow 0 0 B ints)).
Proof.
  intros HB HC. split.
  - intros Hm.
    destruct (cfg_combine_pointwise cfg_scale model_out B C H W HB HC Hm)
      as (out & E & Hs & Hd).
    exists out. split; [exact E|]. split; [exact Hs|].
    intros n c h w Hn Hc Hh Hw. cbv zeta. split.
    + intros Hc3. split.
      * rewrite Hd by lia. zb. reflexivity.
      * rewrite Hd by lia. zb. replace (n + B - B) with n by lia. reflexivity.
    + intros Hc3. split; rewrite Hd by lia; zb; reflexivity.
  - intros Hm.
    destruct (cfg_combine_pointwise 1 ints B C H W HB HC Hm) as (out & E & Hs & Hd).
    exists out. split; [exact E|].
    unfold tensor_eq, narrow. cbn [shape data]. rewrite Hs, Hm.
    split; [reflexivity|]. intros idx Hr.
    destruct (in_range_4 _ _ _ _ _ Hr) as (n & c & h & w & -> & Hn & Hc & Hh & Hw).
    unfold shift_index. cbn. rewrite Z.add_0_r.
    rewrite Hd by lia. cbv zeta.
    destruct (c <? 3); [|reflexivity]. zb. cbn. lia.
Qed.

(** ** [ImageDiffiT] *)

Section unet_proofs.
Context {R : Type} {BE : Backend R}.

Lemma getattr_inv self name v : getattr self name = Ok v → self !! name = Some v.
Proof.
  unfold getattr. destruct (self !! name); [intros [= ->]; reflexivity | discriminate].
Qed.

(** [forward] reads [self.resBlock3] and [self.resBlock4]. *)
Lemma forward_reads_stacks (self : gmap string pyval) g (x : Tensor R) t y out :
  forward self g x t y = Ok out →
  is_Some (self !! "resBlock3") ∧ is_Some (self !! "resBlock4").
Proof.
  intros Hf. unfold forward in Hf. inv_result Hf.
  split; eexists; eapply getattr_inv; eassumption.
Qed.

(** [__init__] assigns neither, whatever the stack factory. *)
Lemma init_leaves_stacks_unassigned factory a w self w' :
  ImageDiffiT_init_with factory a w = Ok (self, w') →
  self !! "resBlock3" = None ∧ self !! "resBlock4" = None.
Proof.
  intros Hi. apply ImageDiffiT_init_with_inv in Hi.
  destruct Hi as (tok & te & le & s1 & d1 & s2 & d2 & s3 & d3 & s4 & u1 & s3u & u2
                  & s2u & u3 & s1u & wh & _ & _ & _ & ->).
  split; repeat (rewrite lookup_insert_ne by discriminate); apply lookup_empty.
Qed.

Lemma forward_after_init_raises factory a w self w' g (x : Tensor R) t y :
  ImageDiffiT_init_with factory a w = Ok (self, w') →
  ∀ out, forward self g x t y ≠ Ok out.
Proof.
  intros Hi out Hf.
  destruct (init_leaves_stacks_unassigned _ _ _ _ _ Hi) as [H3 _].
  destruct (forward_reads_stacks _ _ _ _ _ _ Hf) as [[v Hv] _]. congruence.
Qed.

(** C1 (the code departs from the claim).  Building the network and
    calling [forward] never returns a tensor.  With the constructor of the
    source, construction itself raises (the stacks are built by
    [all_equals]).  With any stack factory in the place of [all_equals],
    [__init__] assigns [resBlock2] three times and [resBlock3],
    [resBlock4] never, and [forward] reads both. *)
Theorem unet_forward_never_returns
    (factory : Z → gmap string pyval → ctor pyval)
    (a : ImageDiffiT_args) (g : rng) (x : Tensor R) (t y : Tensor Z) :
  is_ok (run_forward ImageDiffiT_init a g x t y) = false
  ∧ is_ok (run_forward (ImageDiffiT_init_with factory) a g x t y) = false.
Proof.
  assert (Hgen : ∀ f, is_ok (run_forward (ImageDiffiT_init_with f) a g x t y) = false).
  { intros f. apply not_ok_inv. intros out Hr. unfold run_forward in Hr.
    apply result_bind_inv in Hr. destruct Hr as ([self w'] & Hi & Hf).
    exact (forward_after_init_raises _ _ _ _ _ _ _ _ _ Hi _ Hf). }
  split; apply Hgen.
Qed.

(** C4 (the code departs from the claim).  Building the network and
    calling [forward_with_cfg] never returns a tensor, for the reasons of
    C1: the procedure calls [self.forward] on the doubled batch. *)
Theorem forward_with_cfg_never_returns
    (factory : Z → gmap string pyval → ctor pyval)
    (a : ImageDiffiT_args) (g : rng) (x : Tensor R) (t y : Tensor Z) (cfg_scale : R) :
  is_ok (run_forward_with_cfg ImageDiffiT_init a g x t y cfg_scale) = false
  ∧ is_ok (run_forward_with_cfg (ImageDiffiT_init_with factory) a g x t y cfg_scale)
    = false.
Proof.
  assert (Hgen : ∀ f, is_ok (run_forward_with_cfg (ImageDiffiT_init_with f)
                                a g x t y cfg_scale) = false).
  { intros f. apply not_ok_inv. intros out Hr. unfold run_forward_with_cfg in Hr.
    apply result_bind_inv in Hr. destruct Hr as ([self w'] & Hi & Hf).
    unfold forward_with_cfg, forward_with_cfg_via in Hf.
    apply result_bind_inv in Hf. destruct Hf as ([[cx ct] cy] & _ & Hf).
    apply result_bind_inv in Hf. destruct Hf as (m & Hm & _).
    exact (forward_after_init_raises _ _ _ _ _ _ _ _ _ Hi _ Hm). }
  split; apply Hgen.
Qed.
End unet_proofs.

(** ** Channels through the network *)

Lemma DiffiTResBlock_init_ok a1 a2 a3 a4 a5 a6 w b w' :
  DiffiTResBlock_init a1 a2 a3 a4 a5 a6 w = Ok (b, w') → block_ok b = true.
Proof.
  intros Hi. unfold DiffiTResBlock_init in Hi. inv_ctor Hi.
  injection Hi as <- <-.
  unfold GroupNorm_init in E7.
  repeat match type of E7 with
         | (if ?c then _ else _) _ = _ => destruct c eqn:?; [discriminate|]
         end.
  apply ctor_bind_inv in E7. destruct E7 as (wg & w1' & _ & E7). injection E7 as <- <-.
  apply Conv2d_init_inv in E8. subst.
  unfold block_ok. cbn. rewrite !Z.eqb_refl. cbn. lia.
Qed.

Lemma DiffiTResBlock_new_ok args kwargs w b w' :
  DiffiTResBlock_new args kwargs w = Ok (b, w') → block_ok b = true.
Proof.
  intros Hn. unfold DiffiTResBlock_new in Hn.
  do 7 (apply ctor_bind_inv in Hn;
        let a := fresh "a" in let w := fresh "w" in let E := fresh "E" in
        destruct Hn as (a & w & E & Hn); cbv beta zeta in Hn).
  eapply DiffiTResBlock_init_ok, Hn.
Qed.

Lemma all_equals_documented_ok n kwargs w s w' :
  all_equals_documented n kwargs w = Ok (s, w') → module_ok (VSequential s) = true.
Proof.
  intros Hs. destruct (all_equals_documented_blocks _ _ _ _ _ Hs) as [_ Hall].
  cbn. apply forallb_forall. intros b Hb.
  rewrite Forall_forall in Hall. apply list_elem_of_In in Hb.
  destruct (Hall b Hb) as (w1 & w2 & E). exact (DiffiTResBlock_new_ok _ _ _ _ _ E).
Qed.

Lemma infer_shape_keeps n s s' :
  infer_shape n s = Ok s' →
  length s' = length s ∧ ∀ i d, s !! i = Some d → d ≠ -1 → s' !! i = Some d.
Proof.
  unfold infer_shape.
  destruct (length (filter _ s)) as [|[|k]]; [| |discriminate].
  - destruct (_ && _); [|discriminate]. intros [= <-]. auto.
  - destruct (_ && _); [|discriminate]. intros [= <-].
    split; [by rewrite length_fmap|].
    intros i d Hi Hd. rewrite list_lookup_fmap, Hi. cbn.
    by rewrite (proj2 (Z.eqb_neq d (-1))) by exact Hd.
Qed.

Lemma broadcast_chan4 c sa sb s :
  chan4 c sa → chan4 c sb → broadcast_shapes sa sb = Some s → chan4 c s.
Proof.
  intros (n1 & h1 & w1 & ->) (n2 & h2 & w2 & ->).
  unfold broadcast_shapes. cbn. rewrite Z.eqb_refl.
  repeat match goal with
         | |- context [if ?t then _ else _] => destruct t
         end; cbn; intros [= <-]; repeat eexists.
Qed.

Section channels.
Context {R : Type} {BE : Backend R}.

Lemma Conv2d_forward_chan4 (m : Conv2d) (x y : Tensor R) :
  Conv2d_forward m x = Ok y → length (shape x) = 4%nat →
  chan4 (conv_out_channels m) (shape y).
Proof.
  unfold Conv2d_forward. intros Hy Hx.
  destruct (shape x) as [|n [|c [|h [|w [|? ?]]]]]; try discriminate.
  apply result_bind_inv in Hy. destruct Hy as (_ & _ & [= <-]).
  repeat eexists.
Qed.

Lemma ConvTranspose2d_forward_chan4 (m : ConvTranspose2d) (x y : Tensor R) :
  ConvTranspose2d_forward m x = Ok y → length (shape x) = 4%nat →
  chan4 (convT_out_channels m) (shape y).
Proof.
  unfold ConvTranspose2d_forward. intros Hy Hx.
  destruct (shape x) as [|n [|c [|h [|w [|? ?]]]]]; try discriminate.
  apply result_bind_inv in Hy. destruct Hy as (_ & _ & [= <-]).
  repeat eexists.
Qed.

Lemma GroupNorm_forward_inv (m : GroupNorm) (x y : Tensor R) c :
  GroupNorm_forward m x = Ok y → chan4 c (shape x) →
  shape y = shape x ∧ c = gn_num_channels m.
Proof.
  unfold GroupNorm_forward. intros Hy (n & h & w & Hx). rewrite Hx in *.
  apply result_bind_inv in Hy. destruct Hy as (q & _ & Hy).
  apply result_bind_inv in Hy. destruct Hy as (_ & _ & Hy).
  destruct (Z.eqb_spec c (gn_num_channels m)); [|discriminate].
  injection Hy as <-. auto.
Qed.

Lemma chan4_length c s : chan4 c s → length s = 4%nat.
Proof. by intros (n & h & w & ->). Qed.

Lemma tensor_add_chan4 c (a b out : Tensor R) :
  tensor_add a b = Ok out → chan4 c (shape a) → chan4 c (shape b) → chan4 c (shape out).
Proof.
  unfold tensor_add, tensor_binop. intros Ho Ha Hb.
  destruct (broadcast_shapes (shape a) (shape b)) as [s|] eqn:E; [|discriminate].
  injection Ho as <-. exact (broadcast_chan4 _ _ _ _ Ha Hb E).
Qed.

Lemma reshape_keeps (x y : Tensor R) s :
  reshape x s = Ok y →
  length (shape y) = length s ∧ ∀ i d, s !! i = Some d → d ≠ -1 → shape y !! i = Some d.
Proof.
  unfold reshape. intros Hy. apply result_bind_inv in Hy.
  destruct Hy as (s' & Hs & [= <-]). exact (infer_shape_keeps _ _ _ Hs).
Qed.

Lemma unpatchify_chan4 (self : DiffiTResBlock) (f u : Tensor R) :
  unpatchify self f = Ok u → 0 ≤ channels self → chan4 (channels self) (shape u).
Proof.
  unfold unpatchify. intros Hu Hc.
  destruct (shape f) as [|n [|t r]]; try discriminate.
  inv_result Hu.
  destruct (shape a1) as [|n' r']; [discriminate|].
  destruct (reshape_keeps _ _ _ Hu) as [Hlen Hk].
  pose proof (Hk 1%nat (channels self) eq_refl ltac:(lia)) as H1.
  destruct (shape u) as [|u0 [|u1 [|u2 [|u3 [|? ?]]]]]; try discriminate.
  injection H1 as ->. repeat eexists.
Qed.

Lemma DiffiTResBlock_forward_chan4 (self : DiffiTResBlock) (x c y : Tensor R) hc :
  block_ok self = true →
  DiffiTResBlock_forward self x c = Ok y → chan4 hc (shape x) → chan4 hc (shape y).
Proof.
  unfold block_ok. intros Hok Hy Hx.
  apply andb_prop in Hok. destruct Hok as [Hok H0].
  apply andb_prop in Hok. destruct Hok as [Hgn Hcv].
  apply Z.eqb_eq in Hgn, Hcv. apply Z.leb_le in H0.
  unfold DiffiTResBlock_forward in Hy.
  apply result_bind_inv in Hy. destruct Hy as (x' & Ex' & Hy).
  apply result_bind_inv in Hy. destruct Hy as (f & Ef & Hy).
  apply result_bind_inv in Hy. destruct Hy as (u & Eu & Hy).
  unfold block_conv in Ex'.
  apply result_bind_inv in Ex'. destruct Ex' as (x1 & E1 & Ex').
  destruct (GroupNorm_forward_inv _ _ _ _ E1 Hx) as [Hs1 ->].
  apply Conv2d_forward_chan4 in Ex';
    [|unfold SiLU_forward, tensor_map; cbn [shape]; rewrite Hs1;
      exact (chan4_length _ _ Hx)].
  rewrite Hcv in Ex'. rewrite Hgn.
  eapply tensor_add_chan4; [exact Hy | | exact Ex'].
  exact (unpatchify_chan4 _ _ _ Eu H0).
Qed.

Lemma forward_blocks_chan4 bs (x c y : Tensor R) hc :
  forallb block_ok bs = true →
  forward_blocks bs x c = Ok y → chan4 hc (shape x) → chan4 hc (shape y).
Proof.
  revert x. induction bs as [|b bs IH]; intros x Hok Hy Hx.
  - injection Hy as <-. exact Hx.
  - cbn in Hok. apply andb_prop in Hok. destruct Hok as [Hb Hbs].
    cbn [forward_blocks] in Hy.
    apply result_bind_inv in Hy. destruct Hy as (x' & Ex' & Hy).
    eapply IH; [exact Hbs | exact Hy |].
    exact (DiffiTResBlock_forward_chan4 _ _ _ _ _ Hb Ex' Hx).
Qed.

Lemma call_xc_chan4 (v : pyval) (x c y : Tensor R) hc :
  module_ok v = true →
  call_xc v x c = Ok y → chan4 hc (shape x) → chan4 hc (shape y).
Proof.
  intros Hok Hy Hx. destruct v; try discriminate; cbn in Hok, Hy.
  - exact (DiffiTResBlock_forward_chan4 _ _ _ _ _ Hok Hy Hx).
  - exact (forward_blocks_chan4 _ _ _ _ _ Hok Hy Hx).
Qed.
End channels.

Section wiring.
Context {R : Type} {BE : Backend R}.

Lemma step_down hc self name m (x y : Tensor R) :
  wired hc self → name ∈ ["downsample_1"; "downsample_2"; "downsample_3"] →
  getattr self name = Ok m → call_x m x = Ok y →
  chan4 hc (shape x) → chan4 hc (shape y).
Proof.
  intros (_ & Hd & _) Hn Hm Hy Hx. apply getattr_inv in Hm.
  destruct (Hd name Hn) as (d & Hl & <-). rewrite Hl in Hm. injection Hm as <-.
  exact (Conv2d_forward_chan4 _ _ _ Hy (chan4_length _ _ Hx)).
Qed.

Lemma step_up hc self name m (x y : Tensor R) :
  wired hc self → name ∈ ["upsample_1"; "upsample_2"; "upsample_3"] →
  getattr self name = Ok m → call_x m x = Ok y →
  chan4 hc (shape x) → chan4 hc (shape y).
Proof.
  intros (_ & _ & Hu & _) Hn Hm Hy Hx. apply getattr_inv in Hm.
  destruct (Hu name Hn) as (u & Hl & <-). rewrite Hl in Hm. injection Hm as <-.
  exact (ConvTranspose2d_forward_chan4 _ _ _ Hy (chan4_length _ _ Hx)).
Qed.

Lemma step_stack hc self name m (x c y : Tensor R) :
  wired hc self →
  name ∈ ["resBlock1"; "resBlock2"; "resBlock3"; "resBlock4"; "resBlock3up"; "resBlock1Up"] →
  getattr self name = Ok m → call_xc m x c = Ok y →
  chan4 hc (shape x) → chan4 hc (shape y).
Proof.
  intros (_ & _ & _ & Hs & _) Hn Hm Hy Hx. apply getattr_inv in Hm.
  exact (call_xc_chan4 _ _ _ _ _ (Hs name m Hn Hm) Hy Hx).
Qed.

Lemma step_tokenizer hc self m (x y : Tensor R) :
  wired hc self → getattr self "tokenizer" = Ok m → call_x m x = Ok y →
  length (shape x) = 4%nat → chan4 hc (shape y).
Proof.
  intros ((tok & Hl & <-) & _) Hm Hy Hx. apply getattr_inv in Hm.
  rewrite Hl in Hm. injection Hm as <-.
  exact (Conv2d_forward_chan4 _ _ _ Hy Hx).
Qed.

Lemma step_head hc self m (x y : Tensor R) :
  wired hc self → getattr self "head" = Ok m → call_x m x = Ok y →
  chan4 hc (shape x) → hc = 128 ∧ chan4 3 (shape y).
Proof.
  intros (_ & _ & _ & _ & (wg & wc & Hl)) Hm Hy Hx. apply getattr_inv in Hm.
  rewrite Hl in Hm. injection Hm as <-.
  cbn [call_x] in Hy. unfold Head_forward in Hy.
  apply result_bind_inv in Hy. destruct Hy as (x1 & E1 & Hy).
  destruct (GroupNorm_forward_inv _ _ _ _ E1 Hx) as [Hs ->].
  split; [reflexivity|].
  apply Conv2d_forward_chan4 in Hy; [exact Hy|].
  rewrite Hs. exact (chan4_length _ _ Hx).
Qed.

(** On a wired instance a forward pass that returns has gone through the
    head with [hc] channels. *)
Lemma forward_wired hc (self : gmap string pyval) g (x : Tensor R) t y out :
  wired hc self → length (shape x) = 4%nat →
  forward self g x t y = Ok out → hc = 128 ∧ chan4 3 (shape out).
Proof.
  intros Hw Hx Hf. unfold forward in Hf.
  do 5 (apply result_bind_inv in Hf;
        let a := fresh "a" in let E := fresh "E" in
        destruct Hf as (a & E & Hf); cbv beta zeta in Hf).
  apply result_bind_inv in Hf. destruct Hf as (mt & Emt & Hf).
  apply result_bind_inv in Hf. destruct Hf as (x1 & Ex1 & Hf).
  pose proof (step_tokenizer _ _ _ _ _ Hw Emt Ex1 Hx) as C1.
  apply result_bind_inv in Hf. destruct Hf as (m1 & Em1 & Hf).
  apply result_bind_inv in Hf. destruct Hf as (x1' & Ex1' & Hf).
  pose proof (step_stack _ _ "resBlock1" _ _ _ _ Hw ltac:(set_solver) Em1 Ex1' C1) as C1'.
  apply result_bind_inv in Hf. destruct Hf as (md1 & Emd1 & Hf).
  apply result_bind_inv in Hf. destruct Hf as (x2 & Ex2 & Hf).
  pose proof (step_down _ _ "downsample_1" _ _ _ Hw ltac:(set_solver) Emd1 Ex2 C1') as C2.
  apply result_bind_inv in Hf. destruct Hf as (m2 & Em2 & Hf).
  apply result_bind_inv in Hf. destruct Hf as (x2' & Ex2' & Hf).
  pose proof (step_stack _ _ "resBlock2" _ _ _ _ Hw ltac:(set_solver) Em2 Ex2' C2) as C2'.
  apply result_bind_inv in Hf. destruct Hf as (md2 & Emd2 & Hf).
  apply result_bind_inv in Hf. destruct Hf as (x3 & Ex3 & Hf).
  pose proof (step_down _ _ "downsample_2" _ _ _ Hw ltac:(set_solver) Emd2 Ex3 C2') as C3.
  apply result_bind_inv in Hf. destruct Hf as (m3 & Em3 & Hf).
  apply result_bind_inv in Hf. destruct Hf as (x3' & Ex3' & Hf).
  pose proof (step_stack _ _ "resBlock3" _ _ _ _ Hw ltac:(set_solver) Em3 Ex3' C3) as C3'.
  apply result_bind_inv in Hf. destruct Hf as (md3 & Emd3 & Hf).
  apply result_bind_inv in Hf. destruct Hf as (x4 & Ex4 & Hf).
  pose proof (step_down _ _ "downsample_3" _ _ _ Hw ltac:(set_solver) Emd3 Ex4 C3') as C4.
  apply result_bind_inv in Hf. destruct Hf as (m4 & Em4 & Hf).
  apply result_bind_inv in Hf. destruct Hf as (x4' & Ex4' & Hf).
  pose proof (step_stack _ _ "resBlock4" _ _ _ _ Hw ltac:(set_solver) Em4 Ex4' C4) as C4'.
  apply result_bind_inv in Hf. destruct Hf as (mu1 & Emu1 & Hf).
  apply result_bind_inv in Hf. destruct Hf as (u1 & Eu1 & Hf).
  pose proof (step_up _ _ "upsample_1" _ _ _ Hw ltac:(set_solver) Emu1 Eu1 C4') as U1.
  apply result_bind_inv in Hf. destruct Hf as (y3 & Ey3 & Hf).
  pose proof (tensor_add_chan4 _ _ _ _ Ey3 C3' U1) as D3.
  apply result_bind_inv in Hf. destruct Hf as (m3u & Em3u & Hf).
  apply result_bind_inv in Hf. destruct Hf as (y3' & Ey3' & Hf).
  pose proof (step_stack _ _ "resBlock3up" _ _ _ _ Hw ltac:(set_solver) Em3u Ey3' D3) as D3'.
  apply result_bind_inv in Hf. destruct Hf as (mu2 & Emu2 & Hf).
  apply result_bind_inv in Hf. destruct Hf as (u2 & Eu2 & Hf).
  pose proof (step_up _ _ "upsample_2" _ _ _ Hw ltac:(set_solver) Emu2 Eu2 D3') as U2.
  apply result_bind_inv in Hf. destruct Hf as (y2 & Ey2 & Hf).
  pose proof (tensor_add_chan4 _ _ _ _ Ey2 C2' U2) as D2.
  apply result_bind_inv in Hf. destruct Hf as (m2u & Em2u & Hf).
  apply result_bind_inv in Hf. destruct Hf as (y2' & Ey2' & Hf).
  pose proof (step_stack _ _ "resBlock2" _ _ _ _ Hw ltac:(set_solver) Em2u Ey2' D2) as D2'.
  apply result_bind_inv in Hf. destruct Hf as (mu3 & Emu3 & Hf).
  apply result_bind_inv in Hf. destruct Hf as (u3 & Eu3 & Hf).
  pose proof (step_up _ _ "upsample_3" _ _ _ Hw ltac:(set_solver) Emu3 Eu3 D2') as U3.
  apply result_bind_inv in Hf. destruct Hf as (y1 & Ey1 & Hf).
  pose proof (tensor_add_chan4 _ _ _ _ Ey1 C1' U3) as D1.
  apply result_bind_inv in Hf. destruct Hf as (m1u & Em1u & Hf).
  apply result_bind_inv in Hf. destruct Hf as (y1' & Ey1' & Hf).
  pose proof (step_stack _ _ "resBlock1Up" _ _ _ _ Hw ltac:(set_solver) Em1u Ey1' D1) as D1'.
  apply result_bind_inv in Hf. destruct Hf as (mh & Emh & Hf).
  exact (step_head _ _ _ _ _ Hw Emh Hf D1').
Qed.
End wiring.

Section head.
Context {R : Type} {BE : Backend R}.

Lemma modules_ok_lookup (self : gmap string pyval) name v :
  modules_ok self = true → self !! name = Some v → module_ok v = true.
Proof.
  intros Hok Hl. unfold modules_ok in Hok. rewrite forallb_forall in Hok.
  apply (Hok (name, v)), list_elem_of_In, elem_of_map_to_list, Hl.
Qed.

Lemma init_wired factory a w self w' v3 v4 :
  ImageDiffiT_init_with factory a w = Ok (self, w') →
  modules_ok (<["resBlock3" := v3]> (<["resBlock4" := v4]> self)) = true →
  wired (arg_hidden_channels a) (<["resBlock3" := v3]> (<["resBlock4" := v4]> self)).
Proof.
  intros Hi Hok.
  pose proof (fun name v => modules_ok_lookup _ name v Hok) as Hmod. clear Hok.
  apply ImageDiffiT_init_with_inv in Hi.
  destruct Hi as (tok & te & le & s1 & d1 & s2 & d2 & s3 & d3 & s4 & u1 & s3u & u2
                  & s2u & u3 & s1u & wh & Htok & (Hd1 & Hd2 & Hd3)
                  & (Hu1 & Hu2 & Hu3) & ->).
  repeat split.
  - exists tok. split; [reflexivity | exact Htok].
  - intros name Hn. set_unfold in Hn. destruct_or!; subst; try done; eexists; (split; [reflexivity|assumption]).
  - intros name Hn. set_unfold in Hn. destruct_or!; subst; try done; eexists; (split; [reflexivity|assumption]).
  - intros name v Hn Hv. eapply Hmod. exact Hv.
  - do 2 eexists. reflexivity.
Qed.

(** What line 247 would assign.  With any stack factory in the place of
    [all_equals], the head of an instance that [__init__] returns is
    [Head()]: group normalisation over 8 groups of 128 channels and a
    convolution from 128 to 3 channels; the configured [hidden_channels] and
    [channels] play no part.  On such an instance, completed with the two
    stacks [__init__] leaves unassigned, a forward pass on a rank-4 input
    that returns has [hidden_channels = 128] and an output of exactly 3
    channels.  The constructor of the source returns no instance
    ([head_never_constructed] below). *)
Lemma head_of_returned_instance
    (factory : Z → gmap string pyval → ctor pyval) (a : ImageDiffiT_args)
    (w w' : nat) (self : gmap string pyval) (v3 v4 : pyval)
    (g : rng) (x : Tensor R) (t y : Tensor Z) :
  ImageDiffiT_init_with factory a w = Ok (self, w') →
  (∃ wg wc, self !! "head"
            = Some (VHead (mkHead (mkGroupNorm 8 128 wg) (mkConv2d 128 3 3 1 1 wc))))
  ∧ (let completed := <["resBlock3" := v3]> (<["resBlock4" := v4]> self) in
     modules_ok completed = true → length (shape x) = 4%nat →
     is_ok (forward completed g x t y) = true →
     arg_hidden_channels a = 128
     ∧ ∃ n h w, shape <$> forward completed g x t y = Ok [n; 3; h; w]).
Proof.
  intros Hi. split.
  - destruct (ImageDiffiT_init_with_inv _ _ _ _ _ Hi)
      as (tok & te & le & s1 & d1 & s2 & d2 & s3 & d3 & s4 & u1 & s3u & u2
          & s2u & u3 & s1u & wh & _ & _ & _ & ->).
    do 2 eexists. reflexivity.
  - intros completed Hok Hx Hf.
    apply is_ok_inv in Hf. destruct Hf as (out & Hf).
    destruct (forward_wired _ _ _ _ _ _ _ (init_wired _ _ _ _ _ v3 v4 Hi Hok) Hx Hf)
      as [Hhc (n & h & w0 & Hs)].
    split; [exact Hhc|]. exists n, h, w0. fold completed. rewrite Hf. cbn. by rewrite Hs.
Qed.

(** C9 (the code departs from the claim).  The claim has every network
    built with the head [Head()] and every output of 3 channels.  For every
    configuration, [ImageDiffiT.__init__] raises before [self.head = Head()]
    (line 247) is reached: the exception is that of one of the two
    assertions (lines 218-219), of the tokenizer (line 221), or of the first
    call of [all_equals] (line 234), which returns for no argument.  So no
    head is constructed, and building the network and calling [forward]
    returns no output, of 3 channels or of any other number. *)
Theorem head_never_constructed (a : ImageDiffiT_args) (w : nat)
    (g : rng) (x : Tensor R) (t y : Tensor Z) :
  (∃ e, ImageDiffiT_init a w = Raise e
        ∧ ((arg_num_heads a = 0 ∧ e = ZeroDivisionError)
           ∨ (arg_hidden_size a `mod` arg_num_heads a ≠ 0
              ∧ e = AssertionError "hidden_size must be divisible by num_heads")
           ∨ (arg_num_groups a = 0 ∧ e = ZeroDivisionError)
           ∨ (arg_hidden_channels a `mod` arg_num_groups a ≠ 0
              ∧ e = AssertionError "hidden_channels must be divisible by num_groups")
           ∨ Tokenizer_init (arg_channels a) (arg_hidden_channels a) w = Raise e
           ∨ ∃ w1, all_equals (arg_l1 a) (get_block_params a 1 (arg_img_size a)) w1
                   = Raise e))
  ∧ is_ok (run_forward ImageDiffiT_init a g x t y) = false.
Proof.
  split.
  - unfold ImageDiffiT_init, ImageDiffiT_init_with. cbv zeta.
    unfold mbind at 1, ctor_bind at 1, lift at 1, py_mod.
    destruct (Z.eqb_spec (arg_num_heads a) 0) as [Hnh|Hnh];
      [eexists; split; [reflexivity | left; auto]|].
    unfold mbind at 1, ctor_bind at 1, lift at 1, py_assert.
    destruct (Z.eqb_spec (arg_hidden_size a `mod` arg_num_heads a) 0) as [Hhs|Hhs];
      [|eexists; split; [reflexivity | right; left; auto]].
    unfold mbind at 1, ctor_bind at 1, lift at 1.
    destruct (Z.eqb_spec (arg_num_groups a) 0) as [Hng|Hng];
      [eexists; split; [reflexivity | do 2 right; left; auto]|].
    unfold mbind at 1, ctor_bind at 1, lift at 1.
    destruct (Z.eqb_spec (arg_hidden_channels a `mod` arg_num_groups a) 0) as [Hhc|Hhc];
      [|eexists; split; [reflexivity | do 3 right; left; auto]].
    unfold mbind at 1, ctor_bind at 1.
    destruct (Tokenizer_init (arg_channels a) (arg_hidden_channels a) w)
      as [[tok w1]|e] eqn:Et;
      [|eexists; split; [reflexivity | do 4 right; left; reflexivity]].
    unfold mbind at 1, ctor_bind at 1, TimestepEmbedder_init at 1.
    unfold mbind at 1, ctor_bind at 1, fresh_weights at 1, mret at 1, ctor_ret at 1.
    unfold mbind at 1, ctor_bind at 1, LabelEmbedder_init at 1.
    unfold mbind at 1, ctor_bind at 1, fresh_weights at 1, mret at 1, ctor_ret at 1.
    unfold mbind at 1, ctor_bind at 1, fmap at 1, ctor_fmap at 1.
    destruct (all_equals (arg_l1 a) (get_block_params a 1 (arg_img_size a)) (S (S w1)))
      as [[b w2]|e] eqn:Ea.
    + destruct (all_equals_raises _ _ _ _ Ea).
    + exists e. split; [reflexivity|]. do 5 right. exists (S (S w1)). exact Ea.
  - apply not_ok_inv. intros out Hr. unfold run_forward in Hr.
    apply result_bind_inv in Hr. destruct Hr as ([self w'] & Hi & _).
    exact (ImageDiffiT_init_raises _ _ _ Hi).
Qed.
End head.


(** * The theorems at concrete inputs *)

(** The constructor builds [small_block] and [odd_block]. *)
Example small_block_built :
  DiffiTResBlock_new [] (kwargs_of 4 2 2 4 2 1) 0%nat = Ok (small_block, 5%nat).
Proof. reflexivity. Qed.

Example odd_block_built :
  DiffiTResBlock_new [] (kwargs_of 5 2 2 4 2 1) 0%nat = Ok (odd_block, 5%nat).
Proof. reflexivity. Qed.

(** C3 at [small_block], on a batch of three 4×4 maps. *)
Lemma DiffiTResBlock_forward_shape_witness :
  valid_block_config 4 2 2 4 2 1
  ∧ DiffiTResBlock_new [] (kwargs_of 4 2 2 4 2 1) 0%nat = Ok (small_block, 5%nat)
  ∧ 0 < 3
  ∧ normalisable 3 2 1 4
  ∧ shape (arange [3; 2; 4; 4]) = [3; 2; 4; 4]
  ∧ shape (arange [3; 4]) = [3; 4]
  ∧ ∃ x' f u out,
      block_conv small_block (arange [3; 2; 4; 4]) = Ok x'
      ∧ block_tokens small_block x' (arange [3; 4]) = Ok f
      ∧ unpatchify small_block f = Ok u
      ∧ DiffiTResBlock_forward small_block (arange [3; 2; 4; 4]) (arange [3; 4]) = Ok out
      ∧ shape out = shape (arange [3; 2; 4; 4])
      ∧ ∀ idx, in_range (shape (arange [3; 2; 4; 4])) idx →
               data out idx = radd (data u idx) (data x' idx).
Proof.
  assert (Hv : valid_block_config 4 2 2 4 2 1)
    by (unfold valid_block_config; repeat split; (lia || reflexivity)).
  assert (Hn : normalisable 3 2 1 4) by (unfold normalisable; cbn; lia).
  split; [exact Hv|]. split; [reflexivity|]. split; [lia|]. split; [exact Hn|].
  split; [reflexivity|]. split; [reflexivity|].
  apply (DiffiTResBlock_forward_shape 4 2 2 4 2 1 0%nat small_block 5%nat 3);
    (exact Hv || exact Hn || reflexivity || lia).
Defined.

(** C3, the claim as stated fails.  [single_value_block] is built from a
    valid configuration; on one 1×1 map each of its normalisation groups
    holds a single value, and group normalisation raises. *)
Lemma DiffiTResBlock_forward_single_value :
  valid_block_config 1 2 1 4 8 8
  ∧ DiffiTResBlock_new [] (kwargs_of 1 2 1 4 8 8) 0%nat = Ok (single_value_block, 5%nat)
  ∧ shape (arange [1; 8; 1; 1]) = [1; 8; 1; 1]
  ∧ shape (arange [1; 4]) = [1; 4]
  ∧ DiffiTResBlock_forward single_value_block (arange [1; 8; 1; 1]) (arange [1; 4])
    = Raise (ValueError "Expected more than 1 value per channel when training").
Proof.
  split; [unfold valid_block_config; repeat split; (lia || reflexivity)|].
  repeat split; vm_compute; reflexivity.
Qed.

(** C7 at four tokens of eight values: a 2×2 grid of 2×2 patches of two
    channels gives a 4×4 map, which is not a 5×5 one. *)
Lemma unpatchify_checks_square_only_witness :
  0 ≤ 2 ∧ 0 ≤ 1 ∧ 0 ≤ 4
  ∧ shape (arange [1; 4; 8]) = [1; 4; 2 * 2 * 2]
  ∧ Z.sqrt 4 * Z.sqrt 4 = 4
  ∧ ∃ imgs, unpatchify small_block (arange [1; 4; 8]) = Ok imgs
            ∧ shape imgs = [1; 2; 4; 4]
            ∧ (shape imgs = [1; 2; 5; 5] ↔ 4 = 5 ∧ 4 = 5).
Proof.
  split; [lia|]. split; [lia|]. split; [lia|]. split; [reflexivity|].
  split; [reflexivity|].
  destruct (unpatchify_checks_square_only small_block (arange [1; 4; 8]) 1 4 5 5)
    as [_ Hok]; [cbn; lia | cbn; lia | lia | lia | reflexivity |].
  exact (Hok eq_refl).
Defined.

(** C7, the claim as stated fails.  [odd_block] is built for 5×5 feature
    maps and patches of side 2, so its grid has 2×2 patches.  On a 5×5
    input the post-convolution tensor is 5×5, the tokens reconstruct to 4×4,
    and [unpatchify] returns that 4×4 tensor: the disagreement with the
    original H×W raises nothing in [unpatchify].  It is the residual
    addition after it that raises. *)
Lemma unpatchify_accepts_size_disagreement :
  let x := arange [1; 2; 5; 5] in
  let c := arange [1; 4] in
  shape <$> block_conv odd_block x = Ok [1; 2; 5; 5]
  ∧ shape <$> (x' ← block_conv odd_block x; block_tokens odd_block x' c) = Ok [1; 4; 8]
  ∧ shape <$> (x' ← block_conv odd_block x; f ← block_tokens odd_block x' c;
               unpatchify odd_block f) = Ok [1; 2; 4; 4]
  ∧ DiffiTResBlock_forward odd_block x c
    = Raise (RuntimeError "the sizes of the tensors must match").
Proof. repeat split; vm_compute; reflexivity. Qed.

(** C5 on integers, for a doubled batch of two: at weight 3 the first
    entry of the result is 0 + 3 · (0 − 20) + 20 = −40, in both halves of
    the batch, and the fourth channel is untouched; at weight 1 the first
    half of the result is the first half of the model output. *)
Lemma cfg_combine_interpolates_witness :
  0 < 2 ∧ 0 ≤ 5
  ∧ shape (arange [4; 5; 1; 2]) = [2 * 2; 5; 1; 2]
  ∧ (∃ out,
       cfg_combine 3 (arange [4; 5; 1; 2]) = Ok out
       ∧ shape out = [2 * 2; 5; 1; 2]
       ∧ data out [0; 0; 0; 0] = -40 ∧ data out [0 + 2; 0; 0; 0] = -40
       ∧ data out [0; 3; 0; 0] = 6 ∧ data out [0 + 2; 3; 0; 0] = 26)
  ∧ ∃ out,
      cfg_combine 1 (arange [4; 5; 1; 2]) = Ok out
      ∧ tensor_eq (narrow 0 0 2 out) (narrow 0 0 2 (arange [4; 5; 1; 2])).
Proof.
  split; [lia|]. split; [lia|]. split; [reflexivity|].
  destruct (cfg_combine_interpolates 3 (arange [4; 5; 1; 2]) (arange [4; 5; 1; 2])
              2 5 1 2) as [Hgen Hone]; [lia | lia |].
  split; [|exact (Hone eq_refl)].
  destruct (Hgen eq_refl) as (out & E & Hs & Hd).
  exists out. split; [exact E|]. split; [exact Hs|].
  pose proof (Hd 0 0 0 0 ltac:(lia) ltac:(lia) ltac:(lia) ltac:(lia)) as Hc0.
  pose proof (Hd 0 3 0 0 ltac:(lia) ltac:(lia) ltac:(lia) ltac:(lia)) as Hc3.
  cbv zeta in Hc0, Hc3.
  destruct Hc0 as [Hlt _]. destruct (Hlt ltac:(lia)) as [H1 H2].
  destruct Hc3 as [_ Hge]. destruct (Hge ltac:(lia)) as [H3 H4].
  rewrite H1, H2, H3, H4. repeat split; reflexivity.
Defined.

(** C5, the claim as stated fails.  On [cancelling_output], in binary64,
    the difference [cond_eps − uncond_eps] = 1.0 + 1e17 rounds to 1e17, so
    [uncond_eps + 1.0 · (cond_eps − uncond_eps)] is 0.0: at weight 1 the
    first half of the result is not the conditional prediction 1.0. *)
Lemma cfg_combine_weight_one_rounds :
  shape cancelling_output = [2 * 1; 3; 1; 1]
  ∧ ∃ out,
      cfg_combine (H := float_backend) 1%float cancelling_output = Ok out
      ∧ data cancelling_output [0; 0; 0; 0] = 1%float
      ∧ data out [0; 0; 0; 0] = 0%float
      ∧ PrimFloat.eqb (data out [0; 0; 0; 0]) (data cancelling_output [0; 0; 0; 0]) = false
      ∧ ¬ tensor_eq (narrow 0 0 1 out) (narrow 0 0 1 cancelling_output).
Proof.
  split; [reflexivity|].
  destruct (is_ok_inv (cfg_combine (H := float_backend) 1%float cancelling_output))
    as [out E]; [vm_compute; reflexivity|].
  exists out. split; [exact E|].
  assert (Hv : data out [0; 0; 0; 0] = 0%float).
  { assert (Hf : (fun o => data o [0; 0; 0; 0])
                   <$> cfg_combine (H := float_backend) 1%float cancelling_output
                 = Ok 0%float) by (vm_compute; reflexivity).
    rewrite E in Hf. injection Hf as Hf. exact Hf. }
  assert (Hs : shape out = [2; 3; 1; 1]).
  { assert (Hf : shape <$> cfg_combine (H := float_backend) 1%float cancelling_output
                 = Ok [2; 3; 1; 1]) by (vm_compute; reflexivity).
    rewrite E in Hf. injection Hf as Hf. exact Hf. }
  split; [reflexivity|]. split; [exact Hv|]. split; [rewrite Hv; reflexivity|].
  intros [_ Hd]. specialize (Hd [0; 0; 0; 0]).
  assert (Hr : in_range (shape (narrow 0 0 1 out)) [0; 0; 0; 0])
    by (unfold narrow; cbn [shape]; rewrite Hs; repeat constructor; lia).
  specialize (Hd Hr). cbn in Hd. change (0 + 0) with 0 in Hd. cbv iota in Hd.
  rewrite Hv in Hd.
  assert (Eb : PrimFloat.eqb 0 1 = PrimFloat.eqb 1 1) by (rewrite Hd; reflexivity).
  vm_compute in Eb. discriminate.
Qed.

(** The guidance arithmetic on numbers: weight 3 on a model output that
    counts its entries. *)
Example cfg_combine_weight_3 :
  to_list <$> cfg_combine 3 (arange [4; 5; 1; 2])
  = Ok [-40; -39; -38; -37; -36; -35; 6; 7; 8; 9;
        -30; -29; -28; -27; -26; -25; 16; 17; 18; 19;
        -40; -39; -38; -37; -36; -35; 26; 27; 28; 29;
        -30; -29; -28; -27; -26; -25; 36; 37; 38; 39].
Proof. vm_compute. reflexivity. Qed.

(** An empty batch is not split in two. *)
Example cfg_combine_empty_batch :
  shape <$> cfg_combine 3 (arange [0; 5; 1; 2])
  = Raise (ValueError "not enough values to unpack").
Proof. vm_compute. reflexivity. Qed.

Example unpatchify_small :
  to_list <$> unpatchify odd_block (arange [1; 4; 8])
  = Ok [0; 2; 8; 10; 4; 6; 12; 14; 16; 18; 24; 26; 20; 22; 28; 30;
        1; 3; 9; 11; 5; 7; 13; 15; 17; 19; 25; 27; 21; 23; 29; 31].
Proof. vm_compute. reflexivity. Qed.

Example unpatchify_not_square :
  shape <$> unpatchify odd_block (arange [3; 5; 8]) = Raise (AssertionError no_message).
Proof. vm_compute. reflexivity. Qed.

(** The test at the end of the source: [ImageDiffiT(img_size=64)] on a
    batch of five images. *)
Example unet_forward_test :
  shape <$> run_forward ImageDiffiT_init (default_args 64) no_draws test_x test_t test_y
  = Raise (TypeError "unsupported operand type(s) for %").
Proof. vm_compute. reflexivity. Qed.

Example unet_forward_with_cfg_test :
  shape <$> run_forward_with_cfg ImageDiffiT_init (default_args 64) no_draws
              test_x test_t test_y 1
  = Raise (TypeError "unsupported operand type(s) for %").
Proof. vm_compute. reflexivity. Qed.

(** With the factory of the docstring the model is built; [forward] then
    hands the half-size feature map to the stack left under [resBlock2],
    the one built for the eighth of the size. *)
Example unet_forward_test_documented :
  shape <$> run_forward ImageDiffiT_init_documented (default_args 64) no_draws
              test_x test_t test_y
  = Raise (AssertionError "Input height doesn't match model").
Proof. vm_compute. reflexivity. Qed.

(** When that stack is empty, [forward] reaches [self.resBlock3]. *)
Example unet_forward_unassigned_stack :
  shape <$> run_forward ImageDiffiT_init_documented example_args no_draws
              (arange [1; 3; 16; 16]) (const_tensor [1] 7) (const_tensor [1] 3)
  = Raise (AttributeError "resBlock3").
Proof. vm_compute. reflexivity. Qed.

(** Once the two stacks are supplied, the pass returns the shape of its
    input. *)
Example forward_completed_shape :
  shape <$> forward example_completed no_draws
              (arange [1; 3; 16; 16]) (const_tensor [1] 7) (const_tensor [1] 3)
  = Ok [1; 3; 16; 16].
Proof. vm_compute. reflexivity. Qed.

(** The head of the instance built with the factory of the docstring and
    completed by hand: [hidden_channels] is 128 and the pass returns. *)
Example head_of_completed_instance :
  ImageDiffiT_init_documented example_args 0%nat = Ok (example_self, 41%nat)
  ∧ modules_ok example_completed = true
  ∧ length (shape (arange [1; 3; 16; 16])) = 4%nat
  ∧ is_ok (forward example_completed no_draws
             (arange [1; 3; 16; 16]) (const_tensor [1] 7) (const_tensor [1] 3)) = true
  ∧ (∃ wg wc, example_self !! "head"
              = Some (VHead (mkHead (mkGroupNorm 8 128 wg) (mkConv2d 128 3 3 1 1 wc))))
  ∧ arg_hidden_channels example_args = 128
  ∧ ∃ n h w,
      shape <$> forward example_completed no_draws
                  (arange [1; 3; 16; 16]) (const_tensor [1] 7) (const_tensor [1] 3)
      = Ok [n; 3; h; w].
Proof.
  assert (Hi : ImageDiffiT_init_documented example_args 0%nat = Ok (example_self, 41%nat))
    by (vm_compute; reflexivity).
  assert (Hm : modules_ok example_completed = true) by (vm_compute; reflexivity).
  assert (Hf : is_ok (forward example_completed no_draws
             (arange [1; 3; 16; 16]) (const_tensor [1] 7) (const_tensor [1] 3)) = true)
    by (vm_compute; reflexivity).
  split; [exact Hi|]. split; [exact Hm|]. split; [reflexivity|]. split; [exact Hf|].
  destruct (head_of_returned_instance _ example_args 0%nat 41%nat example_self
              example_level3 example_level4 no_draws
              (arange [1; 3; 16; 16]) (const_tensor [1] 7) (const_tensor [1] 3) Hi)
    as [Hh Hc].
  split; [exact Hh|]. exact (Hc Hm eq_refl Hf).
Qed.

(** C9 at [ImageDiffiT(img_size=64)]: the first call of [all_equals]
    raises, and so does the constructor. *)
Example head_never_constructed_default :
  all_equals 4 (get_block_params (default_args 64) 1 64) 3%nat
  = Raise (TypeError "unsupported operand type(s) for %")
  ∧ ImageDiffiT_init (default_args 64) 0%nat
    = Raise (TypeError "unsupported operand type(s) for %").
Proof. split; vm_compute; reflexivity. Qed.


(** * Further properties of the module

    The classes of [image_diffit.py] once more, now for what the code does
    beyond the statements above: the errors of the constructors, the
    invariants of the objects they build, the geometry [forward] accepts,
    the values [unpatchify] moves, and the test at the end of the
    module. *)

(** ** Constructors that returned *)

Lemma lift_inv {A} (r : result A) w a w' : lift r w = Ok (a, w') → r = Ok a ∧ w' = w.
Proof. destruct r; cbn; [intros [= <- <-]; auto | discriminate]. Qed.

Lemma GroupNorm_init_inv ng ch w m w' :
  GroupNorm_init ng ch w = Ok (m, w') →
  m = mkGroupNorm ng ch w ∧ w' = S w ∧ ng ≠ 0 ∧ ch `mod` ng = 0 ∧ 0 ≤ ch.
Proof.
  unfold GroupNorm_init.
  destruct (Z.eqb_spec ng 0); [discriminate|].
  destruct (Z.eqb_spec (ch `mod` ng) 0); [|discriminate].
  destruct (Z.ltb_spec ch 0); [discriminate|].
  cbn. intros [= <- <-]. auto.
Qed.

Lemma Conv2d_init_ok_inv cin cout k s p w m w' :
  Conv2d_init cin cout k s p w = Ok (m, w') →
  m = mkConv2d cin cout k s p w ∧ w' = S w ∧ 0 ≤ cin ∧ 0 ≤ cout ∧ 0 ≤ k.
Proof.
  unfold Conv2d_init.
  destruct (Z.ltb_spec cin 0); [discriminate|].
  destruct (Z.ltb_spec cout 0); [discriminate|].
  destruct (Z.ltb_spec k 0); [discriminate|].
  cbn. intros [= <- <-]. auto.
Qed.

Lemma Head_init_inv cin cout ng w head w' :
  Head_init cin cout ng w = Ok (head, w') →
  head = mkHead (mkGroupNorm ng cin w) (mkConv2d cin cout 3 1 1 (S w))
  ∧ w' = S (S w) ∧ ng ≠ 0 ∧ cin `mod` ng = 0 ∧ 0 ≤ cin ∧ 0 ≤ cout.
Proof.
  intros Hi. unfold Head_init in Hi. inv_ctor Hi.
  injection Hi as <- <-.
  apply lift_inv in E as [_ ->]. apply lift_inv in E0 as [_ ->].
  apply GroupNorm_init_inv in E1 as (-> & -> & Hng & Hm & Hc).
  apply Conv2d_init_ok_inv in E2 as (-> & -> & _ & Ho & _).
  auto 10.
Qed.

(** ** [Tokenizer] and [Head] *)

Lemma Tokenizer_init_inv cin cout w tok w' :
  Tokenizer_init cin cout w = Ok (tok, w') →
  tok = mkTokenizer (mkConv2d cin cout 3 1 1 w) ∧ w' = S w ∧ 0 ≤ cin ∧ 0 ≤ cout.
Proof.
  unfold Tokenizer_init. intros Hi. inv_ctor Hi. injection Hi as <- <-.
  apply Conv2d_init_ok_inv in E as (-> & -> & Hc & Ho & _). auto.
Qed.

(** X2.  [Head.__init__]: a zero [num_groups] raises [ZeroDivisionError]
    in the assertion itself; [in_channels] not divisible by [num_groups]
    fails the assertion, with its message; otherwise, for positive
    channel counts, the head is group normalisation over [num_groups]
    groups of [in_channels] channels followed by a 3×3 convolution of
    stride 1 and padding 1 to [out_channels] channels.  The assertion
    comes before [nn.GroupNorm], whose own divisibility check therefore
    never fires: no call raises [ValueError]. *)
Theorem Head_init_checks cin cout ng w :
  (ng = 0 → Head_init cin cout ng w = Raise ZeroDivisionError)
  ∧ (ng ≠ 0 → cin `mod` ng ≠ 0 →
     Head_init cin cout ng w
     = Raise (AssertionError "in_channels must be divisible by num_groups"))
  ∧ (ng ≠ 0 → cin `mod` ng = 0 → 0 < cin → 0 < cout →
     Head_init cin cout ng w
     = Ok (mkHead (mkGroupNorm ng cin w) (mkConv2d cin cout 3 1 1 (S w)), S (S w)))
  ∧ (∀ msg, Head_init cin cout ng w ≠ Raise (ValueError msg)).
Proof.
  repeat split.
  - intros ->. reflexivity.
  - intros Hng Hm. unfold Head_init. run_ctor. reflexivity.
  - intros Hng Hm Hc Ho. unfold Head_init. run_ctor. reflexivity.
  - intros msg. unfold Head_init, py_mod.
    destruct (Z.eqb_spec ng 0) as [->|Hng]; [discriminate|].
    destruct (Z.eqb_spec (cin `mod` ng) 0) as [Hm|Hm].
    + run_ctor.
      destruct (Z.ltb_spec cin 0); run_ctor; [discriminate|].
      destruct (Z.ltb_spec cout 0); run_ctor; discriminate.
    + run_ctor. discriminate.
Qed.

Section layers.
Context {R : Type} {BE : Backend R}.

(** X1.  A tokenizer built by [Tokenizer(in_channels, out_channels)], both
    positive, maps a batch of shape (B, in_channels, H, W), H, W ≥ 1, to
    one of shape (B, out_channels, H, W), as the docstring of [forward]
    says; a batch with another number of channels raises a
    [RuntimeError]. *)
Theorem Tokenizer_forward_shape cin cout w tok w' B C H W (x : Tensor R) :
  Tokenizer_init cin cout w = Ok (tok, w') →
  0 < cin → 0 < cout → 0 < H → 0 < W → shape x = [B; C; H; W] →
  (C = cin → ∃ y, Tokenizer_forward tok x = Ok y ∧ shape y = [B; cout; H; W])
  ∧ (C ≠ cin → ∃ msg, Tokenizer_forward tok x = Raise (RuntimeError msg)).
Proof.
  intros Hi Hci Hco HH HW Hx.
  destruct (Tokenizer_init_inv _ _ _ _ _ Hi) as (-> & _ & _ & _).
  unfold Tokenizer_forward, Conv2d_forward. rewrite Hx. cbn.
  split; intros HC.
  - subst C. zb. cbn. eexists. split; [reflexivity|]. cbn.
    by rewrite !conv_out_size_same.
  - zb. eexists. reflexivity.
Qed.

(** X3.  A head built by [Head(in_channels, out_channels, num_groups)],
    all three positive, maps a batch of shape (B, in_channels, H, W),
    H, W ≥ 1, to one of shape (B, out_channels, H, W), as the docstring
    says, unless group normalisation has a single value a group, that is
    (B·in_channels // num_groups)·H·W = 1, in which case it raises
    [ValueError]. *)
Theorem Head_forward_shape cin cout ng w head w' B H W (x : Tensor R) :
  Head_init cin cout ng w = Ok (head, w') → 0 < ng → 0 < cin → 0 < cout →
  0 < H → 0 < W → shape x = [B; cin; H; W] →
  ((B * cin) `div` ng * (H * W) ≠ 1 →
     ∃ y, Head_forward head x = Ok y ∧ shape y = [B; cout; H; W])
  ∧ ((B * cin) `div` ng * (H * W) = 1 →
     ∃ msg, Head_forward head x = Raise (ValueError msg)).
Proof.
  intros Hi Hng Hci Hco HH HW Hx.
  destruct (Head_init_inv _ _ _ _ _ _ Hi) as (-> & _ & _ & Hm & Hc & Ho).
  unfold Head_forward, GroupNorm_forward. rewrite Hx.
  cbn [head_groupNorm head_conv2d gn_num_groups gn_num_channels py_floordiv]. zb.
  cbn [mbind result_bind]. unfold verify_batch_size, numel. cbn [foldr].
  rewrite Z.mul_1_r.
  split; intros Hv.
  - zb. cbn [mbind result_bind].
    unfold Conv2d_forward. cbn. rewrite ?Hx. cbn. zb. cbn.
    eexists; split; [reflexivity|]. cbn. by rewrite !conv_out_size_same.
  - zb. eexists. reflexivity.
Qed.
End layers.

(** X1 at the tokenizer and the batch of the test in [main]. *)
Lemma Tokenizer_forward_shape_witness :
  Tokenizer_init 3 126 0%nat = Ok (mkTokenizer (mkConv2d 3 126 3 1 1 0), 1%nat)
  ∧ 0 < 3 ∧ 0 < 126 ∧ 0 < 64 ∧ shape (arange [5; 3; 64; 64]) = [5; 3; 64; 64]
  ∧ ∃ y, Tokenizer_forward (mkTokenizer (mkConv2d 3 126 3 1 1 0)) (arange [5; 3; 64; 64])
         = Ok y ∧ shape y = [5; 126; 64; 64].
Proof.
  split; [reflexivity|]. split; [lia|]. split; [lia|]. split; [lia|].
  split; [reflexivity|].
  destruct (Tokenizer_forward_shape 3 126 0%nat _ 1%nat 5 3 64 64 (arange [5; 3; 64; 64])
              eq_refl) as [Hok _]; [lia | lia | lia | lia | reflexivity |].
  exact (Hok eq_refl).
Defined.

(** X3 at the head and the batch of the test in [main]. *)
Lemma Head_forward_shape_witness :
  Head_init 128 3 8 0%nat
  = Ok (mkHead (mkGroupNorm 8 128 0) (mkConv2d 128 3 3 1 1 1), 2%nat)
  ∧ 0 < 8 ∧ 0 < 128 ∧ 0 < 3 ∧ 0 < 64
  ∧ shape (arange [5; 128; 64; 64]) = [5; 128; 64; 64]
  ∧ (5 * 128) `div` 8 * (64 * 64) ≠ 1
  ∧ ∃ y, Head_forward (mkHead (mkGroupNorm 8 128 0) (mkConv2d 128 3 3 1 1 1))
           (arange [5; 128; 64; 64]) = Ok y
         ∧ shape y = [5; 3; 64; 64].
Proof.
  assert (Hv : (5 * 128) `div` 8 * (64 * 64) ≠ 1) by (vm_compute; discriminate).
  split; [reflexivity|]. split; [lia|]. split; [lia|]. split; [lia|]. split; [lia|].
  split; [reflexivity|]. split; [exact Hv|].
  destruct (Head_forward_shape 128 3 8 0%nat _ 2%nat 5 64 64 (arange [5; 128; 64; 64])
              eq_refl) as [Hok _]; [lia | lia | lia | lia | lia | reflexivity |].
  exact (Hok Hv).
Defined.

(** ** [DiffiTResBlock.__init__] *)

Lemma py_mod_inv a b r : py_mod a b = Ok r → ∃ x y, a = VInt x ∧ b = VInt y ∧ y ≠ 0 ∧ r = x `mod` y.
Proof.
  destruct a, b; try discriminate. cbn.
  destruct (Z.eqb_spec z0 0); [discriminate|]. intros [= <-]. eauto 10.
Qed.

Lemma py_assert_inv cond msg u : py_assert cond msg = Ok u → cond = true.
Proof. destruct cond; [reflexivity | discriminate]. Qed.

Lemma PatchEmbed_init_inv img_size patch_size ch hs w pe w' :
  PatchEmbed_init img_size patch_size ch hs w = Ok (pe, w') →
  ∃ img p, img_size = VInt img ∧ patch_size = VInt p ∧ 0 < p
    ∧ pe = mkPatchEmbed img p (img `div` p * (img `div` p)) (mkConv2d ch hs p p 0 w)
    ∧ w' = S w ∧ 0 ≤ hs.
Proof.
  unfold PatchEmbed_init. intros Hi. inv_ctor Hi. injection Hi as <- <-.
  apply lift_inv in E as [E ->]. apply lift_inv in E0 as [E0 ->].
  apply lift_inv in E1 as [E1 ->].
  destruct img_size, patch_size; try discriminate.
  cbn in E, E0, E1. injection E0 as <-. injection E1 as <-.
  destruct (Z.eqb_spec z0 0); [discriminate|]. injection E as <-.
  apply Conv2d_init_ok_inv in E2 as (-> & -> & _ & Hh & Hp).
  exists z, z0. repeat split; try reflexivity; lia.
Qed.

Lemma infer_shape_rows_inv rows n s :
  0 ≤ rows → infer_shape n [rows; -1] = Ok s → rows ≠ 0.
Proof.
  intros Hr. unfold infer_shape.
  assert (F1 : filter (fun d => d = -1) [rows; -1] = [-1])
    by (rewrite filter_cons_False by lia; reflexivity).
  assert (F2 : filter (fun d => d ≠ -1) [rows; -1] = [rows])
    by (rewrite filter_cons_True by lia; reflexivity).
  rewrite F1, F2. cbn [length]. unfold numel. cbn [foldr]. rewrite Z.mul_1_r.
  destruct (Z.eqb_spec rows 0) as [->|]; [|done].
  rewrite andb_false_r. discriminate.
Qed.

(** The block a call of the constructor returns is determined by six
    integers and the first parameter set it draws. *)
Lemma DiffiTResBlock_init_inv a1 a2 a3 a4 a5 a6 w b w' :
  DiffiTResBlock_init a1 a2 a3 a4 a5 a6 w = Ok (b, w') →
  ∃ img nh p hs ch ng,
    a1 = VInt img ∧ a2 = VInt nh ∧ a3 = VInt p ∧ a4 = VInt hs ∧ a5 = VInt ch ∧ a6 = VInt ng
    ∧ b = block_of img nh p hs ch ng w ∧ w' = S (S (S (S (S w))))
    ∧ nh ≠ 0 ∧ hs `mod` nh = 0 ∧ ng ≠ 0 ∧ ch `mod` ng = 0
    ∧ 0 ≤ ch ∧ 0 < hs ∧ 0 < p.
Proof.
  intros Hi. unfold DiffiTResBlock_init in Hi. inv_ctor Hi. injection Hi as <- <-.
  apply lift_inv in E as [E ->]. apply lift_inv in E0 as [E0 ->].
  apply lift_inv in E1 as [E1 ->]. apply lift_inv in E2 as [E2 ->].
  apply lift_inv in E3 as [E3 ->]. apply lift_inv in E4 as [E4 ->].
  apply lift_inv in E5 as [E5 ->]. apply lift_inv in E6 as [E6 ->].
  apply py_mod_inv in E as (hs & nh & -> & -> & Hnh & ->).
  apply py_mod_inv in E1 as (ch & ng & -> & -> & Hng & ->).
  apply py_assert_inv, Z.eqb_eq in E0, E2.
  cbn in E3, E4, E5, E6. injection E3 as <-. injection E4 as <-.
  injection E5 as <-. injection E6 as <-.
  apply GroupNorm_init_inv in E7 as (-> & -> & _ & _ & Hch).
  apply Conv2d_init_ok_inv in E8 as (-> & -> & _ & _ & _).
  unfold DiffTBlock_init in E9. cbn in E9. injection E9 as <- <-.
  apply PatchEmbed_init_inv in E10 as (img & p & -> & -> & Hp & -> & -> & Hhs).
  unfold FinalLayer_init in E11. cbn in E11. injection E11 as <- <-.
  apply lift_inv in E12 as [E12 ->].
  unfold DiffiTResBlock_initialize_weights in E12. cbn [pe_proj conv_out_channels] in E12.
  apply result_bind_inv in E12 as (s & E12 & _).
  apply infer_shape_rows_inv in E12; [|exact Hhs].
  exists img, nh, p, hs, ch, ng. repeat split; try reflexivity; try assumption; lia.
Qed.

Lemma DiffiTResBlock_new_inv args kwargs w b w' :
  DiffiTResBlock_new args kwargs w = Ok (b, w') →
  ∃ img nh p hs ch ng,
    b = block_of img nh p hs ch ng w ∧ w' = S (S (S (S (S w))))
    ∧ nh ≠ 0 ∧ hs `mod` nh = 0 ∧ ng ≠ 0 ∧ ch `mod` ng = 0
    ∧ 0 ≤ ch ∧ 0 < hs ∧ 0 < p.
Proof.
  intros Hn. unfold DiffiTResBlock_new in Hn.
  do 7 (apply ctor_bind_inv in Hn;
        let a := fresh "a" in let w := fresh "w" in let E := fresh "E" in
        destruct Hn as (a & w & E & Hn); cbv beta zeta in Hn).
  repeat match goal with
         | E : lift _ _ = Ok _ |- _ => apply lift_inv in E as [_ ->]
         end.
  apply DiffiTResBlock_init_inv in Hn
    as (img & nh & p & hs & ch & ng & _ & _ & _ & _ & _ & _ & Hb).
  exists img, nh, p, hs, ch, ng. exact Hb.
Qed.

(** X4.  The checks of [DiffiTResBlock.__init__], in the order they are
    made: [hidden_size % num_heads] (a zero [num_heads] raises
    [ZeroDivisionError], a non-zero remainder fails the first assertion),
    then [channels % num_groups] (likewise).  The message of the second
    assertion names [patch_size], although the quantity tested is
    [channels]. *)
Theorem DiffiTResBlock_init_assertions img nh p hs ch ng w :
  let new := DiffiTResBlock_new [] (kwargs_of img nh p hs ch ng) w in
  (nh = 0 → new = Raise ZeroDivisionError)
  ∧ (nh ≠ 0 → hs `mod` nh ≠ 0 →
     new = Raise (AssertionError "hidden_size must be divisible by num_heads"))
  ∧ (nh ≠ 0 → hs `mod` nh = 0 → ng = 0 → new = Raise ZeroDivisionError)
  ∧ (nh ≠ 0 → hs `mod` nh = 0 → ng ≠ 0 → ch `mod` ng ≠ 0 →
     new = Raise (AssertionError "patch_size must be divisible by num_groups")).
Proof.
  cbv zeta. rewrite DiffiTResBlock_new_kwargs. repeat split.
  - intros Hnh. apply DiffiTResBlock_init_zero_divisor. by left.
  - apply DiffiTResBlock_init_hidden_not_divisible.
  - intros Hnh Hhs Hng. apply DiffiTResBlock_init_zero_divisor. by right.
  - apply DiffiTResBlock_init_channels_not_divisible.
Qed.

(** X5.  The invariant of the class: whatever the arguments, a block that
    the constructor returns has [hidden_size] divisible by [num_heads] and
    [channels] divisible by [num_groups]; its normalisation, its 3×3
    convolution and its output projection are built for [channels] feature
    maps; [patch_size] is positive and [num_patches] is the square of
    [img_size // patch_size]; its token mixer, positional table and patch
    projection share the positive [hidden_size]; and it has drawn five
    parameter sets. *)
Theorem DiffiTResBlock_new_invariant args kwargs w b w' :
  DiffiTResBlock_new args kwargs w = Ok (b, w') →
  dt_hidden_size (diffit b) `mod` dt_num_heads (diffit b) = 0
  ∧ channels b `mod` gn_num_groups (groupNorm b) = 0
  ∧ gn_num_channels (groupNorm b) = channels b
  ∧ (∃ wc, conv2d b = mkConv2d (channels b) (channels b) 3 1 1 wc)
  ∧ 0 ≤ channels b
  ∧ patch_size b = pe_patch_size (x_embedder b) ∧ 0 < patch_size b
  ∧ num_patches b = pe_num_patches (x_embedder b)
  ∧ num_patches b = (pe_img_size (x_embedder b) `div` patch_size b)
                    * (pe_img_size (x_embedder b) `div` patch_size b)
  ∧ (∃ wp, pe_proj (x_embedder b)
           = mkConv2d (channels b) (pos_embed_hidden b) (patch_size b) (patch_size b) 0 wp)
  ∧ dt_hidden_size (diffit b) = pos_embed_hidden b ∧ 0 < pos_embed_hidden b
  ∧ (∃ wf, final b = mkFinalLayer (pos_embed_hidden b) (patch_size b) (channels b) wf)
  ∧ w' = (5 + w)%nat.
Proof.
  intros Hn.
  apply DiffiTResBlock_new_inv in Hn
    as (img & nh & p & hs & ch & ng & -> & -> & Hnh & Hhs & Hng & Hch & Hc0 & Hh0 & Hp).
  cbn. repeat split; try assumption; try reflexivity; eexists; reflexivity.
Qed.

(** X5 at [small_block]. *)
Lemma DiffiTResBlock_new_invariant_witness :
  DiffiTResBlock_new [] (kwargs_of 4 2 2 4 2 1) 0%nat = Ok (small_block, 5%nat)
  ∧ dt_hidden_size (diffit small_block) `mod` dt_num_heads (diffit small_block) = 0
  ∧ channels small_block `mod` gn_num_groups (groupNorm small_block) = 0
  ∧ num_patches small_block = 4.
Proof.
  split; [reflexivity|].
  destruct (DiffiTResBlock_new_invariant [] (kwargs_of 4 2 2 4 2 1) 0%nat small_block 5%nat
              eq_refl) as (H1 & H2 & _).
  split; [exact H1|]. split; [exact H2|]. reflexivity.
Defined.

(** ** [DiffiTResBlock.forward] outside its geometry *)

Section geometry.
Context {R : Type} {BE : Backend R}.

(** X6.  A block accepts only the geometry it was built for: if [forward]
    returns on [x], then [x] has shape (B, channels, img_size, img_size)
    for some B. *)
Theorem DiffiTResBlock_forward_geometry args kwargs w self w' (x c out : Tensor R) :
  DiffiTResBlock_new args kwargs w = Ok (self, w') →
  DiffiTResBlock_forward self x c = Ok out →
  ∃ B, shape x = [B; channels self; pe_img_size (x_embedder self);
                  pe_img_size (x_embedder self)].
Proof.
  intros Hn Hf.
  apply DiffiTResBlock_new_inv in Hn
    as (img & nh & p & hs & ch & ng & -> & _ & _).
  cbn [block_of channels x_embedder pe_img_size].
  unfold DiffiTResBlock_forward in Hf.
  apply result_bind_inv in Hf as (x' & Ex' & Hf).
  apply result_bind_inv in Hf as (f & Ef & _).
  unfold block_conv in Ex'. apply result_bind_inv in Ex' as (x1 & E1 & Ex').
  unfold block_tokens in Ef. apply result_bind_inv in Ef as (e & Ee & _).
  unfold PatchEmbed_forward in Ee.
  destruct (shape x') as [|n' [|c' [|h' [|w1 [|? ?]]]]] eqn:Hx'; try discriminate.
  apply result_bind_inv in Ee as (u1 & Hh & Ee).
  apply result_bind_inv in Ee as (u2 & Hw & _).
  apply py_assert_inv, Z.eqb_eq in Hh, Hw. cbn in Hh, Hw. subst h' w1.
  unfold GroupNorm_forward in E1.
  destruct (shape x) as [|n [|c0 rest]] eqn:Hx; try discriminate.
  apply result_bind_inv in E1 as (q & _ & E1).
  apply result_bind_inv in E1 as (u3 & _ & E1).
  cbn [block_of groupNorm gn_num_channels] in E1.
  destruct (Z.eqb_spec c0 ch) as [->|]; [|discriminate].
  injection E1 as <-.
  unfold Conv2d_forward in Ex'. cbn [SiLU_forward tensor_map shape] in Ex'.
  destruct rest as [|h [|w0 [|? ?]]]; try discriminate.
  - apply result_bind_inv in Ex' as (u4 & _ & [= <-]). discriminate.
  - apply result_bind_inv in Ex' as (u4 & _ & [= <-]).
    cbn [block_of conv2d conv_kernel_size conv_stride conv_padding conv_out_channels shape]
      in Hx'.
    rewrite !conv_out_size_same in Hx'. injection Hx' as <- <- <- <-.
    by exists n.
Qed.

(** X7.  The constructor does not check that [patch_size] divides
    [img_size].  When it does not, the block is built, with
    (img_size // patch_size)² patches, and [forward] raises a
    [RuntimeError] on every batch of the size the block was built for: the
    tokens reconstruct a smaller map, which cannot be added to the
    convolved input. *)
Theorem DiffiTResBlock_untiled_image img nh p hs ch ng w B (x c : Tensor R) :
  0 < p ≤ img → img `mod` p ≠ 0 → 0 < hs → 0 < nh → hs `mod` nh = 0 →
  0 < ch → 0 < ng → ch `mod` ng = 0 →
  0 < B → shape x = [B; ch; img; img] → shape c = [B; hs] →
  ∃ self w',
    DiffiTResBlock_new [] (kwargs_of img nh p hs ch ng) w = Ok (self, w')
    ∧ num_patches self = img `div` p * (img `div` p)
    ∧ ∃ msg, DiffiTResBlock_forward self x c = Raise (RuntimeError msg).
Proof.
  intros Hp Hm Hh Hn Hhn Hc Hg Hcg HB Hx Hcs.
  exists (block_of img nh p hs ch ng w), (S (S (S (S (S w))))).
  split; [|split; [reflexivity|]].
  - rewrite DiffiTResBlock_new_kwargs. apply DiffiTResBlock_init_valid; lia.
  - eexists.
    apply (DiffiTResBlock_forward_size_disagreement img nh p hs ch ng w B x c);
      (assumption || lia).
Qed.
End geometry.

(** X7 at a block for 5×5 maps and patches of side 2. *)
Lemma DiffiTResBlock_untiled_image_witness :
  0 < 2 ≤ 5 ∧ 5 `mod` 2 ≠ 0 ∧ 4 `mod` 2 = 0 ∧ 2 `mod` 1 = 0
  ∧ shape (arange [1; 2; 5; 5]) = [1; 2; 5; 5] ∧ shape (arange [1; 4]) = [1; 4]
  ∧ ∃ self w',
      DiffiTResBlock_new [] (kwargs_of 5 2 2 4 2 1) 0%nat = Ok (self, w')
      ∧ num_patches self = 5 `div` 2 * (5 `div` 2)
      ∧ ∃ msg, DiffiTResBlock_forward self (arange [1; 2; 5; 5]) (arange [1; 4])
               = Raise (RuntimeError msg).
Proof.
  split; [lia|]. split; [discriminate|]. split; [reflexivity|]. split; [reflexivity|].
  split; [reflexivity|]. split; [reflexivity|].
  apply (DiffiTResBlock_untiled_image 5 2 2 4 2 1 0%nat 1 (arange [1; 2; 5; 5]) (arange [1; 4]));
    (lia || reflexivity || discriminate).
Defined.
(** X6 at [small_block], on a batch of three 4×4 maps. *)
Lemma DiffiTResBlock_forward_geometry_witness :
  DiffiTResBlock_new [] (kwargs_of 4 2 2 4 2 1) 0%nat = Ok (small_block, 5%nat)
  ∧ ∃ out, DiffiTResBlock_forward small_block (arange [3; 2; 4; 4]) (arange [3; 4]) = Ok out
    ∧ ∃ B, shape (arange [3; 2; 4; 4])
           = [B; channels small_block; pe_img_size (x_embedder small_block);
              pe_img_size (x_embedder small_block)].
Proof.
  split; [reflexivity|].
  destruct (is_ok_inv (DiffiTResBlock_forward small_block (arange [3; 2; 4; 4]) (arange [3; 4])))
    as [out E]; [vm_compute; reflexivity|].
  exists out. split; [exact E|].
  exact (DiffiTResBlock_forward_geometry [] (kwargs_of 4 2 2 4 2 1) 0%nat small_block 5%nat
           (arange [3; 2; 4; 4]) (arange [3; 4]) out eq_refl E).
Defined.

(** ** [unpatchify], entry by entry *)

Lemma div_mod_digit a m r : 0 ≤ r < m → (a * m + r) `div` m = a ∧ (a * m + r) `mod` m = r.
Proof.
  intros Hr. split.
  - rewrite Z.div_add_l by lia. rewrite Z.div_small by lia. lia.
  - rewrite Z.add_comm, Z.mod_add by lia. apply Z.mod_small. lia.
Qed.

Lemma digit_bound a m r d : 0 ≤ a < d → 0 ≤ r < m → 0 ≤ a * m + r < d * m.
Proof. intros Ha Hr. split; nia. Qed.

Lemma ravel_bound s idx : in_range s idx → 0 ≤ ravel s idx < numel s.
Proof.
  unfold in_range. induction 1 as [|d i s idx Hd _ IH]; [unfold numel; cbn; lia|].
  cbn [ravel]. change (numel (d :: s)) with (d * numel s). by apply digit_bound.
Qed.

(** A multi-index inside the shape is recovered from its row-major
    offset. *)
Lemma unravel_ravel s idx : in_range s idx → unravel s (ravel s idx) = idx.
Proof.
  unfold in_range. induction 1 as [|d i s idx Hd Hr IH]; [reflexivity|].
  cbn [ravel unravel].
  destruct (div_mod_digit i (numel s) (ravel s idx) (ravel_bound _ _ Hr)) as [-> ->].
  by rewrite IH.
Qed.

Section pixels.
Context {R : Type} {BE : Backend R}.

(** X8.  [unpatchify], entry by entry.  On tokens of shape (B, h², p²·c)
    the result has shape (B, c, h·p, h·p), and the pixel at row [i], column
    [j] of channel [k] is entry ((i mod p)·p + (j mod p))·c + k of token
    (i div p)·h + (j div p): token [t] fills the patch at row [t div h],
    column [t mod h] of the grid, its entries laid out as (row in the
    patch, column in the patch, channel). *)
Theorem unpatchify_pixels (self : DiffiTResBlock) (x : Tensor R) (B h : Z) :
  let p := pe_patch_size (x_embedder self) in
  let c := channels self in
  0 ≤ B → 0 ≤ h → 0 ≤ p → 0 ≤ c →
  shape x = [B; h * h; p * p * c] →
  ∃ imgs,
    unpatchify self x = Ok imgs
    ∧ shape imgs = [B; c; h * p; h * p]
    ∧ ∀ n k i j, 0 ≤ n < B → 0 ≤ k < c → 0 ≤ i < h * p → 0 ≤ j < h * p →
        data imgs [n; k; i; j]
        = data x [n; i `div` p * h + j `div` p; (i `mod` p * p + j `mod` p) * c + k].
Proof.
  intros p c HB Hh Hp Hc Hx.
  assert (Hsq : Z.sqrt (h * h) = h) by (apply Z.sqrt_square; lia).
  unfold unpatchify. rewrite Hx. fold p. fold c. rewrite Hsq.
  unfold py_assert. rewrite Z.eqb_refl. cbn [mbind result_bind].
  unfold reshape. rewrite Hx.
  rewrite (infer_shape_nonneg _ [B; h; h; p; p; c]);
    [|repeat constructor; lia | unfold numel; cbn [foldr]; ring].
  cbn [mbind result_bind]. unfold einsum_nhwpqc_nchpwq. cbn [shape mbind result_bind].
  rewrite (infer_shape_nonneg _ [B; c; h * p; h * p]);
    [|repeat constructor; nia | unfold numel; cbn [foldr]; ring].
  cbn [mbind result_bind].
  eexists. split; [reflexivity|]. split; [reflexivity|].
  intros n k i j Hn Hk Hi Hj. cbn [data].
  assert (Hp0 : 0 < p) by nia. assert (Hh0 : 0 < h) by nia.
  pose proof (Z.div_mod i p ltac:(lia)) as Hi'.
  pose proof (Z.mod_pos_bound i p Hp0) as Hib.
  pose proof (Z.div_mod j p ltac:(lia)) as Hj'.
  pose proof (Z.mod_pos_bound j p Hp0) as Hjb.
  assert (Hiq : 0 ≤ i `div` p < h)
    by (split; [apply Z.div_pos; lia | apply Z.div_lt_upper_bound; nia]).
  assert (Hjq : 0 ≤ j `div` p < h)
    by (split; [apply Z.div_pos; lia | apply Z.div_lt_upper_bound; nia]).
  set (iq := i `div` p) in *. set (ir := i `mod` p) in *.
  set (jq := j `div` p) in *. set (jr := j `mod` p) in *.
  (* the offset of the pixel, read in the layout (n, c, h, p, w, q) *)
  replace (ravel [B; c; h * p; h * p] [n; k; i; j])
    with (ravel [B; c; h; p; h; p] [n; k; iq; ir; jq; jr])
    by (cbn [ravel]; unfold numel; cbn [foldr]; rewrite Hi', Hj'; ring).
  rewrite unravel_ravel by (repeat constructor; lia).
  (* the offset of the token entry, read in the layout (n, t, d) *)
  replace (ravel [B; h; h; p; p; c] [n; iq; jq; ir; jr; k])
    with (ravel [B; h * h; p * p * c] [n; iq * h + jq; (ir * p + jr) * c + k])
    by (cbn [ravel]; unfold numel; cbn [foldr]; ring).
  rewrite unravel_ravel; [reflexivity|].
  pose proof (digit_bound iq h jq h Hiq Hjq) as Ht.
  pose proof (digit_bound ir p jr p Hib Hjb) as Hd1.
  pose proof (digit_bound (ir * p + jr) c k (p * p) Hd1 Hk) as Hd2.
  repeat constructor; lia.
Qed.
End pixels.

(** X8 at four tokens of eight values: pixel (3, 2) of channel 1 is entry 5
    of token 3. *)
Lemma unpatchify_pixels_witness :
  0 ≤ 1 ∧ 0 ≤ 2 ∧ shape (arange [1; 4; 8]) = [1; 2 * 2; 2 * 2 * 2]
  ∧ ∃ imgs,
      unpatchify small_block (arange [1; 4; 8]) = Ok imgs
      ∧ shape imgs = [1; 2; 4; 4]
      ∧ data imgs [0; 1; 3; 2] = data (arange [1; 4; 8]) [0; 3; 5].
Proof.
  split; [lia|]. split; [lia|]. split; [reflexivity|].
  destruct (unpatchify_pixels small_block (arange [1; 4; 8]) 1 2)
    as (imgs & E & Hs & Hd); [lia | lia | cbn; lia | cbn; lia | reflexivity |].
  exists imgs. split; [exact E|]. split; [exact Hs|].
  rewrite (Hd 0 1 3 2) by (cbn; lia). reflexivity.
Defined.

(** ** [DiffiTSequential.forward] on stacks *)

Section stacks.
Context {R : Type} {BE : Backend R}.


Lemma block_of_forward_keeps_shape img nh p hs ch ng w B (x c : Tensor R) :
  valid_block_config img nh p hs ch ng →
  0 < B → normalisable B ch ng img →
  shape x = [B; ch; img; img] → shape c = [B; hs] →
  ∃ out, DiffiTResBlock_forward (block_of img nh p hs ch ng w) x c = Ok out
         ∧ shape out = [B; ch; img; img].
Proof.
  intros (Hi & Hp & Hd & Hh & Hn & Hhn & Hch & Hg & Hcg) HB Hnd Hx Hc.
  destruct (divide_le_mul img p Hp Hi Hd) as [Hle Hgp].
  destruct (block_conv_shape img nh p hs ch ng w B x Hi ltac:(lia) Hnd Hx)
    as (x' & Ex' & Hx').
  destruct (block_tokens_shape img nh p hs ch ng w B x' c (conj Hp Hle) Hx' Hc)
    as (f & Ef & Hf).
  set (g := img `div` p) in *.
  assert (Hg0 : 0 ≤ g) by (apply Z.div_pos; lia).
  destruct (unpatchify_cases (block_of img nh p hs ch ng w) f B (g * g))
    as [_ Hu]; cbn [block_of x_embedder pe_patch_size channels]; try lia; [exact Hf|].
  assert (Hsq : Z.sqrt (g * g) = g) by (apply Z.sqrt_square; lia).
  rewrite Hsq in Hu.
  destruct (Hu eq_refl) as (u & Eu & Hus).
  cbn [block_of channels x_embedder pe_patch_size] in Hus.
  rewrite Hgp in Hus.
  destruct (tensor_binop_same radd u x') as (out & Eo & Hos & _); [congruence|].
  exists out. split; [|congruence].
  unfold DiffiTResBlock_forward. rewrite Ex'. cbn [mbind result_bind].
  rewrite Ef. cbn [mbind result_bind]. rewrite Eu. exact Eo.
Qed.

(** X11.  A stack of any number of blocks, each built by [DiffiTResBlock]
    from the same valid configuration, returns on a batch of shape
    (B, channels, img_size, img_size), B ≥ 1, on which group normalisation
    has more than one value a group, with [c] of shape (B, hidden_size),
    and its result has the shape of the input. *)
Theorem DiffiTSequential_forward_keeps_shape img nh p hs ch ng bs B (x c : Tensor R) :
  valid_block_config img nh p hs ch ng →
  Forall (fun b => ∃ w w', DiffiTResBlock_new [] (kwargs_of img nh p hs ch ng) w = Ok (b, w'))
         bs →
  0 < B → normalisable B ch ng img →
  shape x = [B; ch; img; img] → shape c = [B; hs] →
  ∃ out, DiffiTSequential_forward (DiffiTSequential_init bs) x c = Ok out
         ∧ shape out = shape x.
Proof.
  intros Hv Hbs HB Hnd Hx Hc.
  unfold DiffiTSequential_forward, DiffiTSequential_init. cbn [blocks].
  rewrite Hx.
  revert x Hx. induction Hbs as [|b bs (w & w' & Hb) _ IH]; intros x Hx.
  - exists x. split; [reflexivity | exact Hx].
  - rewrite (DiffiTResBlock_new_valid _ _ _ _ _ _ _ Hv) in Hb. injection Hb as <- _.
    destruct (block_of_forward_keeps_shape img nh p hs ch ng w B x c Hv HB Hnd Hx Hc)
      as (x1 & E1 & H1).
    cbn [forward_blocks]. rewrite E1. cbn [mbind result_bind].
    exact (IH x1 H1).
Qed.
End stacks.

(** X11 at a stack of three blocks for 4×4 maps. *)
Lemma DiffiTSequential_forward_keeps_shape_witness :
  valid_block_config 4 2 2 4 2 1
  ∧ Forall (fun b => ∃ w w', DiffiTResBlock_new [] (kwargs_of 4 2 2 4 2 1) w = Ok (b, w'))
           [block_of 4 2 2 4 2 1 0; block_of 4 2 2 4 2 1 5; block_of 4 2 2 4 2 1 10]
  ∧ 0 < 3 ∧ normalisable 3 2 1 4
  ∧ shape (arange [3; 2; 4; 4]) = [3; 2; 4; 4] ∧ shape (arange [3; 4]) = [3; 4]
  ∧ ∃ out,
      DiffiTSequential_forward
        (DiffiTSequential_init
           [block_of 4 2 2 4 2 1 0; block_of 4 2 2 4 2 1 5; block_of 4 2 2 4 2 1 10])
        (arange [3; 2; 4; 4]) (arange [3; 4]) = Ok out
      ∧ shape out = shape (arange [3; 2; 4; 4]).
Proof.
  assert (Hv : valid_block_config 4 2 2 4 2 1)
    by (unfold valid_block_config; repeat split; (lia || reflexivity)).
  assert (Hn : normalisable 3 2 1 4) by (unfold normalisable; cbn; lia).
  assert (Hbs : Forall (fun b => ∃ w w',
                          DiffiTResBlock_new [] (kwargs_of 4 2 2 4 2 1) w = Ok (b, w'))
                  [block_of 4 2 2 4 2 1 0; block_of 4 2 2 4 2 1 5; block_of 4 2 2 4 2 1 10]).
  { repeat constructor;
      [exists 0%nat, 5%nat | exists 5%nat, 10%nat | exists 10%nat, 15%nat]; reflexivity. }
  split; [exact Hv|]. split; [exact Hbs|]. split; [lia|]. split; [exact Hn|].
  split; [reflexivity|]. split; [reflexivity|].
  exact (DiffiTSequential_forward_keeps_shape 4 2 2 4 2 1 _ 3
           (arange [3; 2; 4; 4]) (arange [3; 4]) Hv Hbs ltac:(lia) Hn eq_refl eq_refl).
Defined.

(** ** [ImageDiffiT.__init__] *)

Lemma DiffiTResBlock_new_block_params (a : ImageDiffiT_args) (block_groups block_img_size : Z)
    (w : nat) :
  DiffiTResBlock_new [] (get_block_params a block_groups block_img_size) w
  = DiffiTResBlock_init (VInt block_img_size) (VInt (arg_num_heads a))
      (VInt (arg_patch_size a)) (VInt (arg_hidden_size a))
      (VInt (arg_hidden_channels a)) (VInt block_groups) w.
Proof.
  assert (Hc : check_call DiffiTResBlock_params []
                 (get_block_params a block_groups block_img_size) = Ok tt)
    by (vm_compute; reflexivity).
  unfold DiffiTResBlock_new. rewrite Hc. reflexivity.
Qed.

(** X13.  [get_block_params] returns exactly the six parameters of
    [DiffiTResBlock.__init__]: passed as keyword arguments they are
    accepted by the signature, and no default of the signature is used.
    The call is the one on [block_img_size], [num_heads], [patch_size],
    [hidden_size], [hidden_channels] and [block_groups]. *)
Theorem get_block_params_binds_all (a : ImageDiffiT_args) (block_groups block_img_size : Z)
    (w : nat) :
  check_call DiffiTResBlock_params [] (get_block_params a block_groups block_img_size) = Ok tt
  ∧ dom (get_block_params a block_groups block_img_size)
    = list_to_set DiffiTResBlock_params
  ∧ DiffiTResBlock_new [] (get_block_params a block_groups block_img_size) w
    = DiffiTResBlock_init (VInt block_img_size) (VInt (arg_num_heads a))
        (VInt (arg_patch_size a)) (VInt (arg_hidden_size a))
        (VInt (arg_hidden_channels a)) (VInt block_groups) w.
Proof.
  split; [vm_compute; reflexivity|]. split.
  - unfold get_block_params, DiffiTResBlock_params.
    rewrite !dom_insert_L, dom_empty_L. cbn [list_to_set]. set_solver.
  - apply DiffiTResBlock_new_block_params.
Qed.

(** X14.  The checks of [ImageDiffiT.__init__], made before anything is
    built and whatever the stack factory: [hidden_size % num_heads], then
    [hidden_channels % num_groups]; a zero divisor raises
    [ZeroDivisionError], a non-zero remainder fails the assertion with its
    message, and a constructor that returns has passed both. *)
Theorem ImageDiffiT_init_assertions
    (factory : Z → gmap string pyval → ctor pyval) (a : ImageDiffiT_args) (w : nat) :
  let hs := arg_hidden_size a in
  let nh := arg_num_heads a in
  let hc := arg_hidden_channels a in
  let ng := arg_num_groups a in
  (nh = 0 → ImageDiffiT_init_with factory a w = Raise ZeroDivisionError)
  ∧ (nh ≠ 0 → hs `mod` nh ≠ 0 →
     ImageDiffiT_init_with factory a w
     = Raise (AssertionError "hidden_size must be divisible by num_heads"))
  ∧ (nh ≠ 0 → hs `mod` nh = 0 → ng = 0 →
     ImageDiffiT_init_with factory a w = Raise ZeroDivisionError)
  ∧ (nh ≠ 0 → hs `mod` nh = 0 → ng ≠ 0 → hc `mod` ng ≠ 0 →
     ImageDiffiT_init_with factory a w
     = Raise (AssertionError "hidden_channels must be divisible by num_groups"))
  ∧ (is_ok (ImageDiffiT_init_with factory a w) = true →
     nh ≠ 0 ∧ hs `mod` nh = 0 ∧ ng ≠ 0 ∧ hc `mod` ng = 0).
Proof.
  cbv zeta. split; [|split; [|split; [|split]]].
  - intros Hnh. unfold ImageDiffiT_init_with. run_ctor. reflexivity.
  - intros Hnh Hm. unfold ImageDiffiT_init_with. run_ctor. reflexivity.
  - intros Hnh Hm Hng. unfold ImageDiffiT_init_with. run_ctor. reflexivity.
  - intros Hnh Hm Hng Hc. unfold ImageDiffiT_init_with. run_ctor. reflexivity.
  - intros Hok. apply is_ok_inv in Hok as ([self w'] & Hi).
    unfold ImageDiffiT_init_with in Hi. cbv zeta in Hi.
    apply ctor_bind_inv in Hi as (r1 & w1 & E1 & Hi).
    apply ctor_bind_inv in Hi as (u1 & w2 & E2 & Hi).
    apply ctor_bind_inv in Hi as (r2 & w3 & E3 & Hi).
    apply ctor_bind_inv in Hi as (u2 & w4 & E4 & _).
    apply lift_inv in E1 as [E1 _]. apply lift_inv in E2 as [E2 _].
    apply lift_inv in E3 as [E3 _]. apply lift_inv in E4 as [E4 _].
    apply py_mod_inv in E1 as (x1 & y1 & [= <-] & [= <-] & Hnh & ->).
    apply py_mod_inv in E3 as (x2 & y2 & [= <-] & [= <-] & Hng & ->).
    apply py_assert_inv, Z.eqb_eq in E2, E4. auto.
Qed.

(** X16.  What [ImageDiffiT.__init__] has assigned when it returns,
    whatever the stack factory: sixteen attributes, [resBlock3] and
    [resBlock4] not among them.  [resBlock2] holds the stack assigned last
    under that name, the one of [l4] blocks for maps of [img_size // 8];
    the stacks of [l2] and [l3] blocks first assigned to it are lost.
    [resBlock1] and [resBlock1Up] are built with a single normalisation
    group, the other stacks with [num_groups]. *)
Theorem ImageDiffiT_init_assigns
    (factory : Z → gmap string pyval → ctor pyval) (a : ImageDiffiT_args)
    (w w' : nat) (self : gmap string pyval) :
  ImageDiffiT_init_with factory a w = Ok (self, w') →
  let built (n groups size : Z) (name : string) :=
    ∃ s w1 w2, factory n (get_block_params a groups size) w1 = Ok (s, w2)
               ∧ self !! name = Some s in
  let img := arg_img_size a in
  let ng := arg_num_groups a in
  dom self
  = list_to_set ["num_classes"; "tokenizer"; "t_embedder"; "y_embedder";
                 "resBlock1"; "downsample_1"; "resBlock2"; "downsample_2";
                 "downsample_3"; "upsample_1"; "resBlock3up"; "upsample_2";
                 "resBlock2up"; "upsample_3"; "resBlock1Up"; "head"]
  ∧ built (arg_l1 a) 1 img "resBlock1"
  ∧ built (arg_l4 a) ng (img `div` 8) "resBlock2"
  ∧ built (arg_l3 a) ng (img `div` 4) "resBlock3up"
  ∧ built (arg_l2 a) ng (img `div` 2) "resBlock2up"
  ∧ built (arg_l1 a) 1 img "resBlock1Up"
  ∧ self !! "num_classes" = Some (VInt (arg_num_classes a)).
Proof.
  intros Hi. cbv zeta. unfold ImageDiffiT_init_with in Hi. cbv zeta in Hi.
  inv_ctor Hi. injection Hi as <- <-.
  split; [rewrite !dom_insert_L, dom_empty_L; cbn [list_to_set]; set_solver|].
  split; [|split; [|split; [|split; [|split]]]];
    try (match goal with
         | E : factory _ _ _ = Ok (?s, _) |- _ =>
             exists s; eexists _, _; split; [exact E|];
             repeat (rewrite lookup_insert_ne by discriminate); apply lookup_insert_eq
         end).
  repeat (rewrite lookup_insert_ne by discriminate). apply lookup_insert_eq.
Qed.

(** X16 at the instance built with the factory of the docstring. *)
Lemma ImageDiffiT_init_assigns_witness :
  ImageDiffiT_init_documented example_args 0%nat = Ok (example_self, 41%nat)
  ∧ dom example_self
    = list_to_set ["num_classes"; "tokenizer"; "t_embedder"; "y_embedder";
                   "resBlock1"; "downsample_1"; "resBlock2"; "downsample_2";
                   "downsample_3"; "upsample_1"; "resBlock3up"; "upsample_2";
                   "resBlock2up"; "upsample_3"; "resBlock1Up"; "head"]
  ∧ ∃ s w1 w2,
      (VSequential <$> all_equals_documented (arg_l4 example_args)
                         (get_block_params example_args (arg_num_groups example_args)
                            (arg_img_size example_args `div` 8))) w1 = Ok (s, w2)
      ∧ example_self !! "resBlock2" = Some s.
Proof.
  assert (Hi : ImageDiffiT_init_documented example_args 0%nat = Ok (example_self, 41%nat))
    by (vm_compute; reflexivity).
  split; [exact Hi|].
  destruct (ImageDiffiT_init_assigns _ example_args 0%nat 41%nat example_self Hi)
    as (Hd & _ & H4 & _).
  split; [exact Hd | exact H4].
Defined.

(** ** What [forward] reads *)

Lemma getattr_insert_ne (self : gmap string pyval) name v k :
  name ≠ k → getattr (<[name := v]> self) k = getattr self k.
Proof. intros Hne. unfold getattr. by rewrite lookup_insert_ne. Qed.

Lemma getattr_delete_ne (self : gmap string pyval) name k :
  name ≠ k → getattr (delete name self) k = getattr self k.
Proof. intros Hne. unfold getattr. by rewrite lookup_delete_ne. Qed.

Section reads.
Context {R : Type} {BE : Backend R}.

(** X17.  Two of the attributes that [__init__] assigns are never read by
    [forward]: the stack [resBlock2up] (the decoder calls [resBlock2] a
    second time instead) and [num_classes].  Whatever module stands under
    [resBlock2up] and whatever integer under [num_classes], and also when
    either attribute is deleted, the result of [forward] is the same. *)
Theorem forward_ignores_unread_attributes (self : gmap string pyval) (v : pyval) (n : Z)
    (g : rng) (x : Tensor R) (t y : Tensor Z) :
  is_module v = true →
  forward (<["resBlock2up" := v]> self) g x t y = forward self g x t y
  ∧ forward (delete "resBlock2up" self) g x t y = forward self g x t y
  ∧ forward (<["num_classes" := VInt n]> self) g x t y = forward self g x t y
  ∧ forward (delete "num_classes" self) g x t y = forward self g x t y.
Proof.
  intros _. unfold forward. repeat split.
  - rewrite !(getattr_insert_ne self "resBlock2up" v) by discriminate. reflexivity.
  - rewrite !(getattr_delete_ne self "resBlock2up") by discriminate. reflexivity.
  - rewrite !(getattr_insert_ne self "num_classes" (VInt n)) by discriminate. reflexivity.
  - rewrite !(getattr_delete_ne self "num_classes") by discriminate. reflexivity.
Qed.
End reads.

(** X17 at the completed instance: with the stack of the third level
    under [resBlock2up], or with none, the pass returns what it returned. *)
Lemma forward_ignores_unread_attributes_witness :
  is_module example_level3 = true
  ∧ is_Some (example_completed !! "resBlock2up")
  ∧ example_completed !! "resBlock2up" ≠ Some example_level3
  ∧ forward (<["resBlock2up" := example_level3]> example_completed) no_draws
      (arange [1; 3; 16; 16]) (const_tensor [1] 7) (const_tensor [1] 3)
    = forward example_completed no_draws
        (arange [1; 3; 16; 16]) (const_tensor [1] 7) (const_tensor [1] 3)
  ∧ forward (delete "resBlock2up" example_completed) no_draws
      (arange [1; 3; 16; 16]) (const_tensor [1] 7) (const_tensor [1] 3)
    = forward example_completed no_draws
        (arange [1; 3; 16; 16]) (const_tensor [1] 7) (const_tensor [1] 3).
Proof.
  split; [reflexivity|]. split; [vm_compute; eexists; reflexivity|].
  split; [vm_compute; discriminate|].
  destruct (forward_ignores_unread_attributes example_completed example_level3 0
              no_draws (arange [1; 3; 16; 16]) (const_tensor [1] 7)
              (const_tensor [1] 3) eq_refl) as (Hi & Hd & _).
  split; [exact Hi | exact Hd].
Defined.

(** ** Resolution transitions and skip connections *)

Section skips.
Context {R : Type} {BE : Backend R}.

End skips.


(** ** [forward_with_cfg]: the call of the model, and the batch it needs *)

Section cfg.
Context {R : Type} {BE : Backend R}.

(** X19.  [forward_with_cfg] is one call of [self.forward], on [x] and [t]
    concatenated with themselves and on [y] followed by as many labels
    [self.num_classes], followed by the combination of the two halves of
    its result. *)
Theorem forward_with_cfg_doubles_batch (self : gmap string pyval)
    (x : Tensor R) (t y : Tensor Z) (B nc : Z) (s : list Z) :
  shape x = B :: s → shape t = [B] → shape y = [B] →
  self !! "num_classes" = Some (VInt nc) →
  ∃ cx ct cy,
    (shape cx = 2 * B :: s ∧ shape ct = [2 * B] ∧ shape cy = [2 * B])
    ∧ (∀ n r, 0 ≤ n < B →
         data cx (n :: r) = data x (n :: r) ∧ data cx (n + B :: r) = data x (n :: r))
    ∧ (∀ n, 0 ≤ n < B →
         data ct [n] = data t [n] ∧ data ct [n + B] = data t [n]
         ∧ data cy [n] = data y [n] ∧ data cy [n + B] = nc)
    ∧ ∀ (g : rng) (cfg_scale : R),
        forward_with_cfg self g x t y cfg_scale
        = forward self g cx ct cy ≫= cfg_combine cfg_scale.
Proof.
  intros Hx Ht Hy Hnc.
  destruct (cfg_inputs_spec self x t y B nc s Hx Ht Hy Hnc)
    as (cx & ct & cy & E & Hs1 & Hs2 & Hs3 & Hdx & Hdt).
  exists cx, ct, cy. split; [auto|]. split; [exact Hdx|]. split; [exact Hdt|].
  intros g cfg_scale. unfold forward_with_cfg, forward_with_cfg_via. rewrite E.
  reflexivity.
Qed.

(** X20.  The batch that the second half of [forward_with_cfg] needs.  On
    a model output of shape (n, C, H, W) the split and the unpacking into
    [cond_eps, uncond_eps] succeed exactly when [n] is even and positive,
    and the result then has the shape of the model output; an empty batch
    and an odd batch of three or more raise [ValueError] (one chunk, three
    chunks), a batch of one raises [RuntimeError] (a split size of
    zero). *)
Theorem cfg_combine_batch_parity (cfg_scale : R) (model_out : Tensor R) (n C H W : Z) :
  0 ≤ n → 0 ≤ C → shape model_out = [n; C; H; W] →
  (n = 0 → ∃ msg, cfg_combine cfg_scale model_out = Raise (ValueError msg))
  ∧ (n = 1 → ∃ msg, cfg_combine cfg_scale model_out = Raise (RuntimeError msg))
  ∧ (n `mod` 2 = 1 → 1 < n →
     ∃ msg, cfg_combine cfg_scale model_out = Raise (ValueError msg))
  ∧ (n `mod` 2 = 0 → 0 < n →
     ∃ out, cfg_combine cfg_scale model_out = Ok out ∧ shape out = shape model_out).
Proof.
  intros Hn HC Hm.
  assert (Hc : cfg_combine cfg_scale model_out
               = chunks ← torch_split0 (narrow 1 0 (3 `min` C) model_out) (n `div` 2);
                 '(cond_eps, uncond_eps) ← unpack2 chunks;
                 d ← tensor_sub cond_eps uncond_eps;
                 half_eps ← tensor_add uncond_eps (tensor_scale cfg_scale d);
                 eps ← torch_cat 0 half_eps half_eps;
                 torch_cat 1 eps (narrow 1 (3 `min` C) (C - 3 `min` C) model_out)).
  { unfold cfg_combine, slice_dim1_to, slice_dim1_from. rewrite Hm.
    cbn [lookup list_lookup mbind result_bind].
    unfold tensor_len. cbn [narrow shape]. rewrite Hm.
    cbn [insert list_insert mbind result_bind]. reflexivity. }
  assert (Hsh : shape (narrow 1 0 (3 `min` C) model_out) = [n; 3 `min` C; H; W])
    by (cbn [narrow shape]; rewrite Hm; reflexivity).
  split; [|split; [|split]].
  - intros ->. rewrite Hc. unfold torch_split0. rewrite Hsh. eexists. reflexivity.
  - intros ->. rewrite Hc. unfold torch_split0. rewrite Hsh. eexists. reflexivity.
  - intros Hodd H1.
    pose proof (Z.div_mod n 2 ltac:(lia)) as Hdm. rewrite Hodd in Hdm.
    set (k := n `div` 2) in *. assert (Hk : 0 < k) by lia.
    rewrite Hc. unfold torch_split0. rewrite Hsh. zb.
    replace ((n + k - 1) `div` k) with 3.
    2:{ replace (n + k - 1) with (3 * k + 0) by lia.
        rewrite Z.div_add_l by lia. rewrite Z.div_0_l by lia. lia. }
    change (Z.max 3 1) with 3. change (seqZ 0 3) with [0; 1; 2].
    eexists. reflexivity.
  - intros Hev Hpos.
    pose proof (Z.div_mod n 2 ltac:(lia)) as Hdm. rewrite Hev in Hdm.
    destruct (cfg_combine_pointwise cfg_scale model_out (n `div` 2) C H W)
      as (out & E & Hs & _); [lia | lia | rewrite Hm; f_equal; lia |].
    exists out. split; [exact E|]. rewrite Hs, Hm. f_equal. lia.
Qed.
End cfg.

(** X19 at the completed instance, on a batch of one. *)
Lemma forward_with_cfg_doubles_batch_witness :
  shape (arange [1; 3; 16; 16]) = 1 :: [3; 16; 16]
  ∧ shape (const_tensor [1] 7) = [1] ∧ shape (const_tensor [1] 3) = [1]
  ∧ example_completed !! "num_classes" = Some (VInt 10)
  ∧ ∃ cx ct cy,
      (shape cx = [2; 3; 16; 16] ∧ shape ct = [2] ∧ shape cy = [2])
      ∧ data cy [0] = 3 ∧ data cy [1] = 10
      ∧ forward_with_cfg example_completed no_draws
          (arange [1; 3; 16; 16]) (const_tensor [1] 7) (const_tensor [1] 3) 1
        = forward example_completed no_draws cx ct cy ≫= cfg_combine 1.
Proof.
  assert (Hnc : example_completed !! "num_classes" = Some (VInt 10))
    by (vm_compute; reflexivity).
  split; [reflexivity|]. split; [reflexivity|]. split; [reflexivity|].
  split; [exact Hnc|].
  destruct (forward_with_cfg_doubles_batch example_completed (arange [1; 3; 16; 16])
              (const_tensor [1] 7) (const_tensor [1] 3) 1 10 [3; 16; 16]
              eq_refl eq_refl eq_refl Hnc)
    as (cx & ct & cy & Hs & _ & Hd & Hf).
  exists cx, ct, cy. split; [exact Hs|].
  destruct (Hd 0 ltac:(lia)) as (_ & _ & Hy0 & Hy1).
  split; [exact Hy0|]. split; [exact Hy1|]. apply Hf.
Defined.

(** X20 at a batch of three and a batch of four. *)
Lemma cfg_combine_batch_parity_witness :
  0 ≤ 3 ∧ 0 ≤ 5 ∧ shape (arange [3; 5; 1; 2]) = [3; 5; 1; 2]
  ∧ (∃ msg, cfg_combine 2 (arange [3; 5; 1; 2]) = Raise (ValueError msg))
  ∧ ∃ out, cfg_combine 2 (arange [4; 5; 1; 2]) = Ok out
           ∧ shape out = shape (arange [4; 5; 1; 2]).
Proof.
  split; [lia|]. split; [lia|]. split; [reflexivity|]. split.
  - destruct (cfg_combine_batch_parity 2 (arange [3; 5; 1; 2]) 3 5 1 2)
      as (_ & _ & Hodd & _); [lia | lia | reflexivity |].
    apply Hodd; [reflexivity | lia].
  - destruct (cfg_combine_batch_parity 2 (arange [4; 5; 1; 2]) 4 5 1 2)
      as (_ & _ & _ & Hev); [lia | lia | reflexivity |].
    apply Hev; [reflexivity | lia].
Defined.

(** ** The test at the end of the module *)

Section script.
Context {R : Type} {BE : Backend R}.

(** X21.  [main].  Called as the module calls it, with [testing] at its
    default, it prints nothing and returns.  With [testing] true it prints
    the shapes of the tokenizer test, (5, 3, 64, 64) and (5, 126, 64, 64),
    and of the head test, (5, 128, 64, 64) and (5, 3, 64, 64), announces
    the test of the network, and raises a [TypeError] while constructing
    [ImageDiffiT(img_size=64)], before any shape of the network is printed;
    this for every backend and every random draw. *)
Theorem main_prints (draw : nat → list Z → R) (draw_int : nat → list Z → Z) (g : rng)
    (st : list printed * nat) (w : nat) :
  run_module draw draw_int g st = (st, Ok tt)
  ∧ main false draw draw_int g st = (st, Ok tt)
  ∧ ∃ msg,
    main true draw draw_int g ([], w)
    = (([Line "Testing Tokenizer";
         Labelled "Input shape: " [5; 3; 64; 64];
         Labelled "Output shape: " [5; 126; 64; 64];
         Line dashes;
         Line "Testing Head";
         Labelled "Input shape: " [5; 128; 64; 64];
         Labelled "Output shape: " [5; 3; 64; 64];
         Line dashes;
         Line "Testing Image Diffit "], S (S (S w))),
       Raise (TypeError msg)).
Proof.
  split; [reflexivity|]. split; [reflexivity|].
  eexists. vm_compute. reflexivity.
Qed.
End script.

(** ** The exceptions of [all_equals] and of [ImageDiffiT.__init__] *)

(** A call of [DiffiTResBlock] on blocks raises a [TypeError]. *)
Lemma DiffiTResBlock_new_of_blocks_TypeError (bs : list DiffiTResBlock) w :
  ∃ msg, DiffiTResBlock_new (VResBlock <$> bs) ∅ w = Raise (TypeError msg).
Proof.
  destruct bs as [|b1 [|b2 [|b3 [|b4 [|b5 [|b6 [|b7 bs]]]]]]];
    eexists; vm_compute; reflexivity.
Qed.

Lemma repeat_ctor_ok {A} (m : ctor A) (f : nat → A) (k n : nat) w :
  (∀ w1, m w1 = Ok (f w1, (k + w1)%nat)) →
  ∃ l, repeat_ctor n m w = Ok (l, (n * k + w)%nat).
Proof.
  intros Hm. revert w. induction n as [|n IH]; intros w.
  - eexists. reflexivity.
  - cbn [repeat_ctor]. unfold mbind at 1. unfold ctor_bind. rewrite Hm.
    destruct (IH (k + w)%nat) as (l & El).
    unfold mbind at 1. unfold ctor_bind. rewrite El.
    exists (f w :: l). unfold mret, ctor_ret. cbn [Nat.mul]. do 2 f_equal. lia.
Qed.

Lemma all_equals_valid_TypeError n img nh p hs ch ng kwargs w :
  (∀ w1, DiffiTResBlock_new [] kwargs w1
         = DiffiTResBlock_init (VInt img) (VInt nh) (VInt p) (VInt hs) (VInt ch) (VInt ng) w1) →
  nh ≠ 0 → hs `mod` nh = 0 → ng ≠ 0 → ch `mod` ng = 0 → 0 ≤ ch → 0 < hs → 0 < p →
  ∃ msg, all_equals n kwargs w = Raise (TypeError msg).
Proof.
  intros Hk Hnh Hhs Hng Hch Hc0 Hh0 Hp.
  destruct (repeat_ctor_ok (DiffiTResBlock_new [] kwargs) (block_of img nh p hs ch ng)
              5 (Z.to_nat n) w) as (bs & Ebs).
  { intros w1. rewrite Hk. by apply DiffiTResBlock_init_valid. }
  unfold all_equals. unfold mbind at 1. unfold ctor_bind. rewrite Ebs.
  apply DiffiTResBlock_new_of_blocks_TypeError.
Qed.

(** X12.  For a valid block configuration and every [n], the exception
    that [all_equals] raises is a [TypeError]: the [n] blocks are built,
    and the call of [DiffiTResBlock] on them fails on a missing [img_size]
    (n ≤ 0), on an operand that is a module (1 ≤ n ≤ 6), or on too many
    positional arguments (n > 6). *)
Theorem all_equals_raises_TypeError n img nh p hs ch ng w :
  valid_block_config img nh p hs ch ng →
  ∃ msg, all_equals n (kwargs_of img nh p hs ch ng) w = Raise (TypeError msg).
Proof.
  intros (Hi & Hp & Hd & Hh & Hn & Hhn & Hc & Hg & Hcg).
  apply (all_equals_valid_TypeError n img nh p hs ch ng); try lia.
  intros w1. apply DiffiTResBlock_new_kwargs.
Qed.

(** X15.  For every configuration that passes the two assertions, with
    positive channel counts, [hidden_size], [patch_size] and [num_classes]
    and a dropout probability between 0 and 1, [ImageDiffiT.__init__]
    raises a [TypeError], whatever the image size and the numbers of
    blocks: the tokenizer and the embedders are built, and the first call
    of [all_equals] fails. *)
Theorem ImageDiffiT_init_raises_TypeError (a : ImageDiffiT_args) (w : nat) :
  arg_num_heads a ≠ 0 → arg_hidden_size a `mod` arg_num_heads a = 0 →
  arg_num_groups a ≠ 0 → arg_hidden_channels a `mod` arg_num_groups a = 0 →
  0 < arg_channels a → 0 < arg_hidden_channels a →
  0 < arg_hidden_size a → 0 < arg_patch_size a →
  0 < arg_num_classes a → (0 <= arg_class_dropout_prob a <= 1)%Q →
  ∃ msg, ImageDiffiT_init a w = Raise (TypeError msg).
Proof.
  intros Hnh Hhs Hng Hch Hc0 Hhc0 Hh0 Hp Hnc Hdp.
  destruct (all_equals_valid_TypeError (arg_l1 a) (arg_img_size a) (arg_num_heads a)
              (arg_patch_size a) (arg_hidden_size a) (arg_hidden_channels a) 1
              (get_block_params a 1 (arg_img_size a)) (S (S (S w)))) as (msg & E);
    try assumption; try lia.
  { intros w1. apply DiffiTResBlock_new_block_params. }
  { apply Z.mod_1_r. }
  exists msg. unfold ImageDiffiT_init, ImageDiffiT_init_with. run_ctor.
  unfold Tokenizer_init. run_ctor.
  unfold fmap, ctor_fmap. rewrite E. reflexivity.
Qed.

(** X12 at the first call [ImageDiffiT(img_size=64)] makes. *)
Lemma all_equals_raises_TypeError_witness :
  valid_block_config 64 16 2 1152 128 1
  ∧ ∃ msg, all_equals 4 (kwargs_of 64 16 2 1152 128 1) 3%nat = Raise (TypeError msg).
Proof.
  assert (Hv : valid_block_config 64 16 2 1152 128 1)
    by (unfold valid_block_config; repeat split; (lia || reflexivity)).
  split; [exact Hv|].
  exact (all_equals_raises_TypeError 4 64 16 2 1152 128 1 3%nat Hv).
Defined.

(** X15 at [ImageDiffiT(img_size=64)]. *)
Lemma ImageDiffiT_init_raises_TypeError_witness :
  (arg_num_heads (default_args 64) ≠ 0
   ∧ arg_hidden_size (default_args 64) `mod` arg_num_heads (default_args 64) = 0
   ∧ arg_num_groups (default_args 64) ≠ 0
   ∧ arg_hidden_channels (default_args 64) `mod` arg_num_groups (default_args 64) = 0
   ∧ 0 < arg_channels (default_args 64) ∧ 0 < arg_hidden_channels (default_args 64)
   ∧ 0 < arg_hidden_size (default_args 64) ∧ 0 < arg_patch_size (default_args 64)
   ∧ 0 < arg_num_classes (default_args 64)
   ∧ (0 <= arg_class_dropout_prob (default_args 64) <= 1)%Q)
  ∧ ∃ msg, ImageDiffiT_init (default_args 64) 0%nat = Raise (TypeError msg).
Proof.
  assert (Hdp : (0 <= arg_class_dropout_prob (default_args 64) <= 1)%Q)
    by (split; discriminate).
  split; [repeat split; cbn; (discriminate || reflexivity || lia)|].
  apply (ImageDiffiT_init_raises_TypeError (default_args 64) 0%nat);
    try exact Hdp; cbn; (lia || reflexivity || discriminate).
Defined.

(** ** The assertion of [unpatchify] inside [forward] *)

Section square.
Context {R : Type} {BE : Backend R}.












End square.

